(** * instrumentation-score: rule engine, score calculator, Prometheus
      client, collector and record files

    A shallow embedding of the Go sources
    - [internal/engine] (rule evaluation and the score formula),
    - [internal/collectors/prometheus.go] (the remote query client),
    - [internal/collectors/collector.go] (collection and per-job files),
    - [internal/loaders/loaders.go] (reading the per-job files back),
    together with the properties the specification states about them.

    Conventions.  Go [string] is [string] (a sequence of bytes), Go [int]
    and [int64] are [Z] with the two's-complement wrap-around of every
    addition written out ([wrap64]), Go [float64] is the primitive binary64
    [float], a Go [map] is a [gmap], and a Go [(T, error)] result is
    [result T]. *)

From Stdlib Require Import ZArith Lia Ascii String Floats DecimalString
  DecimalPos.
From stdpp Require Import base option list strings gmap.

Local Open Scope string_scope.
Local Open Scope Z_scope.

(** ** Go runtime: integers, floats, errors *)

Module Go.

Definition minInt64 : Z := - 2 ^ 63.
Definition maxInt64 : Z := 2 ^ 63 - 1.

(** Two's-complement reduction of a mathematical integer to [int64]
    (Go's [int] is 64 bits wide on the platforms the tool is built for). *)
Definition wrap64 (z : Z) : Z := (z + 2 ^ 63) mod 2 ^ 64 - 2 ^ 63.

Definition add64 (a b : Z) : Z := wrap64 (a + b).

(** [len(s)] as a Go [int]. *)
Definition len {A} (l : list A) : Z := Z.of_nat (length l).

(** [%d] of [fmt.Sprintf]. *)
Definition itoa (z : Z) : string := NilZero.string_of_int (Z.to_int z).

(** [float64(n)] for an integer [n]: round to nearest, ties to even. *)
Definition float64_of_int (z : Z) : float :=
  SF2Prim (binary_normalize prec emax z 0 false).

(** Go's comparison operators on [float64]. *)
Definition flt (a b : float) : bool := PrimFloat.ltb a b.
Definition fle (a b : float) : bool := PrimFloat.leb a b.
Definition fgt (a b : float) : bool := PrimFloat.ltb b a.
Definition fge (a b : float) : bool := PrimFloat.leb b a.
Definition feq (a b : float) : bool := PrimFloat.eqb a b.

(** A Go [(T, error)] pair in which exactly one side is meaningful. *)
Inductive result (A : Type) : Type :=
| Ok (a : A)
| Err (msg : string).
Arguments Ok {A} a.
Arguments Err {A} msg.

Definition bind {A B} (m : result A) (k : A -> result B) : result B :=
  match m with
  | Ok a => k a
  | Err e => Err e
  end.

Definition is_ok {A} (m : result A) : bool :=
  match m with Ok _ => true | Err _ => false end.

(** The part of the Go standard library the engine calls and that is not
    part of the repository: [regexp.Compile], [Regexp.MatchString] and
    [strings.ToLower]. *)
Class Lib := {
  Regexp : Type;
  regexp_Compile : string -> option Regexp;
  MatchString : Regexp -> string -> bool;
  strings_ToLower : string -> string
}.

End Go.

Import Go.

(** [result] is used through stdpp's monad notation [x ← m; k]. *)
#[global] Instance result_ret : MRet result := @Ok.
#[global] Instance result_bind : MBind result := fun A B k m => Go.bind m k.

Declare Scope go_scope.
Notation "a =s b" := (String.eqb a b) (at level 70) : go_scope.
Local Open Scope go_scope.

(** ** [strings.Contains] and [strings.HasPrefix] *)

Module GoStrings.

Fixpoint HasPrefix (s prefix : string) {struct prefix} : bool :=
  match prefix, s with
  | EmptyString, _ => true
  | String p prefix', String c s' => Ascii.eqb c p && HasPrefix s' prefix'
  | String _ _, EmptyString => false
  end.

Fixpoint Contains (s substr : string) : bool :=
  HasPrefix s substr ||
  match s with
  | EmptyString => false
  | String _ s' => Contains s' substr
  end.

(** The bytes of a string. *)
Definition bytes (s : string) : list ascii := list_ascii_of_string s.
Definition ofBytes (b : list ascii) : string := string_of_list_ascii b.

(** [len(s)] for a string. *)
Definition strlen (s : string) : Z := Z.of_nat (String.length s).

(** [strings.Split(s, sep)] for a one-byte separator. *)
Fixpoint Split (s : string) (sep : ascii) : list string :=
  match s with
  | EmptyString => [EmptyString]
  | String c s' =>
      if Ascii.eqb c sep then EmptyString :: Split s' sep
      else match Split s' sep with
           | piece :: pieces => String c piece :: pieces
           | [] => [String c EmptyString]
           end
  end.

(** [strings.Join(elems, sep)]. *)
Fixpoint Join (elems : list string) (sep : string) : string :=
  match elems with
  | [] => EmptyString
  | e :: rest =>
      match rest with
      | [] => e
      | _ :: _ => e ++ sep ++ Join rest sep
      end
  end.

(** The UTF-8 encodings of the code points [unicode.IsSpace] accepts:
    TAB, LF, VT, FF, CR, SPACE, U+0085, U+00A0, U+1680, U+2000..U+200A,
    U+2028, U+2029, U+202F, U+205F, U+3000. *)
Definition whiteSpace : list (list ascii) :=
  map (map ascii_of_nat)
    [[9]; [10]; [11]; [12]; [13]; [32]; [194; 133]; [194; 160];
     [225; 154; 128];
     [226; 128; 128]; [226; 128; 129]; [226; 128; 130]; [226; 128; 131];
     [226; 128; 132]; [226; 128; 133]; [226; 128; 134]; [226; 128; 135];
     [226; 128; 136]; [226; 128; 137]; [226; 128; 138];
     [226; 128; 168]; [226; 128; 169]; [226; 128; 175]; [226; 129; 159];
     [227; 128; 128]]%nat.

Fixpoint stripPrefix (prefix s : list ascii) : option (list ascii) :=
  match prefix, s with
  | [], _ => Some s
  | p :: prefix', c :: s' =>
      if Ascii.eqb c p then stripPrefix prefix' s' else None
  | _ :: _, [] => None
  end.

(** [s] without the first of [encodings] it starts with. *)
Fixpoint stripAny (encodings : list (list ascii)) (s : list ascii)
    : option (list ascii) :=
  match encodings with
  | [] => None
  | e :: rest =>
      match stripPrefix e s with
      | Some s' => Some s'
      | None => stripAny rest s
      end
  end.

Fixpoint trimLeft (fuel : nat) (encodings : list (list ascii))
    (s : list ascii) : list ascii :=
  match fuel with
  | O => s
  | S fuel' =>
      match stripAny encodings s with
      | Some s' => trimLeft fuel' encodings s'
      | None => s
      end
  end.

(** [strings.TrimSpace]: white space is removed rune by rune from the
    front, then from the back (a rune is removed at most once per byte,
    so the length is fuel enough). *)
Definition TrimSpace (s : string) : string :=
  let b := bytes s in
  let front := trimLeft (length b) whiteSpace b in
  ofBytes (rev (trimLeft (length front) (map (@rev ascii) whiteSpace)
                         (rev front))).

Definition digitValue (c : ascii) : option Z :=
  let n := Z.of_nat (nat_of_ascii c) in
  if (48 <=? n) && (n <=? 57) then Some (n - 48) else None.

Fixpoint parseDigits (s : string) (acc : Z) : option Z :=
  match s with
  | EmptyString => Some acc
  | String c s' =>
      match digitValue c with
      | Some d => parseDigits s' (acc * 10 + d)
      | None => None
      end
  end.

(** [strconv.ParseUint(s, 10, 64)]. *)
Definition ParseUint (s : string) : option Z :=
  match s with
  | EmptyString => None
  | _ =>
      match parseDigits s 0 with
      | Some un => if un <? 2 ^ 64 then Some un else None
      | None => None
      end
  end.

(** [strconv.ParseInt(s, 10, 64)]; [None] is a non-nil error. *)
Definition ParseInt (s : string) : option Z :=
  match s with
  | EmptyString => None
  | String c rest =>
      let '(neg, digits) :=
        if Ascii.eqb c "+" then (false, rest)
        else if Ascii.eqb c "-" then (true, rest)
        else (false, s) in
      match ParseUint digits with
      | None => None
      | Some un =>
          if negb neg && (2 ^ 63 <=? un) then None
          else if neg && (2 ^ 63 <? un) then None
          else Some (if neg then - un else un)
      end
  end.

Definition newline : string := String "010" EmptyString.

(** [bufio.MaxScanTokenSize]. *)
Definition MaxScanTokenSize : Z := 64 * 1024.

Definition ErrTooLong : string := "bufio.Scanner: token too long".

(** [dropCR]: a line without its terminal carriage return. *)
Definition dropCR (data : string) : string :=
  match rev (bytes data) with
  | c :: rest => if Ascii.eqb c "013" then ofBytes (rev rest) else data
  | [] => data
  end.

(** The tokens a [bufio.Scanner] with the default split function
    ([ScanLines]) and the default buffer yields for the newline-separated
    [pieces] of its input, and the error it stops with: a line that does
    not fit the buffer together with its terminator ends the scan. *)
Fixpoint scanLines (pieces : list string) : list string * option string :=
  match pieces with
  | [] => ([], None)
  | line :: rest =>
      match rest with
      | [] =>
          if line =s "" then ([], None)
          else if MaxScanTokenSize <=? strlen line then ([], Some ErrTooLong)
          else ([dropCR line], None)
      | _ :: _ =>
          if MaxScanTokenSize <=? strlen line then ([], Some ErrTooLong)
          else let '(tokens, err) := scanLines rest in
               (dropCR line :: tokens, err)
      end
  end.

Definition Scan (content : string) : list string * option string :=
  scanLines (Split content "010").

End GoStrings.

(** ** internal/loaders: the rows the engine evaluates *)

Module CardinalityData.
Record t := mk { MetricName : string; Count : Z }.
End CardinalityData.

Module LabelsData.
Record t := mk { MetricName : string; Labels : list string }.
End LabelsData.

(** ** internal/engine: rule definitions *)

(** A condition's [Value interface{}] as the YAML decoder produces it. *)
Inductive Value :=
| VInt (n : Z)
| VFloat (f : float)
| VString (s : string)
| VOther.

Record ConditionConfig := mkCondition {
  Field : string;
  Operator : string;
  CValue : Value
}.

Record ValidatorConfig := mkValidator {
  Name : string;
  VType : string;
  DataSource : string;
  UITitle : string;
  UIDescription : string;
  Conditions : list ConditionConfig
}.

Record RuleDefinition := mkRule {
  RuleID : string;
  Description : string;
  Impact : string;
  Validators : list ValidatorConfig
}.

Module ValidatorStat.
Record t := mk {
  Name : string;
  PassedMetrics : Z;
  TotalMetrics : Z;
  PassRate : float;
  UITitle : string;
  UIDescription : string
}.
End ValidatorStat.

Module RuleResult.
Record t := mk {
  RuleID : string;
  Impact : string;
  PassedChecks : Z;
  TotalChecks : Z;
  FailedChecks : list string;
  FailedMetrics : gmap string (list string);
  PassedMetrics : Z;
  TotalMetrics : Z;
  PassedCardinality : Z;
  TotalCardinality : Z;
  ValidatorStats : list ValidatorStat.t
}.
End RuleResult.

(** The dynamically typed values of [dataSources map[string]interface{}]. *)
Inductive DataSet :=
| CardinalityRows (rows : list CardinalityData.t)
| LabelsRows (rows : list LabelsData.t).

(** ** internal/engine: evaluation *)

Module Engine.

(** The [switch m := any(metric).(type)] of [evaluateMetrics]: the row
    types the engine instantiates the generic function with, and the
    metric name each one carries. *)
Class MetricRow (T : Type) := metricNameOf : T -> string.
#[global] Instance CardinalityData_row : MetricRow CardinalityData.t :=
  CardinalityData.MetricName.
#[global] Instance LabelsData_row : MetricRow LabelsData.t :=
  LabelsData.MetricName.

(** Only [rules] is read by evaluation; the exclusion list and its
    compiled patterns are used by the filter that runs before it. *)
Record RuleEngine := mkEngine { rules : list RuleDefinition }.

Section Evaluation.
Context `{lib : Lib}.

Definition compareValues (actual : float) (operator : string)
    (expected : Value) : bool :=
  let expectedVal :=
    match expected with
    | VFloat f => Some f
    | VInt intVal => Some (float64_of_int intVal)
    | _ => None
    end in
  match expectedVal with
  | None => false
  | Some expectedVal =>
      if operator =s "gt" then fgt actual expectedVal
      else if operator =s "lt" then flt actual expectedVal
      else if operator =s "gte" then fge actual expectedVal
      else if operator =s "lte" then fle actual expectedVal
      else if operator =s "eq" then feq actual expectedVal
      else false
  end.

Definition compareStrings (actual operator : string) (expected : Value)
    : bool :=
  match expected with
  | VString expectedStr =>
      if operator =s "matches" then
        match regexp_Compile expectedStr with
        | None => false
        | Some regex => MatchString regex actual
        end
      else if operator =s "contains" then
        GoStrings.Contains (strings_ToLower actual)
                           (strings_ToLower expectedStr)
      else if operator =s "not_contains" then
        negb (GoStrings.Contains (strings_ToLower actual)
                                 (strings_ToLower expectedStr))
      else if operator =s "eq" then actual =s expectedStr
      else false
  | _ => false
  end.

Definition compareLabelCount (labelCount : Z) (condition : ConditionConfig)
    : bool :=
  match CValue condition with
  | VInt intVal =>
      let operator := Operator condition in
      if operator =s "lt" then labelCount <? intVal
      else if operator =s "lte" then labelCount <=? intVal
      else if operator =s "gt" then intVal <? labelCount
      else if operator =s "gte" then intVal <=? labelCount
      else if operator =s "eq" then labelCount =? intVal
      else false
  | _ => false
  end.

(** The three [for _, label := range labels] loops of
    [evaluateLabelsField], each with its early [return]. *)
Fixpoint noLabelContains (labels : list string) (expectedStr : string)
    : bool :=
  match labels with
  | [] => true
  | label :: rest =>
      if GoStrings.Contains (strings_ToLower label)
                            (strings_ToLower expectedStr)
      then false
      else noLabelContains rest expectedStr
  end.

Fixpoint someLabelContains (labels : list string) (expectedStr : string)
    : bool :=
  match labels with
  | [] => false
  | label :: rest =>
      if GoStrings.Contains (strings_ToLower label)
                            (strings_ToLower expectedStr)
      then true
      else someLabelContains rest expectedStr
  end.

Fixpoint allLabelsCompare (labels : list string)
    (condition : ConditionConfig) : bool :=
  match labels with
  | [] => true
  | label :: rest =>
      if negb (compareStrings label (Operator condition) (CValue condition))
      then false
      else allLabelsCompare rest condition
  end.

Fixpoint someLabelCompares (labels : list string)
    (condition : ConditionConfig) : bool :=
  match labels with
  | [] => false
  | label :: rest =>
      if compareStrings label (Operator condition) (CValue condition)
      then true
      else someLabelCompares rest condition
  end.

Definition evaluateLabelsField (labels : list string)
    (condition : ConditionConfig) : bool :=
  match CValue condition with
  | VString expectedStr =>
      if Operator condition =s "not_contains" then
        noLabelContains labels expectedStr
      else if Operator condition =s "contains" then
        someLabelContains labels expectedStr
      else if Operator condition =s "matches" then
        allLabelsCompare labels condition
      else someLabelCompares labels condition
  | _ => false
  end.

Fixpoint evaluateCardinalityMetric (metric : CardinalityData.t)
    (conditions : list ConditionConfig) (validatorType : string) : bool :=
  match conditions with
  | [] => true
  | condition :: rest =>
      let conditionMet :=
        if Field condition =s "count" then
          Some (compareValues (float64_of_int (CardinalityData.Count metric))
                              (Operator condition) (CValue condition))
        else if Field condition =s "metric_name" then
          Some (compareStrings (CardinalityData.MetricName metric)
                               (Operator condition) (CValue condition))
        else None in
      match conditionMet with
      | None => false
      | Some conditionMet =>
          if negb conditionMet then false
          else evaluateCardinalityMetric metric rest validatorType
      end
  end.

Fixpoint evaluateLabelsMetric (metric : LabelsData.t)
    (conditions : list ConditionConfig) (validatorType : string) : bool :=
  match conditions with
  | [] => true
  | condition :: rest =>
      let conditionMet :=
        if Field condition =s "metric_name" then
          Some (compareStrings (LabelsData.MetricName metric)
                               (Operator condition) (CValue condition))
        else if Field condition =s "labels" then
          Some (evaluateLabelsField (LabelsData.Labels metric) condition)
        else if Field condition =s "label_count" then
          Some (compareLabelCount (len (LabelsData.Labels metric)) condition)
        else None in
      match conditionMet with
      | None => false
      | Some conditionMet =>
          if negb conditionMet then false
          else evaluateLabelsMetric metric rest validatorType
      end
  end.

Definition MetricEvaluator (T : Type) : Type :=
  T -> list ConditionConfig -> string -> bool.

(** The body of the [for _, metric := range data] loop of
    [evaluateMetrics]; the loop state is [(passed, failedMetrics)]. *)
Definition evaluateMetrics_step {T} `{MetricRow T}
    (validator : ValidatorConfig) (evaluator : MetricEvaluator T)
    (state : Z * list string) (metric : T) : Z * list string :=
  let '(passed, failedMetrics) := state in
  if evaluator metric (Conditions validator) (VType validator)
  then (add64 passed 1, failedMetrics)
  else (passed, (failedMetrics ++ [metricNameOf metric])%list).

Definition evaluateMetrics {T} `{MetricRow T} (data : list T)
    (validator : ValidatorConfig) (evaluator : MetricEvaluator T)
    : result (Z * Z * list string) :=
  let total := len data in
  let '(passed, failedMetrics) :=
    fold_left (evaluateMetrics_step validator evaluator) data (0, []) in
  Ok (passed, total, failedMetrics).

(** The loop body of [evaluateMetricsWithCardinality]; the loop state is
    [(passed, failedMetrics, passedCardinality, totalCardinality)]. *)
Definition evaluateMetricsWithCardinality_step
    (validator : ValidatorConfig)
    (evaluator : MetricEvaluator CardinalityData.t)
    (state : Z * list string * Z * Z) (metric : CardinalityData.t)
    : Z * list string * Z * Z :=
  let '(passed, failedMetrics, passedCardinality, totalCardinality) :=
    state in
  let totalCardinality :=
    add64 totalCardinality (CardinalityData.Count metric) in
  if evaluator metric (Conditions validator) (VType validator)
  then (add64 passed 1, failedMetrics,
        add64 passedCardinality (CardinalityData.Count metric),
        totalCardinality)
  else (passed,
        (failedMetrics ++ [CardinalityData.MetricName metric])%list,
        passedCardinality, totalCardinality).

Definition evaluateMetricsWithCardinality (data : list CardinalityData.t)
    (validator : ValidatorConfig)
    (evaluator : MetricEvaluator CardinalityData.t)
    : result (Z * Z * list string * Z * Z) :=
  let total := len data in
  let '(passed, failedMetrics, passedCardinality, totalCardinality) :=
    fold_left (evaluateMetricsWithCardinality_step validator evaluator)
              data (0, [], 0, 0) in
  Ok (passed, total, failedMetrics, passedCardinality, totalCardinality).

Definition evaluateValidatorWithStats (validator : ValidatorConfig)
    (dataSources : gmap string DataSet)
    : result (Z * Z * list string * Z * Z) :=
  match dataSources !! DataSource validator with
  | None => Err ("data source " ++ DataSource validator ++ " not found")
  | Some data =>
      if VType validator =s "cardinality" then
        match data with
        | CardinalityRows cardinalityData =>
            evaluateMetricsWithCardinality cardinalityData validator
              evaluateCardinalityMetric
        | _ => Err ("invalid data type for " ++ VType validator
                    ++ " validator")
        end
      else if VType validator =s "format" then
        match data with
        | LabelsRows labelsData =>
            '(passed, total, failed) ←
              evaluateMetrics labelsData validator evaluateLabelsMetric;
            Ok (passed, total, failed, 0, 0)
        | _ => Err "format validator requires labels data source"
        end
      else if (VType validator =s "labels")
              || (VType validator =s "label_count") then
        match data with
        | LabelsRows labelsData =>
            '(passed, total, failed) ←
              evaluateMetrics labelsData validator evaluateLabelsMetric;
            Ok (passed, total, failed, 0, 0)
        | _ => Err ("invalid data type for " ++ VType validator
                    ++ " validator")
        end
      else Err ("unknown validator type: " ++ VType validator)
  end.

(** [result.FailedMetrics[metricName] =
      append(result.FailedMetrics[metricName], validator.Name)]
    for every name in [failedMetrics]. *)
Definition recordFailedMetrics (failed : gmap string (list string))
    (validatorName : string) (failedMetrics : list string)
    : gmap string (list string) :=
  fold_left
    (fun failed metricName =>
       <[metricName := (default [] (failed !! metricName) ++ [validatorName])%list]>
         failed)
    failedMetrics failed.

(** One iteration of the validator loop of [evaluateRule]. *)
Definition evaluateRule_step (validator : ValidatorConfig)
    (dataSources : gmap string DataSet) (result : RuleResult.t)
    : Go.result RuleResult.t :=
  match evaluateValidatorWithStats validator dataSources with
  | Err err => Err ("validator " ++ Name validator ++ " failed: " ++ err)
  | Ok (passedCount, totalCount, failedMetrics, passedCard, totalCard) =>
      let passRate :=
        if 0 <? totalCount
        then PrimFloat.div (float64_of_int passedCount)
                           (float64_of_int totalCount)
        else 0%float in
      let stat :=
        ValidatorStat.mk (Name validator) passedCount totalCount passRate
                         (UITitle validator) (UIDescription validator) in
      let failing := 0 <? len failedMetrics in
      Ok (RuleResult.mk
            (RuleResult.RuleID result)
            (RuleResult.Impact result)
            (add64 (RuleResult.PassedChecks result) 1)
            (RuleResult.TotalChecks result)
            (if failing
             then (RuleResult.FailedChecks result ++ [Name validator])%list
             else RuleResult.FailedChecks result)
            (if failing
             then recordFailedMetrics (RuleResult.FailedMetrics result)
                                      (Name validator) failedMetrics
             else RuleResult.FailedMetrics result)
            (add64 (RuleResult.PassedMetrics result) passedCount)
            (add64 (RuleResult.TotalMetrics result) totalCount)
            (add64 (RuleResult.PassedCardinality result) passedCard)
            (add64 (RuleResult.TotalCardinality result) totalCard)
            (RuleResult.ValidatorStats result ++ [stat])%list)
  end.

Fixpoint evaluateRule_loop (validators : list ValidatorConfig)
    (dataSources : gmap string DataSet) (result : RuleResult.t)
    : Go.result RuleResult.t :=
  match validators with
  | [] => Ok result
  | validator :: rest =>
      result' ← evaluateRule_step validator dataSources result;
      evaluateRule_loop rest dataSources result'
  end.

(** [evaluateRule].  When a validator fails, Go returns the partial
    result next to the error; the only caller drops it. *)
Definition evaluateRule (rule : RuleDefinition)
    (dataSources : gmap string DataSet) : Go.result RuleResult.t :=
  evaluateRule_loop (Validators rule) dataSources
    (RuleResult.mk (RuleID rule) (Impact rule) 0 (len (Validators rule))
                   [] ∅ 0 0 0 0 []).

Fixpoint evaluateRules_loop (rs : list RuleDefinition)
    (dataSources : gmap string DataSet) (results : list RuleResult.t)
    : Go.result (list RuleResult.t) :=
  match rs with
  | [] => Ok results
  | rule :: rest =>
      match evaluateRule rule dataSources with
      | Err err =>
          Err ("failed to evaluate rule " ++ RuleID rule ++ ": " ++ err)
      | Ok result =>
          evaluateRules_loop rest dataSources (results ++ [result])%list
      end
  end.

Definition evaluateWithDataSources (e : RuleEngine)
    (dataSources : gmap string DataSet) : Go.result (list RuleResult.t) :=
  evaluateRules_loop (rules e) dataSources [].

(** The [dataSources] map [EvaluateWithData] builds. *)
Definition inMemorySources (cardinalityData : list CardinalityData.t)
    (labelsData : list LabelsData.t) : gmap string DataSet :=
  <["labels" := LabelsRows labelsData]>
    (<["cardinality" := CardinalityRows cardinalityData]> ∅).

Definition EvaluateWithData (e : RuleEngine)
    (cardinalityData : list CardinalityData.t)
    (labelsData : list LabelsData.t) : Go.result (list RuleResult.t) :=
  let dataSources := inMemorySources cardinalityData labelsData in
  evaluateWithDataSources e dataSources.

End Evaluation.

(** *** The score *)

Definition impactWeights : gmap string float :=
  <["Low" := 10%float]>
    (<["Normal" := 20%float]>
       (<["Important" := 30%float]>
          (<["Critical" := 40%float]> ∅))).

(** [weight := impactWeights[result.Impact]]: a missing key reads as the
    zero value. *)
Definition weightOf (impact : string) : float :=
  default 0%float (impactWeights !! impact).

Definition CalculateInstrumentationScore (results : list RuleResult.t)
    : float :=
  let '(numerator, denominator) :=
    fold_left
      (fun '(numerator, denominator) result =>
         let weight := weightOf (RuleResult.Impact result) in
         if 0 <? RuleResult.TotalCardinality result then
           (PrimFloat.add numerator
              (PrimFloat.mul
                 (float64_of_int (RuleResult.PassedCardinality result))
                 weight),
            PrimFloat.add denominator
              (PrimFloat.mul
                 (float64_of_int (RuleResult.TotalCardinality result))
                 weight))
         else
           (PrimFloat.add numerator
              (PrimFloat.mul
                 (float64_of_int (RuleResult.PassedMetrics result)) weight),
            PrimFloat.add denominator
              (PrimFloat.mul
                 (float64_of_int (RuleResult.TotalMetrics result)) weight)))
      results (0%float, 0%float) in
  if feq denominator 0%float then 0%float
  else PrimFloat.mul (PrimFloat.div numerator denominator) 100%float.

End Engine.


(** ** internal/collectors/prometheus.go: the remote query client *)

Module Client.

(** The request a call builds, named by its endpoint and by the
    arguments that go into its URL or form ([fmt.Sprintf], [url.Values]
    and [http.NewRequest] are not modelled further). *)
Inductive Request :=
| MetricNamesRequest (queryFilters : string)
| JobsRequest (metricName queryFilters : string) (now : Z)
| CardinalityRequest (metricName job queryFilters : string) (now : Z)
| LabelsQueryRequest (metricName job queryFilters : string)
| LabelsAPIRequest (metricName job queryFilters : string)
| LabelCardinalityRequest (metricName job : string) (labels : list string)
                          (queryFilters : string).

(** What [c.Client.Do(req)] comes back with. *)
Inductive Outcome :=
| NetworkError (err : string)
| Reply (statusCode : Z) (body : string).

(** The backend as the client sees it: the outcome of the [n]-th
    transport attempt of the run, for the request sent. *)
Definition Transport := nat -> Request -> Outcome.

(** [*http.Response], with the state of its body. *)
Record Response := mkResponse {
  StatusCode : Z;
  Body : string;
  Closed : bool
}.

(** What the client does to the outside world. *)
Inductive Event :=
| Sent (req : Request)
| Slept (nanoseconds : Z).

Definition Trace := list Event.

(** Client code runs against the trace of what happened so far. *)
Definition IO (A : Type) : Type := Trace -> A * Trace.

Definition ret {A} (a : A) : IO A := fun t => (a, t).

Definition bind {A B} (m : IO A) (k : A -> IO B) : IO B :=
  fun t => let '(a, t') := m t in k a t'.

Definition isSent (e : Event) : bool :=
  match e with Sent _ => true | Slept _ => false end.

Definition attempts (t : Trace) : nat := length (List.filter isSent t).

(** [time.Second], in nanoseconds. *)
Definition Second : Z := 1000000000.

(** [time.Sleep(d)]. *)
Definition Sleep (d : Z) : IO unit := fun t => (tt, (t ++ [Slept d])%list).

(** [c.Client.Do(req)]. *)
Definition Do (transport : Transport) (req : Request) : IO Outcome :=
  fun t => (transport (attempts t) req, (t ++ [Sent req])%list).

Record PrometheusClient := mkClient {
  BaseURL : string;
  Login : string;
  Timeout : Z;
  RetryCount : Z
}.

Definition NewPrometheusClient (baseURL login : string) : PrometheusClient :=
  mkClient baseURL login (30 * Second) 2.

Definition SetRetryCount (c : PrometheusClient) (count : Z)
    : PrometheusClient :=
  mkClient (BaseURL c) (Login c) (Timeout c) count.

(** A decoded JSON value, as far as the client inspects it. *)
Inductive JValue :=
| JString (s : string)
| JOther.

(** [encoding/json] on the response shapes the client declares: each
    decoder returns [None] where [Unmarshal]/[Decode] returns an error. *)
Class Json := {
  (** [{"data": [...]}] into [Data []string] *)
  decodeData : string -> option (list string);
  (** [{"error": ...}] into [Error string] *)
  decodeError : string -> option string;
  (** [data.result[].metric] into [map[string]string] *)
  decodeMetrics : string -> option (list (gmap string string));
  (** the keys of [data.result[].metric] decoded as
      [map[string]interface{}], in the order Go ranges over them *)
  decodeMetricKeys : string -> option (list (list string));
  (** [data.result[].value] into [[]interface{}] *)
  decodeValues : string -> option (list (list JValue));
  (** [labels[]] into [(label_name, label_values_count)] *)
  decodeLabelValues : string -> option (list (string * Z))
}.

Section Queries.
Context (transport : Transport) `{json : Json}.

Notation "x ← m ; k" := (bind m (fun x => k))
  (at level 20, m at level 100, k at level 200, only parsing).

(** The loop of [doRequestWithRetry]; [fuel] bounds the iterations
    that are left and [(resp, lastErr)] are the loop variables. *)
Fixpoint retryLoop (fuel : nat) (c : PrometheusClient) (req : Request)
    (attempt : Z) (resp : option Response) (lastErr : option string)
    : IO (option Response * option string) :=
  match fuel with
  | O => ret (resp, lastErr)
  | S fuel' =>
      if attempt <=? RetryCount c then
        _ ← (if 0 <? attempt
             then Sleep (wrap64 (attempt * Second))
             else ret tt);
        outcome ← Do transport req;
        match outcome with
        | NetworkError err =>
            if attempt <? RetryCount c
            then retryLoop fuel' c req (add64 attempt 1) None (Some err)
            else ret (None, Some err)
        | Reply statusCode body =>
            let resp := mkResponse statusCode body false in
            if (200 <=? statusCode) && (statusCode <? 300)
            then ret (Some resp, None)
            else if (statusCode =? 502) || (statusCode =? 503)
                    || (statusCode =? 504)
            then
              let resp := mkResponse statusCode body true in
              if attempt <? RetryCount c
              then retryLoop fuel' c req (add64 attempt 1) (Some resp) None
              else ret (Some resp, None)
            else ret (Some resp, None)
        end
      else ret (resp, lastErr)
  end.

Definition doRequestWithRetry (c : PrometheusClient) (req : Request)
    : IO (option Response * option string) :=
  retryLoop (Z.to_nat (RetryCount c + 1)) c req 0 None None.

(** [io.ReadAll(resp.Body)]. *)
Definition readAll (resp : Response) : result string :=
  if Closed resp then Err "http: read on closed response body"
  else Ok (Body resp).

(** The error text the non-200 paths report: the backend's [error]
    field when the body decodes and has one, the raw body otherwise. *)
Definition errorMessage (body : string) : string :=
  match decodeError body with
  | Some msg => if msg =s "" then body else msg
  | None => body
  end.

(** [if resp.StatusCode == 429 { time.Sleep(2 * time.Second) }]. *)
Definition rateLimitPause (statusCode : Z) : IO unit :=
  if statusCode =? 429 then Sleep (2 * Second) else ret tt.

(** The shared prefix of every query: send with retries, give up on a
    transport error.  A [nil] response with a [nil] error (a negative
    retry count) makes the caller panic on [resp.Body]. *)
Definition send (c : PrometheusClient) (req : Request)
    : IO (result Response) :=
  r ← doRequestWithRetry c req;
  ret (match r with
       | (_, Some err) => Err err
       | (Some resp, None) => Ok resp
       | (None, None) => Err "panic: nil response"
       end).

Definition GetAllMetricNames (c : PrometheusClient) (queryFilters : string)
    : IO (result (list string)) :=
  r ← send c (MetricNamesRequest queryFilters);
  ret (match r with
       | Err err => Err err
       | Ok resp =>
           match readAll resp with
           | Err err => Err err
           | Ok body =>
               match decodeData body with
               | None => Err "json: cannot decode metric names"
               | Some data => Ok data
               end
           end
       end).

Definition GetJobsForMetric (c : PrometheusClient)
    (metricName queryFilters : string) (now : Z)
    : IO (result (list string)) :=
  r ← send c (JobsRequest metricName queryFilters now);
  match r with
  | Err err => ret (Err ("query failed: " ++ err))
  | Ok resp =>
      match readAll resp with
      | Err err => ret (Err ("failed to read response: " ++ err))
      | Ok body =>
          if negb (StatusCode resp =? 200) then
            _ ← rateLimitPause (StatusCode resp);
            ret (Err ("HTTP " ++ itoa (StatusCode resp)
                      ++ " - query: count by (job) - error: "
                      ++ errorMessage body))
          else
            match decodeMetrics body with
            | None => ret (Err "failed to parse response")
            | Some series =>
                ret (Ok (omap (fun metric => metric !! "job") series))
            end
      end
  end.

Definition GetCardinality (c : PrometheusClient)
    (metricName job queryFilters : string) (now : Z)
    : IO (result string) :=
  r ← send c (CardinalityRequest metricName job queryFilters now);
  match r with
  | Err err => ret (Err err)
  | Ok resp =>
      match readAll resp with
      | Err err => ret (Err err)
      | Ok body =>
          if negb (StatusCode resp =? 200) then
            _ ← rateLimitPause (StatusCode resp);
            ret (Err ("HTTP " ++ itoa (StatusCode resp)
                      ++ " - cardinality query - job: " ++ job
                      ++ " - error: " ++ errorMessage body))
          else
            match decodeValues body with
            | None => ret (Err "json: cannot decode query response")
            | Some ((_ :: JString countStr :: _) :: _) => ret (Ok countStr)
            | Some _ => ret (Ok "0")
            end
      end
  end.

Definition getLabelsViaQuery (c : PrometheusClient)
    (metricName job queryFilters : string) : IO (result (list string)) :=
  r ← send c (LabelsQueryRequest metricName job queryFilters);
  match r with
  | Err err => ret (Err err)
  | Ok resp =>
      match readAll resp with
      | Err err => ret (Err err)
      | Ok body =>
          if negb (StatusCode resp =? 200) then
            _ ← rateLimitPause (StatusCode resp);
            ret (Err ("HTTP " ++ itoa (StatusCode resp)))
          else
            match decodeMetricKeys body with
            | None => ret (Err "json: cannot decode query response")
            | Some series =>
                let labelSet : gset string :=
                  list_to_set
                    (List.filter (fun key => negb (key =s "__name__"))
                                 (concat series)) in
                ret (Ok (elements labelSet))
            end
      end
  end.

Definition getLabelsViaAPI (c : PrometheusClient)
    (metricName job queryFilters : string) : IO (result (list string)) :=
  r ← send c (LabelsAPIRequest metricName job queryFilters);
  match r with
  | Err err => ret (Err err)
  | Ok resp =>
      match readAll resp with
      | Err err => ret (Err err)
      | Ok body =>
          if negb (StatusCode resp =? 200) then
            _ ← rateLimitPause (StatusCode resp);
            ret (Err ("HTTP " ++ itoa (StatusCode resp)
                      ++ " - labels API - job: " ++ job
                      ++ " - error: " ++ errorMessage body))
          else
            match decodeData body with
            | None => ret (Err "json: cannot decode labels response")
            | Some data =>
                ret (Ok (List.filter
                           (fun label => negb (label =s "__name__")) data))
            end
      end
  end.

Definition GetLabels (c : PrometheusClient)
    (metricName job queryFilters : string) : IO (result (list string)) :=
  r ← getLabelsViaQuery c metricName job queryFilters;
  match r with
  | Ok (label :: labels) => ret (Ok (label :: labels))
  | _ => getLabelsViaAPI c metricName job queryFilters
  end.

Definition GetLabelCardinality (c : PrometheusClient)
    (metricName job : string) (labels : list string)
    (queryFilters : string) : IO (result (gmap string Z)) :=
  r ← send c (LabelCardinalityRequest metricName job labels queryFilters);
  match r with
  | Err err => ret (Err ("request failed: " ++ err))
  | Ok resp =>
      match readAll resp with
      | Err err => ret (Err ("failed to read response: " ++ err))
      | Ok body =>
          if negb (StatusCode resp =? 200) then
            _ ← rateLimitPause (StatusCode resp);
            ret (Err ("HTTP " ++ itoa (StatusCode resp)
                      ++ " - label cardinality API - job: " ++ job
                      ++ " - error: " ++ errorMessage body))
          else
            match decodeLabelValues body with
            | None => ret (Err "failed to parse response")
            | Some items =>
                ret (Ok (fold_left
                           (fun cardinalityMap item =>
                              <[item.1 := item.2]> cardinalityMap)
                           items ∅))
            end
      end
  end.

End Queries.

End Client.

(** ** internal/collectors/collector.go: collection *)

Module Collectors.

Module JobMetricData.
Record t := mk {
  Job : string;
  MetricName : string;
  Labels : list string;
  Cardinality : string;
  LabelCardinality : option (gmap string Z)
}.
End JobMetricData.

Module ErrorRecord.
Record t := mk {
  MetricName : string;
  Operation : string;
  Error : string;
  Timestamp : Z
}.
End ErrorRecord.

(** What the collector sees of its [*PrometheusClient]: the value each
    query returns for its arguments, and the clock. *)
Class Backend := {
  GetAllMetricNames : string -> result (list string);
  GetJobsForMetric : string -> string -> Z -> result (list string);
  GetCardinality : string -> string -> string -> Z -> result string;
  GetLabels : string -> string -> string -> result (list string);
  GetLabelCardinality :
    string -> string -> list string -> string -> result (gmap string Z);
  timeNow : Z
}.

Record Collector := mkCollector {
  queryFilters : string;
  maxConcurrentMetrics : Z;
  maxConcurrentJobs : Z;
  maxConcurrentLabelCardinality : Z;
  collectLabelCardinality : bool
}.

Module basicMetricData.
Record t := mk {
  job : string;
  cardinality : string;
  labels : list string
}.
End basicMetricData.

Section Collection.
Context `{backend : Backend}.

(** The goroutines of one tier only append, under a mutex, to a slice
    of their own tier; the loops below run them in the order they are
    started, which is one of the schedules the semaphores allow (any
    other schedule permutes the slices). *)

(** The goroutine body of phase 1 of [getJobMetricDataForMetric]. *)
Definition fetchBasic (c : Collector) (metricName : string) (now : Z)
    (basicData : list basicMetricData.t) (job : string)
    : list basicMetricData.t :=
  match GetCardinality metricName job (queryFilters c) now with
  | Err _ => basicData
  | Ok cardinality =>
      match GetLabels metricName job (queryFilters c) with
      | Err _ => basicData
      | Ok labels =>
          (basicData ++ [basicMetricData.mk job cardinality labels])%list
      end
  end.

(** The goroutine body of phase 2. *)
Definition fetchLabelCardinality (c : Collector) (metricName : string)
    (results : list JobMetricData.t) (d : basicMetricData.t)
    : list JobMetricData.t :=
  let labelCardinality :=
    if 0 <? len (basicMetricData.labels d) then
      match GetLabelCardinality metricName (basicMetricData.job d)
              (basicMetricData.labels d) (queryFilters c) with
      | Err _ => None
      | Ok cardinalityMap => Some cardinalityMap
      end
    else None in
  (results ++
   [JobMetricData.mk (basicMetricData.job d) metricName
      (basicMetricData.labels d) (basicMetricData.cardinality d)
      labelCardinality])%list.

Definition getJobMetricDataForMetric (c : Collector) (metricName : string)
    (now : Z) : result (list JobMetricData.t) :=
  match GetJobsForMetric metricName (queryFilters c) now with
  | Err err => Err err
  | Ok jobNames =>
      if len jobNames =? 0 then Ok []
      else
        let basicData := fold_left (fetchBasic c metricName now) jobNames [] in
        if collectLabelCardinality c then
          Ok (fold_left (fetchLabelCardinality c metricName) basicData [])
        else
          Ok (fold_left
                (fun results data =>
                   (results ++
                    [JobMetricData.mk (basicMetricData.job data) metricName
                       (basicMetricData.labels data)
                       (basicMetricData.cardinality data) None])%list)
                basicData [])
  end.

(** The goroutine body of [fetchJobMetricData]; the state is
    [(allData, errors)]. *)
Definition fetchMetric (c : Collector) (now : Z)
    (state : list JobMetricData.t * list ErrorRecord.t) (metric : string)
    : list JobMetricData.t * list ErrorRecord.t :=
  let '(allData, errors) := state in
  match getJobMetricDataForMetric c metric now with
  | Err err =>
      (allData,
       (errors ++ [ErrorRecord.mk metric "fetch_job_data" err timeNow])%list)
  | Ok jobData =>
      if 0 <? len jobData then ((allData ++ jobData)%list, errors)
      else (allData, errors)
  end.

Definition fetchJobMetricData (c : Collector) (metricNames : list string)
    (now : Z) (errors : list ErrorRecord.t)
    : list JobMetricData.t * list ErrorRecord.t :=
  fold_left (fetchMetric c now) metricNames ([], errors).

Definition CollectMetrics (c : Collector)
    : result (list JobMetricData.t * list ErrorRecord.t) :=
  let now := timeNow in
  match GetAllMetricNames (queryFilters c) with
  | Err err => Err ("failed to fetch metric names: " ++ err)
  | Ok metricNames => Ok (fetchJobMetricData c metricNames now [])
  end.

End Collection.

(** *** Per-job files *)

(** [sanitizeJobName]: the byte replacer built from the nine one-byte
    pairs. *)
Definition unsafeByte (c : ascii) : bool :=
  existsb (Ascii.eqb c) ["/"; "\"; ":"; "*"; "?"; "034"; "<"; ">"; "|"]%char.

Fixpoint sanitizeJobName (jobName : string) : string :=
  match jobName with
  | EmptyString => EmptyString
  | String c rest =>
      String (if unsafeByte c then "_"%char else c) (sanitizeJobName rest)
  end.

(** The file of a job inside [outputDir]. *)
Definition fileName (job : string) : string := sanitizeJobName job ++ ".txt".

Definition header : string :=
  "JOB|METRIC_NAME|LABELS|CARDINALITY|LABEL_CARDINALITY" ++ GoStrings.newline.

(** [label1:count1,label2:count2,...] over the labels that have a count. *)
Definition labelCardinalityStr (data : JobMetricData.t) : string :=
  match JobMetricData.LabelCardinality data with
  | None => ""
  | Some labelCardinality =>
      if 0 <? Z.of_nat (size labelCardinality) then
        GoStrings.Join
          (fold_left
             (fun parts label =>
                match labelCardinality !! label with
                | Some count =>
                    (parts ++ [(label ++ ":" ++ itoa count)%string])%list
                | None => parts
                end)
             (JobMetricData.Labels data) [])
          ","
      else ""
  end.

Definition formatLine (data : JobMetricData.t) : string :=
  JobMetricData.Job data ++ "|" ++ JobMetricData.MetricName data ++ "|"
  ++ GoStrings.Join (JobMetricData.Labels data) "," ++ "|"
  ++ JobMetricData.Cardinality data ++ "|" ++ labelCardinalityStr data
  ++ GoStrings.newline.

(** The maps of [WritePerJobFiles], with every buffered writer merged
    into the text of its file ([files] maps a file name inside
    [outputDir] to what has been written to it; the deferred [Flush] and
    [Close] make that the file's content). *)
Record writerState := mkWriterState {
  jobFiles : gmap string string;
  files : gmap string string;
  skippedJobs : gset string;
  writeErrors : list string
}.

(** One iteration of the loop over [allData].  [canCreate] tells whether
    [os.OpenFile] succeeds for a file name.  Two jobs whose names
    sanitize to one file name make two buffered writers overwrite each
    other in an order the runtime chooses; the model stops there
    ([None]) rather than pick one. *)
Definition writeRecord (canCreate : string -> bool)
    (state : option writerState) (data : JobMetricData.t)
    : option writerState :=
  st ← state;
  let job := JobMetricData.Job data in
  if bool_decide (job ∈ skippedJobs st) then Some st
  else
    opened ←
      match jobFiles st !! job with
      | Some _ => Some (inl st)
      | None =>
          let file := fileName job in
          if negb (canCreate file) then
            Some (inr (mkWriterState (jobFiles st) (files st)
                         ({[job]} ∪ skippedJobs st)
                         (writeErrors st ++
                          [("failed to create file for job " ++ job)%string])%list))
          else if bool_decide (file ∈ dom (files st)) then None
          else
            Some (inl (mkWriterState (<[job := file]> (jobFiles st))
                         (<[file := header]> (files st))
                         (skippedJobs st) (writeErrors st)))
      end;
    match opened with
    | inr skipped => Some skipped
    | inl st =>
        let file := fileName job in
        Some (mkWriterState (jobFiles st)
                (<[file := default "" (files st !! file) ++ formatLine data]>
                   (files st))
                (skippedJobs st) (writeErrors st))
    end.

(** [WritePerJobFiles]: the files of [outputDir] after the call (the
    function itself always returns a [nil] error). *)
Definition WritePerJobFiles (canCreate : string -> bool)
    (allData : list JobMetricData.t) : option (gmap string string) :=
  files <$> fold_left (writeRecord canCreate) allData
              (Some (mkWriterState ∅ ∅ ∅ [])).

End Collectors.

(** ** internal/loaders/loaders.go: reading the per-job files *)

Module Loaders.

Module JobMetricData.
Record t := mk {
  Job : string;
  MetricName : string;
  Labels : list string;
  Cardinality : Z;
  LabelCardinality : option (gmap string Z)
}.
End JobMetricData.

Definition part (parts : list string) (i : nat) : string :=
  default "" (parts !! i).

(** The [Clean up labels] loop. *)
Definition cleanLabels (labels : list string) : list string :=
  fold_left
    (fun clean label =>
       let cleanLabel := GoStrings.TrimSpace label in
       if negb (cleanLabel =s "") then (clean ++ [cleanLabel])%list
       else clean)
    labels [].

(** The loop over the [name:count] parts of the fifth column. *)
Definition parseLabelCardinality (labelCardStr : string) : gmap string Z :=
  fold_left
    (fun labelCardinality part' =>
       let kv := GoStrings.Split part' ":" in
       if len kv =? 2 then
         match GoStrings.ParseInt (GoStrings.TrimSpace (part kv 1)) with
         | Some count =>
             <[GoStrings.TrimSpace (part kv 0) := count]> labelCardinality
         | None => labelCardinality
         end
       else labelCardinality)
    (GoStrings.Split labelCardStr ",") ∅.

(** The body of the [for scanner.Scan()] loop. *)
Definition parseLine (data : list JobMetricData.t) (text : string)
    : list JobMetricData.t :=
  let line := GoStrings.TrimSpace text in
  if (line =s "") || GoStrings.HasPrefix line "#" then data
  else
    let parts := GoStrings.Split line "|" in
    if len parts <? 4 then data
    else
      match GoStrings.ParseInt (GoStrings.TrimSpace (part parts 3)) with
      | None => data
      | Some cardinality =>
          let labelsStr := GoStrings.TrimSpace (part parts 2) in
          let labels := GoStrings.Split labelsStr "," in
          let labelCardinality :=
            if (5 <=? len parts)
               && negb (GoStrings.TrimSpace (part parts 4) =s "")
            then Some (parseLabelCardinality
                         (GoStrings.TrimSpace (part parts 4)))
            else None in
          (data ++
           [JobMetricData.mk (GoStrings.TrimSpace (part parts 0))
              (GoStrings.TrimSpace (part parts 1))
              (cleanLabels labels) cardinality labelCardinality])%list
      end.

(** [LoadJobMetricReport] on the files of a directory: the records and
    the error it returns ([scanner.Err()], or the error of [os.Open]). *)
Definition LoadJobMetricReport (dir : gmap string string) (filename : string)
    : list JobMetricData.t * option string :=
  match dir !! filename with
  | None => ([], Some ("open " ++ filename ++ ": no such file or directory"))
  | Some content =>
      let '(tokens, err) := GoStrings.Scan content in
      (fold_left parseLine (tail tokens) [], err)
  end.

End Loaders.
(** ** internal/engine: the exclusion list *)

Module Exclusions.

Record ExclusionEntry := mkExclusion {
  Job : string;
  JobNamePattern : string;
  Metrics : list string
}.

Record RulesConfig := mkConfig {
  ExclusionList : list ExclusionEntry;
  Rules : list RuleDefinition
}.

Section WithLib.
Context `{lib : Lib}.

(** [RuleEngine] with all three fields; a [nil] pattern is [None]. *)
Record RuleEngine := mkEngine {
  rules : list RuleDefinition;
  exclusionList : list ExclusionEntry;
  exclusionPatterns : list (option Regexp)
}.

(** The part of the engine that rule evaluation reads. *)
Definition evaluator (e : RuleEngine) : Engine.RuleEngine :=
  Engine.mkEngine (rules e).

(** The [for i, exclusion := range config.ExclusionList] loop of
    [NewRuleEngine]; the text of the library's own error follows the
    message. *)
Fixpoint compilePatterns (i : Z) (exclusions : list ExclusionEntry)
    (patterns : list (option Regexp)) : result (list (option Regexp)) :=
  match exclusions with
  | [] => Ok patterns
  | exclusion :: rest =>
      if negb (JobNamePattern exclusion =s "") then
        match regexp_Compile (JobNamePattern exclusion) with
        | None =>
            Err ("invalid regex pattern in exclusion_list[" ++ itoa i
                 ++ "]")
        | Some pattern =>
            compilePatterns (i + 1) rest (patterns ++ [Some pattern])%list
        end
      else compilePatterns (i + 1) rest (patterns ++ [None])%list
  end.

(** [NewRuleEngine] over the files of the working directory;
    [unmarshal] is [yaml.Unmarshal] into a [RulesConfig]. *)
Definition NewRuleEngine (files : gmap string string)
    (unmarshal : string -> result RulesConfig) (rulesFile : string)
    : result RuleEngine :=
  match files !! rulesFile with
  | None =>
      Err ("failed to read rules file: open " ++ rulesFile
           ++ ": no such file or directory")
  | Some data =>
      match unmarshal data with
      | Err err => Err ("failed to unmarshal rules: " ++ err)
      | Ok config =>
          match compilePatterns 0 (ExclusionList config) [] with
          | Err err => Err err
          | Ok patterns =>
              Ok (mkEngine (Rules config) (ExclusionList config) patterns)
          end
      end
  end.

(** The loop of [IsJobExcluded] from index [i] on.  [None] is the
    run-time panic of [e.exclusionPatterns[i]] out of range. *)
Fixpoint IsJobExcluded_loop (e : RuleEngine) (i : nat)
    (exclusions : list ExclusionEntry) (jobName : string) : option bool :=
  match exclusions with
  | [] => Some false
  | exclusion :: rest =>
      if negb (Job exclusion =s "") && (Job exclusion =s jobName)
         && (len (Metrics exclusion) =? 0)
      then Some true
      else if negb (JobNamePattern exclusion =s "") then
        match exclusionPatterns e !! i with
        | None => None
        | Some None => IsJobExcluded_loop e (S i) rest jobName
        | Some (Some pattern) =>
            if MatchString pattern jobName
               && (len (Metrics exclusion) =? 0)
            then Some true
            else IsJobExcluded_loop e (S i) rest jobName
        end
      else IsJobExcluded_loop e (S i) rest jobName
  end.

Definition IsJobExcluded (e : RuleEngine) (jobName : string)
    : option bool :=
  IsJobExcluded_loop e 0 (exclusionList e) jobName.

(** The loop of [IsMetricExcluded] from index [i] on. *)
Fixpoint IsMetricExcluded_loop (e : RuleEngine) (i : nat)
    (exclusions : list ExclusionEntry) (jobName metricName : string)
    : option bool :=
  match exclusions with
  | [] => Some false
  | exclusion :: rest =>
      let matchesJob :=
        negb (Job exclusion =s "") && (Job exclusion =s jobName) in
      let matchesJob :=
        if negb (JobNamePattern exclusion =s "") then
          match exclusionPatterns e !! i with
          | None => None
          | Some None => Some matchesJob
          | Some (Some pattern) =>
              Some (if MatchString pattern jobName then true
                    else matchesJob)
          end
        else Some matchesJob in
      match matchesJob with
      | None => None
      | Some true =>
          if len (Metrics exclusion) =? 0 then Some true
          else if existsb
                    (fun excludedMetric => excludedMetric =s metricName)
                    (Metrics exclusion)
          then Some true
          else IsMetricExcluded_loop e (S i) rest jobName metricName
      | Some false => IsMetricExcluded_loop e (S i) rest jobName metricName
      end
  end.

Definition IsMetricExcluded (e : RuleEngine) (jobName metricName : string)
    : option bool :=
  IsMetricExcluded_loop e 0 (exclusionList e) jobName metricName.

(** One iteration of either loop of [FilterExcludedMetrics]. *)
Definition keepIncluded {T} `{Engine.MetricRow T} (e : RuleEngine)
    (jobName : string) (filtered : option (list T)) (data : T)
    : option (list T) :=
  filtered ← filtered;
  excluded ← IsMetricExcluded e jobName (Engine.metricNameOf data);
  Some (if negb excluded then (filtered ++ [data])%list else filtered).

Definition FilterExcludedMetrics (e : RuleEngine) (jobName : string)
    (cardinalityData : list CardinalityData.t)
    (labelsData : list LabelsData.t)
    : option (list CardinalityData.t * list LabelsData.t) :=
  filteredCardinality ←
    fold_left (keepIncluded e jobName) cardinalityData (Some []);
  filteredLabels ←
    fold_left (keepIncluded e jobName) labelsData (Some []);
  Some (filteredCardinality, filteredLabels).

End WithLib.

End Exclusions.

(** ** internal/loaders: the two-column reports and the converters *)

Module Reports.
Import GoStrings.

Fixpoint trimLeftByte (s : list ascii) (c : ascii) : list ascii :=
  match s with
  | [] => []
  | x :: s' => if Ascii.eqb x c then trimLeftByte s' c else s
  end.

(** [strings.Trim(s, cutset)] for a cutset of one ASCII byte. *)
Definition Trim (s : string) (cutset : ascii) : string :=
  ofBytes (rev (trimLeftByte (rev (trimLeftByte (bytes s) cutset)) cutset)).

(** The body of the scanner loop of [LoadCardinalityReport]. *)
Definition parseCardinalityLine (data : list CardinalityData.t)
    (text : string) : list CardinalityData.t :=
  let line := TrimSpace text in
  if (line =s "") || HasPrefix line "#" then data
  else
    let parts := Split line "|" in
    if negb (len parts =? 2) then data
    else
      match ParseInt (TrimSpace (Loaders.part parts 1)) with
      | None => data
      | Some count =>
          (data ++
           [CardinalityData.mk (TrimSpace (Loaders.part parts 0)) count])%list
      end.

(** [LoadCardinalityReport]: the rows and the error returned with them. *)
Definition LoadCardinalityReport (dir : gmap string string)
    (filename : string) : list CardinalityData.t * option string :=
  match dir !! filename with
  | None => ([], Some ("open " ++ filename ++ ": no such file or directory"))
  | Some content =>
      let '(tokens, err) := Scan content in
      (fold_left parseCardinalityLine tokens [], err)
  end.

(** The body of the scanner loop of [LoadLabelsReport]. *)
Definition parseLabelsLine (data : list LabelsData.t) (text : string)
    : list LabelsData.t :=
  let line := TrimSpace text in
  if (line =s "") || HasPrefix line "#" then data
  else
    let parts := Split line "|" in
    if negb (len parts =? 2) then data
    else
      let labelsStr := TrimSpace (Loaders.part parts 1) in
      let labelsStr := Trim labelsStr "034" in
      let labels := Split labelsStr "," in
      (data ++
       [LabelsData.mk (Trim (TrimSpace (Loaders.part parts 0)) "034")
                      (Loaders.cleanLabels labels)])%list.

Definition LoadLabelsReport (dir : gmap string string) (filename : string)
    : list LabelsData.t * option string :=
  match dir !! filename with
  | None => ([], Some ("open " ++ filename ++ ": no such file or directory"))
  | Some content =>
      let '(tokens, err) := Scan content in
      (fold_left parseLabelsLine tokens [], err)
  end.

Definition ConvertJobMetricToCardinality
    (jobData : list Loaders.JobMetricData.t) : list CardinalityData.t :=
  fold_left
    (fun data jm =>
       (data ++
        [CardinalityData.mk (Loaders.JobMetricData.MetricName jm)
                            (Loaders.JobMetricData.Cardinality jm)])%list)
    jobData [].

Definition ConvertJobMetricToLabels
    (jobData : list Loaders.JobMetricData.t) : list LabelsData.t :=
  fold_left
    (fun data jm =>
       (data ++
        [LabelsData.mk (Loaders.JobMetricData.MetricName jm)
                       (Loaders.JobMetricData.Labels jm)])%list)
    jobData [].

End Reports.

(** ** Ranging over a Go map *)

(** [for key, value := range m] visits every entry once, in an order the
    runtime chooses anew for each loop; [call] tells the loops of one run
    apart. *)
Class MapRange := {
  rangeOrder : nat -> forall V, gmap string V -> list (string * V);
  rangeOrder_perm :
    forall call V (m : gmap string V), rangeOrder call V m ≡ₚ map_to_list m
}.

(** ** internal/engine: [EvaluateRules] *)

Module FileEvaluation.
Import Engine Reports.

Section WithLib.
Context `{lib : Lib} `{range : MapRange}.

(** One iteration of [for key, file := range dataFiles]; an error
    ends the loop. *)
Definition loadSource (dir : gmap string string)
    (dataSources : result (gmap string DataSet)) (entry : string * string)
    : result (gmap string DataSet) :=
  dataSources ← dataSources;
  let '(key, file) := entry in
  if key =s "cardinality" then
    match LoadCardinalityReport dir file with
    | (_, Some err) => Err ("failed to load cardinality data: " ++ err)
    | (data, None) =>
        Ok (<["cardinality" := CardinalityRows data]> dataSources)
    end
  else if key =s "labels" then
    match LoadLabelsReport dir file with
    | (_, Some err) => Err ("failed to load labels data: " ++ err)
    | (data, None) => Ok (<["labels" := LabelsRows data]> dataSources)
    end
  else Ok dataSources.

Definition EvaluateRules (e : RuleEngine) (dir : gmap string string)
    (dataFiles : gmap string string) : result (list RuleResult.t) :=
  dataSources ←
    fold_left (loadSource dir) (rangeOrder 0 string dataFiles) (Ok ∅);
  evaluateWithDataSources e dataSources.

End WithLib.

End FileEvaluation.

(** ** cmd/evaluate.go: one job file *)

Module Evaluate.
Import Engine Reports.

Module JobScoreResult.
Record t := mk {
  JobName : string;
  TotalMetrics : Z;
  TotalCardinality : Z;
  EstimatedCost : float;
  Score : float;
  RuleResults : list RuleResult.t;
  FailedMetrics : list string;
  MetricsBreakdown : gmap string Z
}.
End JobScoreResult.

(** [parseOutputFormats]. *)
Definition parseOutputFormats (formats : string) : list string :=
  if formats =s "" then ["text"]
  else
    let parts := GoStrings.Split formats "," in
    fold_left
      (fun result part =>
         let trimmed := GoStrings.TrimSpace part in
         if negb (trimmed =s "") then (result ++ [trimmed])%list
         else result)
      parts [].

(** [contains]. *)
Fixpoint contains (slice : list string) (item : string) : bool :=
  match slice with
  | [] => false
  | s :: rest => if s =s item then true else contains rest item
  end.

(** The test [runAllJobsEvaluation] applies to the error of a job to
    count it as excluded rather than failed. *)
Definition isExclusionError (err : string) : bool :=
  GoStrings.Contains err "is excluded from evaluation"
  || GoStrings.Contains err "no metrics remaining after exclusion filtering".

Section WithLib.
Context `{lib : Lib} `{range : MapRange}.
(** The flags [--show-costs] and [--cost-unit-price]. *)
Context (showCosts : bool) (costPrice : float).

(** The inner loop of [Collect failed metrics], over the keys of one
    result's [FailedMetrics] in the order of this [range]; the state
    is [(failedMetrics, failedMetricsMap)]. *)
Definition collectFailed (state : list string * gset string)
    (metricName : string) : list string * gset string :=
  let '(failedMetrics, failedMetricsMap) := state in
  if negb (bool_decide (metricName ∈ failedMetricsMap))
  then ((failedMetrics ++ [metricName])%list,
        {[metricName]} ∪ failedMetricsMap)
  else state.

(** The outer loop, from the [call]-th result on. *)
Fixpoint collectFailedMetrics (call : nat) (results : list RuleResult.t)
    (state : list string * gset string) : list string * gset string :=
  match results with
  | [] => state
  | result :: rest =>
      collectFailedMetrics (S call) rest
        (fold_left collectFailed
           (map fst (rangeOrder call (list string)
                       (RuleResult.FailedMetrics result)))
           state)
  end.

(** [evaluateSingleJobFile] on the files of a directory; the outer
    [None] is a run-time panic. *)
Definition evaluateSingleJobFile (dir : gmap string string)
    (filePath : string) (ruleEngine : Exclusions.RuleEngine)
    : option (result JobScoreResult.t) :=
  match Loaders.LoadJobMetricReport dir filePath with
  | (_, Some err) => Some (Err err)
  | (jobData, None) =>
      match jobData with
      | [] => Some (Err "no metrics found")
      | first :: _ =>
          let jobName := Loaders.JobMetricData.Job first in
          excluded ← Exclusions.IsJobExcluded ruleEngine jobName;
          if excluded : bool then
            Some (Err ("job " ++ jobName ++ " is excluded from evaluation"))
          else
            let cardinalityData := ConvertJobMetricToCardinality jobData in
            let labelsData := ConvertJobMetricToLabels jobData in
            '(cardinalityData, labelsData) ←
              Exclusions.FilterExcludedMetrics ruleEngine jobName
                cardinalityData labelsData;
            if (len cardinalityData =? 0) && (len labelsData =? 0) then
              Some (Err ("no metrics remaining after exclusion filtering"
                         ++ " for job " ++ jobName))
            else
              let totalCardinality :=
                fold_left
                  (fun total metric =>
                     add64 total (CardinalityData.Count metric))
                  cardinalityData 0 in
              let estimatedCost :=
                if showCosts && fgt costPrice 0%float
                then PrimFloat.mul (float64_of_int totalCardinality)
                                   costPrice
                else 0%float in
              match EvaluateWithData (Exclusions.evaluator ruleEngine)
                      cardinalityData labelsData with
              | Err err => Some (Err err)
              | Ok results =>
                  let score := CalculateInstrumentationScore results in
                  let '(failedMetrics, _) :=
                    collectFailedMetrics 1 results ([], ∅) in
                  let breakdown :=
                    fold_left
                      (fun breakdown result =>
                         <[RuleResult.RuleID result
                           := RuleResult.PassedChecks result]> breakdown)
                      results ∅ in
                  Some (Ok (JobScoreResult.mk jobName (len jobData)
                              totalCardinality estimatedCost score
                              results failedMetrics breakdown))
              end
      end
  end.

End WithLib.

End Evaluate.

(** ** internal/collectors: configuration of the collector and the client *)

Module Settings.
Import Collectors.

(** [getEnvInt]; [os.Getenv] reads an unset variable as the empty
    string and [strconv.Atoi] is [ParseInt] in base 10. *)
Definition getEnvInt (env : gmap string string) (key : string)
    (defaultValue : Z) : Z :=
  let val := default "" (env !! key) in
  if negb (val =s "") then
    match GoStrings.ParseInt val with
    | Some intVal => if 0 <? intVal then intVal else defaultValue
    | None => defaultValue
    end
  else defaultValue.

(** [NewCollector] and [NewCollectorWithClient] set the same fields
    beside the client. *)
Definition NewCollectorWithClient (env : gmap string string)
    (queryFilters : string) : Collector :=
  mkCollector queryFilters
    (getEnvInt env "CONCURRENT_METRICS" 5)
    (getEnvInt env "CONCURRENT_JOBS" 3)
    (getEnvInt env "CONCURRENT_LABEL_CARDINALITY" 50)
    false.

Definition SetCollectLabelCardinality (c : Collector) (enabled : bool)
    : Collector :=
  mkCollector (queryFilters c) (maxConcurrentMetrics c)
    (maxConcurrentJobs c) (maxConcurrentLabelCardinality c) enabled.

Definition SetLabelCardinalityConcurrency (c : Collector) (concurrency : Z)
    : Collector :=
  if 0 <? concurrency then
    mkCollector (queryFilters c) (maxConcurrentMetrics c)
      (maxConcurrentJobs c) concurrency (collectLabelCardinality c)
  else c.

Definition SetMetricsConcurrency (c : Collector) (concurrency : Z)
    : Collector :=
  if 0 <? concurrency then
    mkCollector (queryFilters c) concurrency (maxConcurrentJobs c)
      (maxConcurrentLabelCardinality c) (collectLabelCardinality c)
  else c.

Definition SetJobsConcurrency (c : Collector) (concurrency : Z)
    : Collector :=
  if 0 <? concurrency then
    mkCollector (queryFilters c) (maxConcurrentMetrics c) concurrency
      (maxConcurrentLabelCardinality c) (collectLabelCardinality c)
  else c.

(** [NewPrometheusClientFromEnv]. *)
Definition NewPrometheusClientFromEnv (env : gmap string string)
    : result Client.PrometheusClient :=
  let login := default "" (env !! "login") in
  let baseURL := default "" (env !! "url") in
  if baseURL =s "" then
    Err "missing required environment variable: 'url' must be set"
  else Ok (Client.NewPrometheusClient baseURL login).

(** [addAuthIfNeeded]: the arguments of [req.SetBasicAuth], when it is
    called. *)
Definition addAuthIfNeeded (c : Client.PrometheusClient)
    : option (string * string) :=
  if negb (Client.Login c =s "") then
    let parts := GoStrings.Split (Client.Login c) ":" in
    if len parts =? 2
    then Some (Loaders.part parts 0, Loaders.part parts 1)
    else None
  else None.

End Settings.
(** ** The score formula as the specification words it *)

Module ScoreSpec.

(** Critical=40, Important=30, Normal=20, Low=10; an impact outside the
    four levels carries no weight. *)
Definition weight (impact : string) : float :=
  if impact =s "Critical" then 40%float
  else if impact =s "Important" then 30%float
  else if impact =s "Normal" then 20%float
  else if impact =s "Low" then 10%float
  else 0%float.

Definition numerator (r : RuleResult.t) : float :=
  if 0 <? RuleResult.TotalCardinality r
  then PrimFloat.mul (float64_of_int (RuleResult.PassedCardinality r))
                     (weight (RuleResult.Impact r))
  else PrimFloat.mul (float64_of_int (RuleResult.PassedMetrics r))
                     (weight (RuleResult.Impact r)).

Definition denominator (r : RuleResult.t) : float :=
  if 0 <? RuleResult.TotalCardinality r
  then PrimFloat.mul (float64_of_int (RuleResult.TotalCardinality r))
                     (weight (RuleResult.Impact r))
  else PrimFloat.mul (float64_of_int (RuleResult.TotalMetrics r))
                     (weight (RuleResult.Impact r)).

(** Σ, summed in sequence order in binary64. *)
Definition sum (xs : list float) : float := fold_left PrimFloat.add xs 0%float.

(** 100 × (Σ numerators / Σ denominators), and 0 when Σ denominators = 0. *)
Definition score (results : list RuleResult.t) : float :=
  let N := sum (map numerator results) in
  let D := sum (map denominator results) in
  if feq D 0%float then 0%float
  else PrimFloat.mul 100%float (PrimFloat.div N D).

End ScoreSpec.


(** ** Label-set conditions as the specification words them *)

Module LabelsSpec.
Section WithLib.
Context `{lib : Lib}.

(** [label] contains [value] as a case-insensitive substring. *)
Definition contains_ci (label value : string) : Prop :=
  exists before after,
    strings_ToLower label = before ++ strings_ToLower value ++ after.

(** [label] matches [value] compiled as a regular expression. *)
Definition matches_regex (label value : string) : Prop :=
  exists regex,
    regexp_Compile value = Some regex /\ MatchString regex label = true.

End WithLib.
End LabelsSpec.

(** ** Quantities the statements about rule results are phrased with *)

Module EngineSpec.

(** Number of rows an evaluator accepts. *)
Definition countPassed {T} (ok : T -> bool) (data : list T) : Z :=
  len (List.filter ok data).

(** Names of the rows an evaluator rejects, in order. *)
Definition failedNames {T} (ok : T -> bool) (name : T -> string)
    (data : list T) : list string :=
  map name (List.filter (fun m => negb (ok m)) data).

(** Σ of the [Count] attribute, as a mathematical integer. *)
Definition sumCounts (rows : list CardinalityData.t) : Z :=
  foldr (fun m acc => CardinalityData.Count m + acc) 0 rows.

(** The row type a validator type is evaluated on: the error paths of
    [evaluateValidatorWithStats] look at nothing else. *)
Definition typeChecks (validator : ValidatorConfig)
    (dataSources : gmap string DataSet) : bool :=
  match dataSources !! DataSource validator with
  | None => false
  | Some (CardinalityRows _) => VType validator =s "cardinality"
  | Some (LabelsRows _) =>
      (VType validator =s "format") || (VType validator =s "labels")
      || (VType validator =s "label_count")
  end.

(** Number of validators of a rule that read the [cardinality] source. *)
Definition cardinalityValidators (rule : RuleDefinition) : Z :=
  countPassed (fun v => DataSource v =s "cardinality") (Validators rule).

(** What the cardinality total of a rule's result is: the int64 sum of
    the record counts, once per validator on the cardinality source; and
    what follows when no validator used that source. *)
Definition totalCardinalitySpec (cardinalityData : list CardinalityData.t)
    (rule : RuleDefinition) (r : RuleResult.t) : Prop :=
  RuleResult.TotalCardinality r
  = wrap64 (cardinalityValidators rule * sumCounts cardinalityData)
  /\
  (Forall (fun v => DataSource v <> "cardinality") (Validators rule) ->
   RuleResult.TotalCardinality r = 0 /\
   ScoreSpec.numerator r
   = PrimFloat.mul (float64_of_int (RuleResult.PassedMetrics r))
                   (ScoreSpec.weight (Impact rule)) /\
   ScoreSpec.denominator r
   = PrimFloat.mul (float64_of_int (RuleResult.TotalMetrics r))
                   (ScoreSpec.weight (Impact rule))).

(** [0 ≤ passed ≤ total] for both count pairs of a rule result. *)
Definition countsInvariant (r : RuleResult.t) : Prop :=
  0 <= RuleResult.PassedMetrics r <= RuleResult.TotalMetrics r /\
  0 <= RuleResult.PassedCardinality r <= RuleResult.TotalCardinality r.

(** The operators and fields each data view knows. *)
Definition numericOperator (operator : string) : bool :=
  existsb (String.eqb operator) ["gt"; "lt"; "gte"; "lte"; "eq"].

Definition stringOperator (operator : string) : bool :=
  existsb (String.eqb operator) ["matches"; "contains"; "not_contains"; "eq"].

Definition conditionKnown (validatorType : string) (c : ConditionConfig)
    : bool :=
  if validatorType =s "cardinality" then
    ((Field c =s "count") && numericOperator (Operator c))
    || ((Field c =s "metric_name") && stringOperator (Operator c))
  else
    ((Field c =s "metric_name") && stringOperator (Operator c))
    || ((Field c =s "labels") && stringOperator (Operator c))
    || ((Field c =s "label_count") && numericOperator (Operator c)).

End EngineSpec.

(** ** The retry policy as the specification words it *)

Module RetrySpec.
Import Client.

(** The outcomes after which another attempt may follow: a network-level
    failure or a 502/503/504 response. *)
Definition retryable (o : Outcome) : bool :=
  match o with
  | NetworkError _ => true
  | Reply statusCode _ =>
      (statusCode =? 502) || (statusCode =? 503) || (statusCode =? 504)
  end.

Definition success (o : Outcome) : bool :=
  match o with
  | NetworkError _ => false
  | Reply statusCode _ => (200 <=? statusCode) && (statusCode <? 300)
  end.

(** [k] transport attempts numbered from [attempt], every one but
    attempt 0 preceded by a pause of (attempt × 1 second). *)
Fixpoint schedule (req : Request) (attempt : Z) (k : nat) : Trace :=
  match k with
  | O => []
  | S k' =>
      ((if 0 <? attempt then [Slept (attempt * Second)] else [])
         ++ Sent req :: schedule req (attempt + 1) k')%list
  end.

(** What the call returns for the outcome of its last attempt. *)
Definition resultOf (o : Outcome) : option Response * option string :=
  match o with
  | NetworkError err => (None, Some err)
  | Reply statusCode body =>
      (Some (mkResponse statusCode body (retryable o)), None)
  end.

(** The largest retry count for which [attempt * time.Second] fits the
    int64 [time.Duration]. *)
Definition maxRetryCount : Z := 9223372036.

(** The policy for one call issued after trace [t0]: [k] attempts, at
    most R + 1, laid out as [schedule]; all but the last ended in a
    retryable outcome; a 2xx outcome can only be the last one; and the
    call returns what the last attempt came back with. *)
Definition retryPolicy (transport : Transport) (c : PrometheusClient)
    (req : Request) (t0 : Trace) : Prop :=
  exists k : nat,
    (1 <= k)%nat /\ Z.of_nat k <= RetryCount c + 1 /\
    (doRequestWithRetry transport c req t0).2
    = (t0 ++ schedule req 0 k)%list /\
    (forall i : nat, (i < k - 1)%nat ->
       retryable (transport (attempts t0 + i)%nat req) = true) /\
    (forall i : nat, (i < k)%nat ->
       success (transport (attempts t0 + i)%nat req) = true ->
       i = (k - 1)%nat) /\
    (doRequestWithRetry transport c req t0).1
    = resultOf (transport (attempts t0 + (k - 1))%nat req).

End RetrySpec.

(** ** Completeness of a collection run as the specification words it *)

Module CollectionSpec.
Import Collectors.

Definition hasRecord (records : list JobMetricData.t)
    (job metric : string) : Prop :=
  exists r, r ∈ records /\
    JobMetricData.Job r = job /\ JobMetricData.MetricName r = metric.

Definition hasError (errors : list ErrorRecord.t) (metric : string) : Prop :=
  exists e, e ∈ errors /\ ErrorRecord.MetricName e = metric.

(** A record or an error entry, never both and never neither. *)
Definition accountedFor (records : list JobMetricData.t)
    (errors : list ErrorRecord.t) (job metric : string) : Prop :=
  (hasRecord records job metric /\ ~ hasError errors metric) \/
  (~ hasRecord records job metric /\ hasError errors metric).

End CollectionSpec.

(** ** The record-file round trip as the specification words it *)

Module RecordFileSpec.
Import GoStrings.

Definition hasByte (c : ascii) (s : string) : bool :=
  existsb (Ascii.eqb c) (bytes s).

(** No white space at either end: [TrimSpace] has nothing to remove. *)
Definition trimmed (s : string) : bool :=
  match stripAny whiteSpace (bytes s),
        stripAny (map (@rev ascii) whiteSpace) (rev (bytes s)) with
  | None, None => true
  | _, _ => false
  end.

Definition isDigit (c : ascii) : bool :=
  match digitValue c with Some _ => true | None => false end.

(** A decimal integer: a non-empty string of digits, and its value. *)
Definition decimal (s : string) : bool :=
  negb (s =s "") && forallb isDigit (bytes s).

Definition decimalValue (s : string) : Z := default 0 (parseDigits s 0).

(** The tuple the round trip compares. *)
Definition key : Type := string * string * list string * Z.

Definition writtenKey (d : Collectors.JobMetricData.t) : key :=
  (Collectors.JobMetricData.Job d, Collectors.JobMetricData.MetricName d,
   Collectors.JobMetricData.Labels d,
   decimalValue (Collectors.JobMetricData.Cardinality d)).

Definition loadedKey (d : Loaders.JobMetricData.t) : key :=
  (Loaders.JobMetricData.Job d, Loaders.JobMetricData.MetricName d,
   Loaders.JobMetricData.Labels d, Loaders.JobMetricData.Cardinality d).

(** Parsing the files of [dir] yields the same set of tuples as
    [allData] holds. *)
Definition roundTrip (allData : list Collectors.JobMetricData.t)
    (dir : gmap string string) : Prop :=
  forall k : key,
    k ∈ map writtenKey allData <->
    exists filename,
      k ∈ map loadedKey (Loaders.LoadJobMetricReport dir filename).1.

(** The conditions the claim lists: no pipe in job, metric and label
    names; labels without commas and non-empty after trimming; a decimal
    cardinality. *)
Definition claimedLabel (label : string) : bool :=
  negb (hasByte "|" label) && negb (hasByte "," label)
  && negb (TrimSpace label =s "").

Definition claimedRecord (d : Collectors.JobMetricData.t) : bool :=
  negb (hasByte "|" (Collectors.JobMetricData.Job d))
  && negb (hasByte "|" (Collectors.JobMetricData.MetricName d))
  && forallb claimedLabel (Collectors.JobMetricData.Labels d)
  && decimal (Collectors.JobMetricData.Cardinality d).

(** The conditions under which a record survives the trip: names
    without pipe or newline and without white space at the ends, a job
    name that does not start a comment line, labels moreover without
    comma and non-empty, a decimal cardinality within int64, and a line
    that fits the scanner's buffer. *)
Definition plainName (s : string) : bool :=
  negb (hasByte "|" s) && negb (hasByte "010" s) && trimmed s.

Definition plainLabel (label : string) : bool :=
  plainName label && negb (hasByte "," label) && negb (label =s "").

Definition portableRecord (d : Collectors.JobMetricData.t) : bool :=
  plainName (Collectors.JobMetricData.Job d)
  && negb (HasPrefix (Collectors.JobMetricData.Job d) "#")
  && plainName (Collectors.JobMetricData.MetricName d)
  && forallb plainLabel (Collectors.JobMetricData.Labels d)
  && decimal (Collectors.JobMetricData.Cardinality d)
  && (decimalValue (Collectors.JobMetricData.Cardinality d) <=? maxInt64)
  && (strlen (Collectors.formatLine d) <=? MaxScanTokenSize).

(** No encoding in [encodings] contains the byte [c]. *)
Definition avoids (c : ascii) (encodings : list (list ascii)) : bool :=
  forallb (fun e => negb (existsb (Ascii.eqb c) e)) encodings.

(** No encoding in [encodings] is empty or starts with the byte [c]. *)
Definition headsAvoid (c : ascii) (encodings : list (list ascii)) : bool :=
  forallb (fun e => match e with
                    | [] => false
                    | x :: _ => negb (Ascii.eqb c x)
                    end) encodings.

(** The bytes a line can end in: a digit, the pipe, or the last letter
    of the header. *)
Definition plainEnd (c : ascii) : bool :=
  isDigit c || Ascii.eqb c "|" || Ascii.eqb c "Y".

(** [s] ends in a byte that satisfies [P]. *)
Definition endsIn (P : ascii -> bool) (s : string) : Prop :=
  exists front c, s = front ++ String c "" /\ P c = true.

(** A record's line without its newline, and the text of a file that
    holds the lines of [records]. *)
Definition lineText (d : Collectors.JobMetricData.t) : string :=
  Collectors.JobMetricData.Job d ++ "|"
  ++ Collectors.JobMetricData.MetricName d ++ "|"
  ++ Join (Collectors.JobMetricData.Labels d) "," ++ "|"
  ++ Collectors.JobMetricData.Cardinality d ++ "|"
  ++ Collectors.labelCardinalityStr d.

Definition headerText : string :=
  "JOB|METRIC_NAME|LABELS|CARDINALITY|LABEL_CARDINALITY".

Definition linesText (records : list Collectors.JobMetricData.t) : string :=
  foldr (fun d text => Collectors.formatLine d ++ text) "" records.

Definition fileText (records : list Collectors.JobMetricData.t) : string :=
  Collectors.header ++ linesText records.

(** The records of [allData] that belong to [job], in order. *)
Definition recordsOf (job : string)
    (allData : list Collectors.JobMetricData.t)
    : list Collectors.JobMetricData.t :=
  List.filter (fun d => Collectors.JobMetricData.Job d =s job) allData.

(** [job] occurs in [records]. *)
Definition seen (job : string) (records : list Collectors.JobMetricData.t)
    : bool :=
  existsb (fun d => Collectors.JobMetricData.Job d =s job) records.

(** The state of the writer after the records [done]: no job skipped,
    one open file per job seen, holding the header and that job's lines,
    and no other file. *)
Definition writerInvariant (st : Collectors.writerState)
    (done : list Collectors.JobMetricData.t) : Prop :=
  Collectors.skippedJobs st = ∅ /\
  (forall job,
      Collectors.jobFiles st !! job
      = if seen job done then Some (Collectors.fileName job) else None) /\
  (forall job,
      seen job done = true ->
      Collectors.files st !! Collectors.fileName job
      = Some (fileText (recordsOf job done))) /\
  (forall file,
      is_Some (Collectors.files st !! file) ->
      exists d, d ∈ done /\
                Collectors.fileName (Collectors.JobMetricData.Job d) = file).

(** Distinct jobs go to distinct files. *)
Definition distinctFiles (allData : list Collectors.JobMetricData.t) : Prop :=
  forall d1 d2,
    d1 ∈ allData -> d2 ∈ allData ->
    Collectors.fileName (Collectors.JobMetricData.Job d1)
    = Collectors.fileName (Collectors.JobMetricData.Job d2) ->
    Collectors.JobMetricData.Job d1 = Collectors.JobMetricData.Job d2.

Definition distinctFilesb (allData : list Collectors.JobMetricData.t)
    : bool :=
  forallb
    (fun d1 =>
       forallb
         (fun d2 =>
            implb
              (Collectors.fileName (Collectors.JobMetricData.Job d1)
               =s Collectors.fileName (Collectors.JobMetricData.Job d2))
              (Collectors.JobMetricData.Job d1
               =s Collectors.JobMetricData.Job d2))
         allData)
    allData.

(** Every file named by [allData] loads without error. *)
Definition loadsCleanly (allData : list Collectors.JobMetricData.t)
    (dir : gmap string string) : Prop :=
  Forall
    (fun d =>
       (Loaders.LoadJobMetricReport dir
          (Collectors.fileName (Collectors.JobMetricData.Job d))).2 = None)
    allData.

End RecordFileSpec.

(** ** Concrete inputs *)

Module Demo.

Definition asciiToLower (c : ascii) : ascii :=
  let n := nat_of_ascii c in
  if ((65 <=? n) && (n <=? 90))%nat then ascii_of_nat (n + 32) else c.

Fixpoint toLower (s : string) : string :=
  match s with
  | EmptyString => EmptyString
  | String c s' => String (asciiToLower c) (toLower s')
  end.

(** An instance of the library interface for running the engine on the
    inputs below: ASCII lower-casing, and a [regexp.Compile] that accepts
    no pattern (none of the inputs below carries a [matches] condition). *)
Definition plainLib : Lib := {|
  Regexp := Empty_set;
  regexp_Compile := fun _ => None;
  MatchString := fun regex _ => match regex with end;
  strings_ToLower := toLower
|}.

(** An instance whose [regexp.Compile] knows the one pattern of the
    specification's label example, [^[a-z]+$]: a non-empty string of
    lower-case ASCII letters. *)
Definition lowerLetter (c : ascii) : bool :=
  let n := nat_of_ascii c in ((97 <=? n) && (n <=? 122))%nat.

Definition lowerWord (s : string) : bool :=
  negb (s =s "") && forallb lowerLetter (list_ascii_of_string s).

Definition lowerWordLib : Lib := {|
  Regexp := unit;
  regexp_Compile := fun pattern =>
    if pattern =s "^[a-z]+$" then Some tt else None;
  MatchString := fun _ s => lowerWord s;
  strings_ToLower := toLower
|}.

(** The two rule results of the specification's scoring scenario. *)
Definition scenarioResults : list RuleResult.t :=
  [RuleResult.mk "PROM-MET-02" "Critical" 1 1 [] ∅ 80 100 40000 50000 [];
   RuleResult.mk "PROM-MET-03" "Important" 1 1 [] ∅ 95 100 0 0 []].

(** The rule and the records of [TestRuleEngine_EvaluateCardinalityRule]. *)
Definition cardinalityCheck : ValidatorConfig :=
  mkValidator "test_cardinality_check" "cardinality" "cardinality" "" ""
    [mkCondition "count" "lt" (VInt 10000)].

Definition cardinalityRule : RuleDefinition :=
  mkRule "TEST-MET-01" "Test cardinality rule" "Critical" [cardinalityCheck].

Definition cardinalityRows : list CardinalityData.t :=
  [CardinalityData.mk "http_requests_total" 1500;
   CardinalityData.mk "http_request_duration_seconds" 2500;
   CardinalityData.mk "memory_usage_bytes" 500;
   CardinalityData.mk "high_cardinality_metric" 15000].

(** A metric the backend lists for a job but counts no series for. *)
Definition idleRows : list CardinalityData.t :=
  [CardinalityData.mk "up" 0].

(** Two metrics whose series counts add up to 2^63. *)
Definition hugeRows : list CardinalityData.t :=
  [CardinalityData.mk "m1" (2 ^ 62); CardinalityData.mk "m2" (2 ^ 62)].

Definition onlyM1 : ValidatorConfig :=
  mkValidator "only_m1" "cardinality" "cardinality" "" ""
    [mkCondition "metric_name" "eq" (VString "m1")].

Definition onlyM1Rule : RuleDefinition :=
  mkRule "R-M1" "" "Critical" [onlyM1].

(** A condition on a field the cardinality view does not have. *)
Definition misspelled : ValidatorConfig :=
  mkValidator "series_limit" "cardinality" "cardinality" "" ""
    [mkCondition "series" "lt" (VInt 10000)].

Definition misspelledRule : RuleDefinition :=
  mkRule "R-TYPO" "" "Critical" [misspelled].

(** A rule on the label view only. *)
Definition labelLimit : ValidatorConfig :=
  mkValidator "label_limit" "label_count" "labels" "" ""
    [mkCondition "label_count" "lte" (VInt 10)].

Definition labelRule : RuleDefinition :=
  mkRule "PROM-MET-03" "" "Important" [labelLimit].

Definition labelRows : list LabelsData.t :=
  [LabelsData.mk "http_requests_total" ["method"; "status"]].

(** The double-quote character, and a quoted JSON string. *)
Definition dq : string := String "034"%char EmptyString.
Definition quoted (s : string) : string := dq ++ s ++ dq.

(** The documents of the client tests:
    an object with the one member [error], and the two-name catalog. *)
Definition errorDocument (msg : string) : string :=
  "{" ++ quoted "error" ++ ":" ++ quoted msg ++ "}".

Definition catalogDocument : string :=
  "{" ++ quoted "data" ++ ":[" ++ quoted "metric1" ++ ","
      ++ quoted "metric2" ++ "]}".

(** A backend that answers 502 twice and then 200, as in
    [TestPrometheusClient_RetryLogic]. *)
Definition flaky : Client.Transport :=
  fun n _ =>
    if (n <? 2)%nat
    then Client.Reply 502 (errorDocument "connection refused")
    else Client.Reply 200 catalogDocument.

(** A backend that answers every request with 429 and the error document
    of [TestPrometheusClient_ErrorHandling]. *)
Definition rateLimitBody : string := errorDocument "rate limit exceeded".

Definition rateLimited : Client.Transport :=
  fun _ _ => Client.Reply 429 rateLimitBody.

(** [encoding/json] on the bodies the two backends send: the error
    document decodes into every response struct (with the fields it does
    not mention left at their zero value). *)
Definition demoJson : Client.Json := {|
  Client.decodeData := fun body =>
    if body =s rateLimitBody then Some []
    else if body =s catalogDocument then Some ["metric1"; "metric2"]
    else None;
  Client.decodeError := fun body =>
    if body =s rateLimitBody then Some "rate limit exceeded"
    else if body =s errorDocument "connection refused"
    then Some "connection refused"
    else None;
  Client.decodeMetrics := fun body =>
    if body =s rateLimitBody then Some [] else None;
  Client.decodeMetricKeys := fun body =>
    if body =s rateLimitBody then Some [] else None;
  Client.decodeValues := fun body =>
    if body =s rateLimitBody then Some [] else None;
  Client.decodeLabelValues := fun body =>
    if body =s rateLimitBody then Some [] else None
|}.

Definition demoClient : Client.PrometheusClient :=
  Client.NewPrometheusClient "http://prometheus.example" "user:pass".

(** A backend with one metric exposed by two jobs; the cardinality query
    for the job [api] fails, everything else succeeds. *)
Definition partialBackend : Collectors.Backend := {|
  Collectors.GetAllMetricNames := fun _ => Ok ["http_requests_total"];
  Collectors.GetJobsForMetric := fun _ _ _ => Ok ["api"; "worker"];
  Collectors.GetCardinality := fun _ job _ _ =>
    if job =s "api"
    then Err "HTTP 500 - cardinality query - job: api - error: timeout"
    else Ok "1500";
  Collectors.GetLabels := fun _ _ _ => Ok ["method"; "status"];
  Collectors.GetLabelCardinality := fun _ _ _ _ => Ok ∅;
  Collectors.timeNow := 1762041600
|}.

Definition demoCollector : Collectors.Collector :=
  Collectors.mkCollector "" 5 3 50 false.

(** The record of the specification's file-format example, and one for
    a job whose name ends in a space. *)
Definition apiRecord : Collectors.JobMetricData.t :=
  Collectors.JobMetricData.mk "api-service" "http_requests_total"
    ["method"; "status"] "1500"
    (Some (<["method" := 12]> (<["status" := 5]> ∅))).

Definition upRecord : Collectors.JobMetricData.t :=
  Collectors.JobMetricData.mk "integrations/node" "up" [] "1" None.

Definition paddedRecord : Collectors.JobMetricData.t :=
  Collectors.JobMetricData.mk "batch " "up" ["instance"] "1" None.

End Demo.
(** ** What the exclusion list says, entry by entry *)

Module ExclusionSpec.
Import Exclusions.

Section WithLib.
Context `{lib : Lib}.

(** The pattern [NewRuleEngine] keeps for an entry. *)
Definition compiled (entry : ExclusionEntry) : option Regexp :=
  if JobNamePattern entry =s "" then None
  else regexp_Compile (JobNamePattern entry).

(** The entry's pattern, if it has one, is a valid expression. *)
Definition compiles (entry : ExclusionEntry) : bool :=
  (JobNamePattern entry =s "")
  || match regexp_Compile (JobNamePattern entry) with
     | Some _ => true
     | None => false
     end.

(** The entry names the job, or its pattern matches the job's name. *)
Definition appliesTo (entry : ExclusionEntry) (jobName : string) : bool :=
  (negb (Job entry =s "") && (Job entry =s jobName))
  || match compiled entry with
     | Some pattern => MatchString pattern jobName
     | None => false
     end.

Definition excludesJob (jobName : string) (entry : ExclusionEntry)
    : bool :=
  appliesTo entry jobName && (len (Metrics entry) =? 0).

Definition excludesMetric (jobName metricName : string)
    (entry : ExclusionEntry) : bool :=
  appliesTo entry jobName
  && ((len (Metrics entry) =? 0)
      || existsb (fun excludedMetric => excludedMetric =s metricName)
                 (Metrics entry)).

(** The engine [NewRuleEngine] builds from a decoded configuration. *)
Definition engineOf (config : RulesConfig) : RuleEngine :=
  mkEngine (Rules config) (ExclusionList config)
           (map compiled (ExclusionList config)).

(** The patterns of [e] from index [i] on are those of [rest]. *)
Definition aligned (e : RuleEngine) (i : nat) (rest : list ExclusionEntry)
    : Prop :=
  forall k x, rest !! k = Some x ->
              exclusionPatterns e !! (i + k)%nat = Some (compiled x).

(** A metric of the job is kept by the filter. *)
Definition kept (e : RuleEngine) (jobName metricName : string) : bool :=
  negb (existsb (excludesMetric jobName metricName) (exclusionList e)).

End WithLib.

End ExclusionSpec.

(** ** Concrete inputs for the exclusion list *)

Module ExclusionDemo.
Import Exclusions.

(** One job excluded by name, the metric [up] excluded for every job
    with a lower-case name, and an entry that names no job at all. *)
Definition config : RulesConfig :=
  mkConfig
    [mkExclusion "legacy-batch" "" [];
     mkExclusion "" "^[a-z]+$" ["up"];
     mkExclusion "" "" ["go_goroutines"]]
    [Demo.cardinalityRule].

Definition files : gmap string string :=
  <["rules_config.yaml" := "exclusion_list: ..."]> ∅.

Definition unmarshal (data : string) : result RulesConfig := Ok config.

(** The same configuration without its third entry. *)
Definition shortConfig : RulesConfig :=
  mkConfig
    [mkExclusion "legacy-batch" "" [];
     mkExclusion "" "^[a-z]+$" ["up"]]
    [Demo.cardinalityRule].

Definition unmarshalShort (data : string) : result RulesConfig :=
  Ok shortConfig.

Definition engine : RuleEngine (lib := Demo.lowerWordLib) :=
  ExclusionSpec.engineOf config.

Definition shortEngine : RuleEngine (lib := Demo.lowerWordLib) :=
  ExclusionSpec.engineOf shortConfig.

(** The records of a job named [api]. *)
Definition apiData : list Loaders.JobMetricData.t :=
  [Loaders.JobMetricData.mk "api" "up" ["instance"] 3 None;
   Loaders.JobMetricData.mk "api" "http_requests_total"
     ["method"; "status"] 1500 None;
   Loaders.JobMetricData.mk "api" "go_goroutines" [] 3 None].

End ExclusionDemo.

(** ** What a rule result reports about its validators *)

Module ReportSpec.
Import Engine.

Section WithLib.
Context `{lib : Lib}.

(** The metric names a validator returns as failed. *)
Definition failedOf (dataSources : gmap string DataSet)
    (validator : ValidatorConfig) : list string :=
  match evaluateValidatorWithStats validator dataSources with
  | Ok (_, _, failed, _, _) => failed
  | Err _ => []
  end.

(** The validator failed at least one metric. *)
Definition failing (dataSources : gmap string DataSet)
    (validator : ValidatorConfig) : bool :=
  0 <? len (failedOf dataSources validator).

(** The names of the validators that failed [metricName], in rule
    order, once for every row of that name they failed. *)
Definition blamed (dataSources : gmap string DataSet)
    (validators : list ValidatorConfig) (metricName : string)
    : list string :=
  flat_map
    (fun v => map (fun _ => Name v)
                  (List.filter (String.eqb metricName)
                               (failedOf dataSources v)))
    validators.

(** The statistics entry of a validator. *)
Definition statOf (dataSources : gmap string DataSet)
    (validator : ValidatorConfig) : ValidatorStat.t :=
  match evaluateValidatorWithStats validator dataSources with
  | Ok (passed, total, _, _, _) =>
      ValidatorStat.mk (Name validator) passed total
        (if 0 <? total
         then PrimFloat.div (float64_of_int passed) (float64_of_int total)
         else 0%float)
        (UITitle validator) (UIDescription validator)
  | Err _ =>
      ValidatorStat.mk (Name validator) 0 0 0%float
        (UITitle validator) (UIDescription validator)
  end.

(** The validator [v] declared with another type. *)
Definition withType (v : ValidatorConfig) (validatorType : string)
    : ValidatorConfig :=
  mkValidator (Name v) validatorType (DataSource v) (UITitle v)
              (UIDescription v) (Conditions v).

(** The validator types that are evaluated on label rows. *)
Definition labelsType (validatorType : string) : bool :=
  (validatorType =s "format") || (validatorType =s "labels")
  || (validatorType =s "label_count").

End WithLib.

End ReportSpec.

(** ** Concrete inputs for the report *)

Module ReportDemo.

(** A rule with a cardinality limit and a label limit. *)
Definition twoChecks : RuleDefinition :=
  mkRule "TEST-MET-02" "" "Important"
    [Demo.cardinalityCheck; Demo.labelLimit].

(** Rows in which one metric breaks both limits. *)
Definition rows : list CardinalityData.t :=
  [CardinalityData.mk "http_requests_total" 1500;
   CardinalityData.mk "high_cardinality_metric" 15000].

Definition labelRows : list LabelsData.t :=
  [LabelsData.mk "http_requests_total" ["method"; "status"];
   LabelsData.mk "high_cardinality_metric"
     ["a"; "b"; "c"; "d"; "e"; "f"; "g"; "h"; "i"; "j"; "k"]].

End ReportDemo.

(** ** Configuring a collector *)

Module SettingsSpec.
Import Collectors Settings.

(** A call of one of the collector's setters. *)
Inductive Call :=
| CallSetCollectLabelCardinality (enabled : bool)
| CallSetLabelCardinalityConcurrency (concurrency : Z)
| CallSetMetricsConcurrency (concurrency : Z)
| CallSetJobsConcurrency (concurrency : Z).

Definition call (c : Collector) (setter : Call) : Collector :=
  match setter with
  | CallSetCollectLabelCardinality enabled =>
      SetCollectLabelCardinality c enabled
  | CallSetLabelCardinalityConcurrency concurrency =>
      SetLabelCardinalityConcurrency c concurrency
  | CallSetMetricsConcurrency concurrency =>
      SetMetricsConcurrency c concurrency
  | CallSetJobsConcurrency concurrency => SetJobsConcurrency c concurrency
  end.

(** Every semaphore of the collector has room for a goroutine. *)
Definition widthsPositive (c : Collector) : Prop :=
  0 < maxConcurrentMetrics c /\
  0 < maxConcurrentJobs c /\
  0 < maxConcurrentLabelCardinality c.

(** The bytes [sanitizeJobName] leaves alone. *)
Definition safeName (s : string) : bool :=
  forallb (fun c => negb (unsafeByte c)) (GoStrings.bytes s).

End SettingsSpec.

(** ** What a collection run keeps of each query *)

Module AccountingSpec.
Import Collectors.

Section WithBackend.
Context `{backend : Backend}.

(** What phase 1 keeps of a job: nothing unless both queries succeed. *)
Definition basicOf (c : Collector) (metricName : string) (now : Z)
    (job : string) : option basicMetricData.t :=
  match GetCardinality metricName job (queryFilters c) now,
        GetLabels metricName job (queryFilters c) with
  | Ok cardinality, Ok labels =>
      Some (basicMetricData.mk job cardinality labels)
  | _, _ => None
  end.

(** The per-label counts phase 2 attaches. *)
Definition labelCardinalityOf (c : Collector) (metricName : string)
    (d : basicMetricData.t) : option (gmap string Z) :=
  if collectLabelCardinality c && (0 <? len (basicMetricData.labels d))
  then match GetLabelCardinality metricName (basicMetricData.job d)
               (basicMetricData.labels d) (queryFilters c) with
       | Ok cardinalityMap => Some cardinalityMap
       | Err _ => None
       end
  else None.

Definition recordOf (c : Collector) (metricName : string)
    (d : basicMetricData.t) : JobMetricData.t :=
  JobMetricData.mk (basicMetricData.job d) metricName
    (basicMetricData.labels d) (basicMetricData.cardinality d)
    (labelCardinalityOf c metricName d).

(** The records of a metric whose jobs are [jobNames]. *)
Definition recordsOfMetric (c : Collector) (metricName : string) (now : Z)
    (jobNames : list string) : list JobMetricData.t :=
  map (recordOf c metricName) (omap (basicOf c metricName now) jobNames).

(** The records and the error entry a metric of the catalog adds. *)
Definition dataOfMetric (c : Collector) (now : Z) (metricName : string)
    : list JobMetricData.t :=
  match GetJobsForMetric metricName (queryFilters c) now with
  | Ok jobNames => recordsOfMetric c metricName now jobNames
  | Err _ => []
  end.

Definition errorOfMetric (c : Collector) (now : Z) (metricName : string)
    : option ErrorRecord.t :=
  match GetJobsForMetric metricName (queryFilters c) now with
  | Ok _ => None
  | Err err => Some (ErrorRecord.mk metricName "fetch_job_data" err timeNow)
  end.

End WithBackend.

(** A record without its per-label counts. *)
Definition core (d : JobMetricData.t) : string * string * list string * string :=
  (JobMetricData.Job d, JobMetricData.MetricName d, JobMetricData.Labels d,
   JobMetricData.Cardinality d).

End AccountingSpec.

(** ** What a query costs the backend *)

Module QuerySpec.
Import Client RetrySpec.

(** The trace [t'] extends [t0] by one retried call for [req], then at
    most the pause that follows a 429 answer. *)
Definition oneCall (c : PrometheusClient) (req : Request) (t0 t' : Trace)
    : Prop :=
  exists (k : nat) (pause : Trace),
    (1 <= k)%nat /\ Z.of_nat k <= RetryCount c + 1 /\
    (pause = [] \/ pause = [Slept (2 * Second)]) /\
    t' = (t0 ++ schedule req 0 k ++ pause)%list.



(** A retry count for which no pause overflows. *)
Definition usableRetryCount (c : PrometheusClient) : Prop :=
  0 <= RetryCount c <= maxRetryCount.

End QuerySpec.

(** ** Concrete backends for the queries *)

Module QueryDemo.
Import Client.


(** A backend with one series of the metric, and its decoder. *)
Definition seriesBody : string := "{data:{result:[{metric:{...}}]}}".

Definition oneSeries : Transport := fun _ _ => Reply 200 seriesBody.

Definition seriesJson : Json := {|
  decodeData := fun _ => None;
  decodeError := fun _ => None;
  decodeMetrics := fun _ => None;
  decodeMetricKeys := fun body =>
    if body =s seriesBody then Some [["__name__"; "job"; "method"]]
    else None;
  decodeValues := fun _ => None;
  decodeLabelValues := fun _ => None
|}.

End QueryDemo.

(** ** The data sources [EvaluateRules] builds from files *)

Module FileEvaluationSpec.
Import Engine Reports.

Definition cardinalitySource (dir dataFiles : gmap string string)
    (dataSources : gmap string DataSet) : gmap string DataSet :=
  match dataFiles !! "cardinality" with
  | Some file =>
      <["cardinality" := CardinalityRows (LoadCardinalityReport dir file).1]>
        dataSources
  | None => dataSources
  end.

Definition labelsSource (dir dataFiles : gmap string string)
    (dataSources : gmap string DataSet) : gmap string DataSet :=
  match dataFiles !! "labels" with
  | Some file =>
      <["labels" := LabelsRows (LoadLabelsReport dir file).1]> dataSources
  | None => dataSources
  end.

(** The sources for the files named under the keys [cardinality] and
    [labels]; no other key of [dataFiles] is looked at. *)
Definition sourcesOf (dir dataFiles : gmap string string)
    : gmap string DataSet :=
  labelsSource dir dataFiles (cardinalitySource dir dataFiles ∅).

Definition loads {A} (report : list A * option string) : bool :=
  match report.2 with None => true | Some _ => false end.

(** The files named under the two keys load without error. *)
Definition loadable (dir dataFiles : gmap string string) : bool :=
  match dataFiles !! "cardinality" with
  | Some file => loads (LoadCardinalityReport dir file)
  | None => true
  end
  && match dataFiles !! "labels" with
     | Some file => loads (LoadLabelsReport dir file)
     | None => true
     end.

End FileEvaluationSpec.

(** ** Concrete report files *)

Module FileDemo.

(** Go ranges over the map in the order of [map_to_list]. *)
Instance listOrder : MapRange := {|
  rangeOrder := fun _ V m => map_to_list m;
  rangeOrder_perm := fun _ V m => Permutation_refl (map_to_list m)
|}.

Definition nl : string := GoStrings.newline.

(** The files of [TestLoadCardinalityReport] and [TestLoadLabelsReport]. *)
Definition cardinalityText : string :=
  "http_requests_total|1500" ++ nl ++
  "http_request_duration_seconds|2500" ++ nl ++
  "memory_usage_bytes|500".

Definition labelsText : string :=
  Demo.quoted "http_requests_total" ++ "|"
    ++ Demo.quoted "method,status,path" ++ nl ++
  Demo.quoted "http_request_duration_seconds" ++ "|"
    ++ Demo.quoted "method,status" ++ nl ++
  Demo.quoted "memory_usage_bytes" ++ "|" ++ Demo.quoted "type".

Definition dir : gmap string string :=
  <["cardinality.txt" := cardinalityText]>
    (<["labels.txt" := labelsText]> ∅).

Definition dataFiles : gmap string string :=
  <["cardinality" := "cardinality.txt"]> (<["labels" := "labels.txt"]> ∅).

End FileDemo.

(** ** What the evaluation of a job file reports *)

Module EvaluateSpec.
Import Exclusions ExclusionSpec.

Section WithLib.
Context `{lib : Lib}.

(** The records of a job that no entry of the exclusion list covers. *)
Definition remaining (e : RuleEngine) (jobName : string)
    (jobData : list Loaders.JobMetricData.t)
    : list Loaders.JobMetricData.t :=
  List.filter
    (fun jm => kept e jobName (Loaders.JobMetricData.MetricName jm))
    jobData.

(** Some rule result lists the metric as failed. *)
Definition failedSomewhere (results : list RuleResult.t)
    (metricName : string) : Prop :=
  exists result,
    result ∈ results /\
    is_Some (RuleResult.FailedMetrics result !! metricName).

End WithLib.

(** Σ of the cardinalities, as a mathematical integer. *)
Definition sumCardinality (jobData : list Loaders.JobMetricData.t) : Z :=
  foldr (fun jm acc => Loaders.JobMetricData.Cardinality jm + acc) 0 jobData.

End EvaluateSpec.

(** ** A job file *)

Module EvaluateDemo.

Definition apiText : string :=
  "JOB|METRIC_NAME|LABELS|CARDINALITY|LABEL_CARDINALITY" ++ FileDemo.nl ++
  "api|up|instance|3|" ++ FileDemo.nl ++
  "api|http_requests_total|method,status|1500|" ++ FileDemo.nl ++
  "api|high_cardinality_metric|user|15000|" ++ FileDemo.nl.

Definition legacyText : string :=
  "JOB|METRIC_NAME|LABELS|CARDINALITY|LABEL_CARDINALITY" ++ FileDemo.nl ++
  "legacy-batch|up|instance|3|" ++ FileDemo.nl.

Definition dir : gmap string string :=
  <["api.txt" := apiText]> (<["legacy-batch.txt" := legacyText]> ∅).

End EvaluateDemo.

(** ** Specification-side definitions: what the per-job files hold *)

Module WriterSpec.
Import GoStrings RecordFileSpec.

Definition int64 (z : Z) : bool := (Go.minInt64 <=? z) && (z <=? Go.maxInt64).

(** The per-label counts that reach the fifth column: those of the
    record's own labels.  A column without any count is read back as no
    map at all. *)
Definition countsRead (d : Collectors.JobMetricData.t)
    : option (gmap string Z) :=
  match Collectors.JobMetricData.LabelCardinality d with
  | None => None
  | Some counts =>
      let kept :=
        filter (fun kv : string * Z =>
                  kv.1 ∈ Collectors.JobMetricData.Labels d) counts in
      if decide (kept = ∅) then None else Some kept
  end.

(** The record a line is read back as. *)
Definition writtenRecord (d : Collectors.JobMetricData.t)
    : Loaders.JobMetricData.t :=
  Loaders.JobMetricData.mk
    (Collectors.JobMetricData.Job d)
    (Collectors.JobMetricData.MetricName d)
    (Collectors.JobMetricData.Labels d)
    (decimalValue (Collectors.JobMetricData.Cardinality d))
    (countsRead d).

(** Labels without a colon, and counts of labels within int64. *)
Definition portableCounts (d : Collectors.JobMetricData.t) : bool :=
  forallb (fun l => negb (hasByte ":" l))
          (Collectors.JobMetricData.Labels d)
  && match Collectors.JobMetricData.LabelCardinality d with
     | None => true
     | Some counts =>
         forallb (fun l => match counts !! l with
                           | Some c => int64 c
                           | None => true
                           end)
                 (Collectors.JobMetricData.Labels d)
     end.

(** The labels that have a count, with it, in the order of the labels. *)
Definition countedLabels (counts : gmap string Z) (labels : list string)
    : list (string * Z) :=
  omap (fun l => (fun c => (l, c)) <$> counts !! l) labels.

Definition countText (kv : string * Z) : string :=
  kv.1 ++ ":" ++ Go.itoa kv.2.

(** A label that can stand in the fifth column, with its count. *)
Definition plainCount (kv : string * Z) : Prop :=
  hasByte "|" kv.1 = false /\ hasByte "," kv.1 = false /\
  hasByte ":" kv.1 = false /\ trimmed kv.1 = true /\ kv.1 <> "" /\
  int64 kv.2 = true.

(** The value of a decimal numeral read from its most significant
    digit, continuing from [acc]. *)
Fixpoint uintValue (d : Decimal.uint) (acc : Z) : Z :=
  match d with
  | Decimal.Nil => acc
  | Decimal.D0 d => uintValue d (acc * 10)
  | Decimal.D1 d => uintValue d (acc * 10 + 1)
  | Decimal.D2 d => uintValue d (acc * 10 + 2)
  | Decimal.D3 d => uintValue d (acc * 10 + 3)
  | Decimal.D4 d => uintValue d (acc * 10 + 4)
  | Decimal.D5 d => uintValue d (acc * 10 + 5)
  | Decimal.D6 d => uintValue d (acc * 10 + 6)
  | Decimal.D7 d => uintValue d (acc * 10 + 7)
  | Decimal.D8 d => uintValue d (acc * 10 + 8)
  | Decimal.D9 d => uintValue d (acc * 10 + 9)
  end.

(** The state of the writer after the records [done], when some files
    cannot be created: the jobs skipped are those seen whose file could
    not be created, every other job seen has its file, with the header
    and that job's lines, and there is no other file. *)
Definition skippingInvariant (canCreate : string -> bool)
    (st : Collectors.writerState)
    (done : list Collectors.JobMetricData.t) : Prop :=
  (forall job,
      job ∈ Collectors.skippedJobs st <->
      seen job done = true /\ canCreate (Collectors.fileName job) = false) /\
  (forall job,
      Collectors.jobFiles st !! job
      = if seen job done && canCreate (Collectors.fileName job)
        then Some (Collectors.fileName job) else None) /\
  (forall job,
      seen job done = true ->
      canCreate (Collectors.fileName job) = true ->
      Collectors.files st !! Collectors.fileName job
      = Some (fileText (recordsOf job done))) /\
  (forall file,
      is_Some (Collectors.files st !! file) ->
      canCreate file = true /\
      exists d, d ∈ done /\
                Collectors.fileName (Collectors.JobMetricData.Job d) = file).

(** What [WritePerJobFiles] leaves in the directory. *)
Definition written (canCreate : string -> bool)
    (allData : list Collectors.JobMetricData.t)
    (dir : gmap string string) : Prop :=
  (forall d,
      d ∈ allData ->
      dir !! Collectors.fileName (Collectors.JobMetricData.Job d)
      = if canCreate (Collectors.fileName (Collectors.JobMetricData.Job d))
        then Some (fileText
                     (recordsOf (Collectors.JobMetricData.Job d) allData))
        else None) /\
  (forall file,
      is_Some (dir !! file) ->
      exists d, d ∈ allData /\
                Collectors.fileName (Collectors.JobMetricData.Job d) = file).

(** Every record of [allData] whose file could be created is read back
    from the file of its job, in the order written. *)
Definition readBack (canCreate : string -> bool)
    (allData : list Collectors.JobMetricData.t)
    (dir : gmap string string) : Prop :=
  forall d,
    d ∈ allData ->
    canCreate (Collectors.fileName (Collectors.JobMetricData.Job d)) = true ->
    Loaders.LoadJobMetricReport dir
      (Collectors.fileName (Collectors.JobMetricData.Job d))
    = (map writtenRecord
         (recordsOf (Collectors.JobMetricData.Job d) allData), None).

End WriterSpec.

(** ** Records with per-label counts *)

Module WriterDemo.

Definition queueRecord : Collectors.JobMetricData.t :=
  Collectors.JobMetricData.mk "api-service" "queue_depth"
    ["queue"] "7" (Some (<["queue" := 3]> (<["shard" := 40]> ∅))).

Definition batchRecord : Collectors.JobMetricData.t :=
  Collectors.JobMetricData.mk "batch/nightly" "up" ["instance"] "1" None.

Definition allData : list Collectors.JobMetricData.t :=
  [Demo.apiRecord; batchRecord; queueRecord; Demo.upRecord].

(** The directory refuses the file of the batch job. *)
Definition canCreate (file : string) : bool :=
  negb (file =s "batch_nightly.txt").

End WriterDemo.

(** ** Specification-side definitions: what the loaders return *)

Module LoaderSpec.
Import WriterSpec.

Definition noEmptyLabel (labels : list string) : Prop :=
  Forall (fun l => l <> "") labels.

(** A record of a per-job file: numbers within int64, no empty label. *)
Definition wellFormed (r : Loaders.JobMetricData.t) : Prop :=
  int64 (Loaders.JobMetricData.Cardinality r) = true /\
  noEmptyLabel (Loaders.JobMetricData.Labels r) /\
  forall counts,
    Loaders.JobMetricData.LabelCardinality r = Some counts ->
    map_Forall (fun _ c => int64 c = true) counts.

End LoaderSpec.
(** ** Properties of the score calculator *)

Module ScoreFacts.
Import Engine.

Lemma SFmul_comm prec emax (x y : spec_float) :
  SFmul prec emax x y = SFmul prec emax y x.
Proof.
  destruct x as [sx|sx| |sx mx ex], y as [sy|sy| |sy my ey]; simpl;
    try reflexivity; try (f_equal; apply xorb_comm).
  rewrite (xorb_comm sy sx), (Pos.mul_comm my mx), (Z.add_comm ey ex).
  reflexivity.
Qed.

(** IEEE multiplication is commutative, bit for bit. *)
Lemma float_mul_comm (x y : float) : PrimFloat.mul x y = PrimFloat.mul y x.
Proof.
  rewrite <- (SF2Prim_Prim2SF (PrimFloat.mul x y)).
  rewrite <- (SF2Prim_Prim2SF (PrimFloat.mul y x)).
  rewrite !mul_spec. unfold SF64mul. now rewrite SFmul_comm.
Qed.

(** The map literal and the four-level weight table agree on every key. *)
Lemma weightOf_weight (impact : string) :
  weightOf impact = ScoreSpec.weight impact.
Proof.
  unfold weightOf, impactWeights, ScoreSpec.weight.
  destruct (String.eqb_spec impact "Critical") as [->|HC]; [reflexivity|].
  destruct (String.eqb_spec impact "Important") as [->|HI]; [reflexivity|].
  destruct (String.eqb_spec impact "Normal") as [->|HN]; [reflexivity|].
  destruct (String.eqb_spec impact "Low") as [->|HL]; [reflexivity|].
  rewrite !lookup_insert_ne by congruence.
  now rewrite lookup_empty.
Qed.

Lemma weights_table :
  weightOf "Critical" = 40%float /\ weightOf "Important" = 30%float /\
  weightOf "Normal" = 20%float /\ weightOf "Low" = 10%float.
Proof. repeat split; reflexivity. Qed.

(** The loop of [CalculateInstrumentationScore] keeps two running sums
    that never interact: it can be read as two separate sums. *)
Lemma score_loop_split (results : list RuleResult.t) (n0 d0 : float) :
  fold_left
    (fun '(numerator, denominator) result =>
       let weight := weightOf (RuleResult.Impact result) in
       if 0 <? RuleResult.TotalCardinality result then
         (PrimFloat.add numerator
            (PrimFloat.mul
               (float64_of_int (RuleResult.PassedCardinality result)) weight),
          PrimFloat.add denominator
            (PrimFloat.mul
               (float64_of_int (RuleResult.TotalCardinality result)) weight))
       else
         (PrimFloat.add numerator
            (PrimFloat.mul
               (float64_of_int (RuleResult.PassedMetrics result)) weight),
          PrimFloat.add denominator
            (PrimFloat.mul
               (float64_of_int (RuleResult.TotalMetrics result)) weight)))
    results (n0, d0)
  = (fold_left PrimFloat.add (map ScoreSpec.numerator results) n0,
     fold_left PrimFloat.add (map ScoreSpec.denominator results) d0).
Proof.
  revert n0 d0.
  induction results as [|r rs IH]; intros n0 d0; [reflexivity|].
  cbn [fold_left map]. unfold ScoreSpec.numerator at 2, ScoreSpec.denominator at 2.
  rewrite <- weightOf_weight.
  destruct (0 <? RuleResult.TotalCardinality r); cbn zeta; apply IH.
Qed.

(** C1: on every sequence of rule results the score calculator returns
    the reference formula: a rule contributes its cardinality pair times
    its weight when totalCardinality > 0 and its metric-count pair times
    its weight otherwise, with weights Critical=40, Important=30,
    Normal=20, Low=10; the score is 100 × (Σ numerators / Σ denominators)
    and exactly 0 when the denominator sum is 0. *)
Theorem CalculateInstrumentationScore_formula (results : list RuleResult.t) :
  CalculateInstrumentationScore results = ScoreSpec.score results.
Proof.
  unfold CalculateInstrumentationScore, ScoreSpec.score, ScoreSpec.sum.
  rewrite score_loop_split.
  destruct (feq _ _); [reflexivity|apply float_mul_comm].
Qed.

(** The scenario of the specification: 40000 of 50000 series pass a
    Critical rule and 95 of 100 metrics pass an Important one; the
    score is the binary64 number nearest to 80.022466300549183. *)
Example scenario_score :
  CalculateInstrumentationScore Demo.scenarioResults
  = 0x1.40170167e87bcp+6%float /\
  CalculateInstrumentationScore [] = 0%float.
Proof. split; vm_compute; reflexivity. Qed.

End ScoreFacts.
(** ** Properties of the label-set conditions *)

Module LabelsFacts.
Import Engine LabelsSpec.

Lemma HasPrefix_spec (s prefix : string) :
  GoStrings.HasPrefix s prefix = true <-> exists rest, s = prefix ++ rest.
Proof.
  revert s. induction prefix as [|p prefix IH]; intros s; simpl.
  - split; [intros _; now exists s|reflexivity].
  - destruct s as [|c s].
    + split; [discriminate|intros [rest Hrest]; discriminate].
    + rewrite andb_true_iff, IH. split.
      * intros [Hc [rest ->]]. apply Ascii.eqb_eq in Hc as ->. now exists rest.
      * intros [rest Hrest]. injection Hrest as -> ->.
        split; [apply Ascii.eqb_refl|now exists rest].
Qed.

(** [strings.Contains] decides the substring relation. *)
Lemma Contains_spec (s substr : string) :
  GoStrings.Contains s substr = true <->
  exists before after, s = before ++ substr ++ after.
Proof.
  induction s as [|c s IH]; simpl; rewrite orb_true_iff, HasPrefix_spec.
  - split.
    + intros [[rest Hrest]|Hf]; [|discriminate]. now exists "", rest.
    + intros [[|b before] [after Hs]]; [left; now exists after|discriminate].
  - rewrite IH. split.
    + intros [[rest Hrest]|[before [after ->]]].
      * now exists "", rest.
      * now exists (String c before), after.
    + intros [[|b before] [after Hs]].
      * left. now exists after.
      * right. injection Hs as -> ->. now exists before, after.
Qed.

Section WithLib.
Context `{lib : Lib}.

Lemma noLabelContains_spec (labels : list string) (value : string) :
  noLabelContains labels value = true <->
  forall label, label ∈ labels -> ~ contains_ci label value.
Proof.
  induction labels as [|l labels IH]; simpl.
  - split; [intros _ label Hin; inversion Hin|reflexivity].
  - destruct (GoStrings.Contains _ _) eqn:Hc.
    + split; [discriminate|]. intros Hall. exfalso.
      apply (Hall l); [left|]. now apply Contains_spec.
    + rewrite IH. split.
      * intros Hall label Hin. apply elem_of_cons in Hin as [->|Hin].
        -- intros Hci. apply Contains_spec in Hci. congruence.
        -- now apply Hall.
      * intros Hall label Hin. apply Hall. now right.
Qed.

Lemma someLabelContains_spec (labels : list string) (value : string) :
  someLabelContains labels value = true <->
  exists label, label ∈ labels /\ contains_ci label value.
Proof.
  induction labels as [|l labels IH]; simpl.
  - split; [discriminate|]. intros [label [Hin _]]. inversion Hin.
  - destruct (GoStrings.Contains _ _) eqn:Hc.
    + split; [intros _|reflexivity].
      exists l. split; [left|now apply Contains_spec].
    + rewrite IH. split.
      * intros [label [Hin Hci]]. exists label. split; [now right|done].
      * intros [label [Hin Hci]].
        apply elem_of_cons in Hin as [->|Hin]; [|now exists label].
        apply Contains_spec in Hci. congruence.
Qed.

Lemma compareStrings_matches (label value : string) :
  compareStrings label "matches" (VString value) = true <->
  matches_regex label value.
Proof.
  unfold compareStrings, matches_regex. simpl.
  destruct (regexp_Compile value) as [regex|].
  - split; [intros Hm; now exists regex|].
    intros [regex' [Heq Hm]]. now injection Heq as ->.
  - split; [discriminate|]. intros [regex [Heq _]]. discriminate.
Qed.

Lemma allLabelsCompare_matches (labels : list string) (field value : string) :
  allLabelsCompare labels (mkCondition field "matches" (VString value)) = true
  <-> forall label, label ∈ labels -> matches_regex label value.
Proof.
  induction labels as [|l labels IH]; cbn [allLabelsCompare Operator CValue].
  - split; [intros _ label Hin; inversion Hin|reflexivity].
  - destruct (compareStrings l "matches" (VString value)) eqn:Hc; cbn [negb].
    + rewrite IH. split.
      * intros Hall label Hin. apply elem_of_cons in Hin as [->|Hin].
        -- now apply compareStrings_matches.
        -- now apply Hall.
      * intros Hall label Hin. apply Hall. now right.
    + split; [discriminate|]. intros Hall.
      assert (Hl : matches_regex l value) by (apply Hall; left).
      apply compareStrings_matches in Hl. congruence.
Qed.

(** C2: on every label set, a [labels] condition with a string value
    holds, for [not_contains], iff no label contains the value as a
    case-insensitive substring; for [contains], iff at least one label
    does; for [matches], iff every label matches the value compiled as
    a regular expression. *)
Theorem evaluateLabelsField_semantics
    (labels : list string) (field value : string) :
  (evaluateLabelsField labels
     (mkCondition field "not_contains" (VString value)) = true
   <-> forall label, label ∈ labels -> ~ contains_ci label value)
  /\
  (evaluateLabelsField labels
     (mkCondition field "contains" (VString value)) = true
   <-> exists label, label ∈ labels /\ contains_ci label value)
  /\
  (evaluateLabelsField labels
     (mkCondition field "matches" (VString value)) = true
   <-> forall label, label ∈ labels -> matches_regex label value).
Proof.
  unfold evaluateLabelsField. cbn [Operator CValue String.eqb Ascii.eqb].
  split; [apply noLabelContains_spec|].
  split; [apply someLabelContains_spec|].
  change (allLabelsCompare labels
            (mkCondition field "matches" (VString value)) = true
          <-> forall label, label ∈ labels -> matches_regex label value).
  apply allLabelsCompare_matches.
Qed.

End WithLib.

(** The label sets of the specification's example. *)
Example label_set_asymmetry :
  evaluateLabelsField (lib := Demo.lowerWordLib) ["method"; "status"]
    (mkCondition "labels" "matches" (VString "^[a-z]+$")) = true /\
  evaluateLabelsField (lib := Demo.lowerWordLib) ["method"; "USER"]
    (mkCondition "labels" "matches" (VString "^[a-z]+$")) = false /\
  evaluateLabelsField (lib := Demo.lowerWordLib) ["method"; "USER"]
    (mkCondition "labels" "contains" (VString "meth")) = true /\
  evaluateLabelsField (lib := Demo.lowerWordLib) ["method"; "USER"]
    (mkCondition "labels" "not_contains" (VString "user")) = false.
Proof. repeat split; vm_compute; reflexivity. Qed.

End LabelsFacts.
(** ** Properties of rule evaluation *)

Module EngineFacts.
Import Engine EngineSpec.

(** *** int64 arithmetic *)

Lemma wrap64_range (z : Z) : minInt64 <= wrap64 z <= maxInt64.
Proof.
  unfold wrap64, minInt64, maxInt64.
  pose proof (Z.mod_pos_bound (z + 2 ^ 63) (2 ^ 64) ltac:(lia)). lia.
Qed.

Lemma wrap64_small (z : Z) : minInt64 <= z <= maxInt64 -> wrap64 z = z.
Proof.
  unfold wrap64, minInt64, maxInt64. intros Hz.
  rewrite Z.mod_small by lia. lia.
Qed.

Lemma wrap64_add_l (a b : Z) : wrap64 (wrap64 a + b) = wrap64 (a + b).
Proof.
  unfold wrap64.
  replace ((a + 2 ^ 63) mod 2 ^ 64 - 2 ^ 63 + b + 2 ^ 63)
    with ((a + 2 ^ 63) mod 2 ^ 64 + b) by lia.
  rewrite Zplus_mod_idemp_l. f_equal. f_equal. lia.
Qed.

Lemma wrap64_add_r (a b : Z) : wrap64 (a + wrap64 b) = wrap64 (a + b).
Proof. rewrite (Z.add_comm a), wrap64_add_l. f_equal. lia. Qed.

Lemma wrap64_idem (z : Z) : wrap64 (wrap64 z) = wrap64 z.
Proof. apply wrap64_small, wrap64_range. Qed.

(** *** What the two metric loops compute *)

Lemma sumCounts_cons (m : CardinalityData.t) (rows : list CardinalityData.t) :
  sumCounts (m :: rows) = CardinalityData.Count m + sumCounts rows.
Proof. reflexivity. Qed.

Lemma countPassed_bounds {T} (ok : T -> bool) (data : list T) :
  0 <= countPassed ok data <= len data.
Proof.
  unfold countPassed, len. pose proof (List.filter_length_le ok data). lia.
Qed.

Lemma countPassed_cons {T} (ok : T -> bool) (m : T) (data : list T) :
  countPassed ok (m :: data) =
  (if ok m then 1 else 0) + countPassed ok data.
Proof.
  unfold countPassed, len. simpl. destruct (ok m); simpl length; lia.
Qed.

Lemma sumCounts_filter_bounds (ok : CardinalityData.t -> bool)
    (rows : list CardinalityData.t) :
  Forall (fun m => 0 <= CardinalityData.Count m) rows ->
  0 <= sumCounts (List.filter ok rows) <= sumCounts rows.
Proof.
  induction 1 as [|m rows Hm _ IH]; simpl; [lia|].
  destruct (ok m); simpl; lia.
Qed.

Section WithLib.
Context `{lib : Lib}.

Lemma evaluateMetrics_loop {T} `{MetricRow T} (validator : ValidatorConfig)
    (evaluator : MetricEvaluator T) (data : list T)
    (passed : Z) (failed : list string) :
  let ok m := evaluator m (Conditions validator) (VType validator) in
  fold_left (evaluateMetrics_step validator evaluator) data
            (wrap64 passed, failed)
  = (wrap64 (passed + countPassed ok data),
     (failed ++ failedNames ok metricNameOf data)%list).
Proof.
  intros ok. revert passed failed.
  induction data as [|m data IH]; intros passed failed.
  - cbn. rewrite Z.add_0_r, app_nil_r. reflexivity.
  - cbn [fold_left]. unfold evaluateMetrics_step at 2.
    rewrite countPassed_cons. unfold failedNames. cbn [List.filter].
    fold (ok m). destruct (ok m); cbn [negb map].
    + unfold add64. rewrite wrap64_add_l, IH. f_equal. f_equal. lia.
    + rewrite IH. unfold failedNames.
      rewrite <- app_assoc. cbn [app]. repeat (f_equal; try lia).
Qed.

Lemma evaluateMetrics_eq {T} `{MetricRow T} (data : list T)
    (validator : ValidatorConfig) (evaluator : MetricEvaluator T) :
  let ok m := evaluator m (Conditions validator) (VType validator) in
  evaluateMetrics data validator evaluator
  = Ok (wrap64 (countPassed ok data), len data,
        failedNames ok metricNameOf data).
Proof.
  intros ok. unfold evaluateMetrics.
  change (0, @nil string) with (wrap64 0, @nil string).
  rewrite evaluateMetrics_loop. reflexivity.
Qed.

Lemma evaluateMetricsWithCardinality_loop (validator : ValidatorConfig)
    (evaluator : MetricEvaluator CardinalityData.t)
    (data : list CardinalityData.t)
    (passed : Z) (failed : list string) (passedCard totalCard : Z) :
  let ok m := evaluator m (Conditions validator) (VType validator) in
  fold_left (evaluateMetricsWithCardinality_step validator evaluator) data
            (wrap64 passed, failed, wrap64 passedCard, wrap64 totalCard)
  = (wrap64 (passed + countPassed ok data),
     (failed ++ failedNames ok CardinalityData.MetricName data)%list,
     wrap64 (passedCard + sumCounts (List.filter ok data)),
     wrap64 (totalCard + sumCounts data)).
Proof.
  intros ok. revert passed failed passedCard totalCard.
  induction data as [|m data IH]; intros passed failed passedCard totalCard.
  - cbn. rewrite !Z.add_0_r, app_nil_r. reflexivity.
  - cbn [fold_left]. unfold evaluateMetricsWithCardinality_step at 2.
    rewrite countPassed_cons, sumCounts_cons.
    unfold failedNames. cbn [List.filter]. fold (ok m).
    destruct (ok m); cbn [negb map]; unfold add64;
      rewrite ?wrap64_add_l, IH, ?sumCounts_cons; unfold failedNames;
      rewrite <- ?app_assoc, ?Z.add_assoc, ?Z.add_0_r; reflexivity.
Qed.

Lemma evaluateMetricsWithCardinality_eq (data : list CardinalityData.t)
    (validator : ValidatorConfig)
    (evaluator : MetricEvaluator CardinalityData.t) :
  let ok m := evaluator m (Conditions validator) (VType validator) in
  evaluateMetricsWithCardinality data validator evaluator
  = Ok (wrap64 (countPassed ok data), len data,
        failedNames ok CardinalityData.MetricName data,
        wrap64 (sumCounts (List.filter ok data)),
        wrap64 (sumCounts data)).
Proof.
  intros ok. unfold evaluateMetricsWithCardinality.
  change (0, @nil string, 0, 0)
    with (wrap64 0, @nil string, wrap64 0, wrap64 0).
  rewrite evaluateMetricsWithCardinality_loop. reflexivity.
Qed.

(** *** One validator *)

Lemma lookup_inMemorySources (cardinalityData : list CardinalityData.t)
    (labelsData : list LabelsData.t) (key : string) :
  inMemorySources cardinalityData labelsData !! key =
  if key =s "labels" then Some (LabelsRows labelsData)
  else if key =s "cardinality" then Some (CardinalityRows cardinalityData)
  else None.
Proof.
  unfold inMemorySources.
  destruct (String.eqb_spec key "labels") as [->|Hl].
  - now rewrite lookup_insert_eq.
  - rewrite lookup_insert_ne by congruence.
    destruct (String.eqb_spec key "cardinality") as [->|Hc].
    + now rewrite lookup_insert_eq.
    + rewrite lookup_insert_ne by congruence. apply lookup_empty.
Qed.

Lemma evaluateValidatorWithStats_is_ok (validator : ValidatorConfig)
    (dataSources : gmap string DataSet) :
  is_ok (evaluateValidatorWithStats validator dataSources)
  = typeChecks validator dataSources.
Proof.
  unfold evaluateValidatorWithStats, typeChecks.
  destruct (dataSources !! DataSource validator) as [[rows|rows]|];
    [| |reflexivity].
  - destruct (VType validator =s "cardinality") eqn:Hc.
    + now rewrite evaluateMetricsWithCardinality_eq.
    + destruct (VType validator =s "format"); [reflexivity|].
      destruct (_ || _); reflexivity.
  - destruct (String.eqb_spec (VType validator) "cardinality") as [Hc|Hc].
    + rewrite Hc. reflexivity.
    + rewrite evaluateMetrics_eq.
      destruct (VType validator =s "format"); [reflexivity|].
      destruct (VType validator =s "labels"); [reflexivity|].
      destruct (VType validator =s "label_count"); reflexivity.
Qed.

(** What a validator returns on the sources [EvaluateWithData] builds:
    a validator that reads the [cardinality] source sums the counts, a
    validator that reads the [labels] source returns zero sums. *)
Lemma evaluateValidatorWithStats_inMemory (validator : ValidatorConfig)
    (cardinalityData : list CardinalityData.t)
    (labelsData : list LabelsData.t)
    (passed total : Z) (failed : list string) (passedCard totalCard : Z) :
  evaluateValidatorWithStats validator
    (inMemorySources cardinalityData labelsData)
  = Ok (passed, total, failed, passedCard, totalCard) ->
  let okC m :=
    evaluateCardinalityMetric m (Conditions validator) (VType validator) in
  let okL m :=
    evaluateLabelsMetric m (Conditions validator) (VType validator) in
  (DataSource validator = "cardinality" /\
   passed = wrap64 (countPassed okC cardinalityData) /\
   total = len cardinalityData /\
   passedCard = wrap64 (sumCounts (List.filter okC cardinalityData)) /\
   totalCard = wrap64 (sumCounts cardinalityData))
  \/
  (DataSource validator = "labels" /\
   passed = wrap64 (countPassed okL labelsData) /\
   total = len labelsData /\
   passedCard = 0 /\ totalCard = 0).
Proof.
  unfold evaluateValidatorWithStats.
  rewrite lookup_inMemorySources.
  destruct (String.eqb_spec (DataSource validator) "labels") as [Hl|Hl].
  - destruct (VType validator =s "cardinality"); [discriminate|].
    rewrite evaluateMetrics_eq. cbn.
    destruct (VType validator =s "format").
    + intros [= <- <- <- <- <-]. right. auto.
    + destruct (_ || _); [|discriminate].
      intros [= <- <- <- <- <-]. right. auto.
  - destruct (String.eqb_spec (DataSource validator) "cardinality")
      as [Hc|Hc]; [|discriminate].
    destruct (VType validator =s "cardinality").
    + rewrite evaluateMetricsWithCardinality_eq.
      intros [= <- <- <- <- <-]. left. auto.
    + destruct (VType validator =s "format"); [discriminate|].
      destruct (_ || _); discriminate.
Qed.

(** *** The validator loop of [evaluateRule] *)

Lemma evaluateRule_step_ok (validator : ValidatorConfig)
    (dataSources : gmap string DataSet) (r0 r : RuleResult.t) :
  evaluateRule_step validator dataSources r0 = Ok r ->
  exists passed total failed passedCard totalCard,
    evaluateValidatorWithStats validator dataSources
    = Ok (passed, total, failed, passedCard, totalCard) /\
    RuleResult.PassedChecks r = add64 (RuleResult.PassedChecks r0) 1 /\
    RuleResult.TotalChecks r = RuleResult.TotalChecks r0 /\
    RuleResult.Impact r = RuleResult.Impact r0 /\
    RuleResult.PassedMetrics r = add64 (RuleResult.PassedMetrics r0) passed /\
    RuleResult.TotalMetrics r = add64 (RuleResult.TotalMetrics r0) total /\
    RuleResult.PassedCardinality r
    = add64 (RuleResult.PassedCardinality r0) passedCard /\
    RuleResult.TotalCardinality r
    = add64 (RuleResult.TotalCardinality r0) totalCard.
Proof.
  unfold evaluateRule_step.
  destruct (evaluateValidatorWithStats validator dataSources)
    as [[[[[passed total] failed] passedCard] totalCard]|err];
    [|discriminate].
  intros [= <-]. exists passed, total, failed, passedCard, totalCard.
  cbn. repeat split; reflexivity.
Qed.

Lemma evaluateRule_loop_cons (validator : ValidatorConfig)
    (rest : list ValidatorConfig) (dataSources : gmap string DataSet)
    (r0 r : RuleResult.t) :
  evaluateRule_loop (validator :: rest) dataSources r0 = Ok r ->
  exists r1, evaluateRule_step validator dataSources r0 = Ok r1 /\
             evaluateRule_loop rest dataSources r1 = Ok r.
Proof.
  cbn [evaluateRule_loop].
  destruct (evaluateRule_step validator dataSources r0) as [r1|err];
    [|discriminate].
  intros Hrest. now exists r1.
Qed.

Lemma evaluateRule_loop_checks (validators : list ValidatorConfig)
    (dataSources : gmap string DataSet) (r0 r : RuleResult.t) :
  evaluateRule_loop validators dataSources r0 = Ok r ->
  wrap64 (RuleResult.PassedChecks r0) = RuleResult.PassedChecks r0 ->
  RuleResult.PassedChecks r
  = wrap64 (RuleResult.PassedChecks r0 + len validators) /\
  RuleResult.TotalChecks r = RuleResult.TotalChecks r0.
Proof.
  revert r0. induction validators as [|v vs IH]; intros r0 Hloop Hr0.
  - injection Hloop as <-. cbn. now rewrite Z.add_0_r, Hr0.
  - apply evaluateRule_loop_cons in Hloop as (r1 & Hstep & Hloop).
    apply evaluateRule_step_ok in Hstep
      as (p & t & f & pc & tc & _ & Hpc & Htc & _).
    apply IH in Hloop as [Hp Ht].
    + rewrite Hp, Ht, Hpc, Htc. split; [|reflexivity].
      unfold add64. rewrite wrap64_add_l. f_equal.
      unfold len. cbn [length]. lia.
    + rewrite Hpc. apply wrap64_idem.
Qed.

Lemma evaluateRule_loop_is_ok (validators : list ValidatorConfig)
    (dataSources : gmap string DataSet) (r0 : RuleResult.t) :
  is_ok (evaluateRule_loop validators dataSources r0)
  = forallb (fun v => typeChecks v dataSources) validators.
Proof.
  revert r0. induction validators as [|v vs IH]; intros r0; [reflexivity|].
  cbn [evaluateRule_loop forallb].
  rewrite <- evaluateValidatorWithStats_is_ok.
  unfold evaluateRule_step.
  destruct (evaluateValidatorWithStats v dataSources)
    as [[[[[passed total] failed] passedCard] totalCard]|err];
    [|reflexivity].
  cbn. apply IH.
Qed.

(** *** Conditions the data view does not know *)

Lemma compareValues_true (actual : float) (operator : string)
    (expected : Value) :
  compareValues actual operator expected = true ->
  numericOperator operator = true.
Proof.
  unfold compareValues, numericOperator. cbn [existsb].
  destruct expected; try discriminate;
    destruct (operator =s "gt"), (operator =s "lt"), (operator =s "gte"),
      (operator =s "lte"), (operator =s "eq"); auto.
Qed.

Lemma compareStrings_true (actual operator : string) (expected : Value) :
  compareStrings actual operator expected = true ->
  stringOperator operator = true.
Proof.
  unfold compareStrings, stringOperator. cbn [existsb].
  destruct expected; try discriminate.
  destruct (operator =s "matches"), (operator =s "contains"),
    (operator =s "not_contains"), (operator =s "eq"); auto.
Qed.

Lemma compareLabelCount_true (labelCount : Z) (c : ConditionConfig) :
  compareLabelCount labelCount c = true ->
  numericOperator (Operator c) = true.
Proof.
  unfold compareLabelCount, numericOperator. cbn [existsb].
  destruct (CValue c); try discriminate.
  destruct (Operator c =s "gt"), (Operator c =s "lt"),
    (Operator c =s "gte"), (Operator c =s "lte"), (Operator c =s "eq");
    auto.
Qed.

Lemma someLabelCompares_true (labels : list string) (c : ConditionConfig) :
  someLabelCompares labels c = true ->
  stringOperator (Operator c) = true.
Proof.
  induction labels as [|l labels IH]; cbn; [discriminate|].
  destruct (compareStrings l (Operator c) (CValue c)) eqn:Hc; [|exact IH].
  intros _. now apply compareStrings_true in Hc.
Qed.

Lemma evaluateLabelsField_true (labels : list string) (c : ConditionConfig) :
  evaluateLabelsField labels c = true ->
  stringOperator (Operator c) = true.
Proof.
  unfold evaluateLabelsField.
  destruct (CValue c) eqn:Hv; try discriminate.
  unfold stringOperator. cbn [existsb].
  destruct (Operator c =s "not_contains") eqn:H1;
    [intros _; now rewrite !orb_true_r|].
  destruct (Operator c =s "contains") eqn:H2;
    [intros _; now rewrite !orb_true_r|].
  destruct (Operator c =s "matches") eqn:H3; [reflexivity|].
  intros Hs. apply someLabelCompares_true in Hs.
  unfold stringOperator in Hs. cbn [existsb] in Hs.
  now rewrite H1, H2, H3 in Hs.
Qed.

Lemma evaluateCardinalityMetric_unknown (metric : CardinalityData.t)
    (conditions : list ConditionConfig) (validatorType : string) :
  (exists c, c ∈ conditions /\ conditionKnown "cardinality" c = false) ->
  evaluateCardinalityMetric metric conditions validatorType = false.
Proof.
  intros (c & Hin & Hc).
  induction conditions as [|c0 rest IH]; [inversion Hin|].
  cbn [evaluateCardinalityMetric].
  assert (Hrest : c0 = c \/ c ∈ rest)
    by (apply elem_of_cons in Hin as [->|Hin]; auto).
  clear Hin. unfold conditionKnown in Hc. cbn [String.eqb] in Hc.
  destruct (Field c0 =s "count") eqn:Hf1.
  - destruct (compareValues _ (Operator c0) (CValue c0)) eqn:Hcmp;
      [|reflexivity]. cbn [negb].
    destruct Hrest as [->|Hin]; [|now apply IH].
    apply compareValues_true in Hcmp.
    rewrite Hf1, Hcmp in Hc. discriminate.
  - destruct (Field c0 =s "metric_name") eqn:Hf2; [|reflexivity].
    destruct (compareStrings _ (Operator c0) (CValue c0)) eqn:Hcmp;
      [|reflexivity]. cbn [negb].
    destruct Hrest as [->|Hin]; [|now apply IH].
    apply compareStrings_true in Hcmp.
    rewrite Hf1, Hf2, Hcmp in Hc. discriminate.
Qed.

Lemma evaluateLabelsMetric_unknown (metric : LabelsData.t)
    (conditions : list ConditionConfig) (validatorType : string) :
  (validatorType =s "cardinality") = false ->
  (exists c, c ∈ conditions /\ conditionKnown validatorType c = false) ->
  evaluateLabelsMetric metric conditions validatorType = false.
Proof.
  intros Hty (c & Hin & Hc).
  induction conditions as [|c0 rest IH]; [inversion Hin|].
  cbn [evaluateLabelsMetric].
  assert (Hrest : c0 = c \/ c ∈ rest)
    by (apply elem_of_cons in Hin as [->|Hin]; auto).
  clear Hin. unfold conditionKnown in Hc. rewrite Hty in Hc.
  destruct (Field c0 =s "metric_name") eqn:Hf1.
  - destruct (compareStrings _ (Operator c0) (CValue c0)) eqn:Hcmp;
      [|reflexivity]. cbn [negb].
    destruct Hrest as [->|Hin]; [|now apply IH].
    apply compareStrings_true in Hcmp.
    rewrite Hf1, Hcmp in Hc. discriminate.
  - destruct (Field c0 =s "labels") eqn:Hf2.
    + destruct (evaluateLabelsField _ c0) eqn:Hcmp; [|reflexivity].
      cbn [negb].
      destruct Hrest as [->|Hin]; [|now apply IH].
      apply evaluateLabelsField_true in Hcmp.
      rewrite Hf1, Hf2, Hcmp in Hc. discriminate.
    + destruct (Field c0 =s "label_count") eqn:Hf3; [|reflexivity].
      destruct (compareLabelCount _ c0) eqn:Hcmp; [|reflexivity].
      cbn [negb].
      destruct Hrest as [->|Hin]; [|now apply IH].
      apply compareLabelCount_true in Hcmp.
      rewrite Hf1, Hf2, Hf3, Hcmp in Hc. now rewrite orb_true_r in Hc.
Qed.

Lemma countPassed_none {T} (ok : T -> bool) (data : list T) :
  (forall m, ok m = false) -> countPassed ok data = 0.
Proof.
  intros Hok. induction data as [|m data IH]; [reflexivity|].
  rewrite countPassed_cons, Hok, IH. reflexivity.
Qed.

Lemma failedNames_all {T} (ok : T -> bool) (name : T -> string)
    (data : list T) :
  (forall m, ok m = false) -> len (failedNames ok name data) = len data.
Proof.
  intros Hok. unfold failedNames, len. rewrite length_map.
  induction data as [|m data IH]; [reflexivity|].
  cbn [List.filter]. rewrite Hok. cbn [negb length]. lia.
Qed.

Lemma filter_none {T} (ok : T -> bool) (data : list T) :
  (forall m, ok m = false) -> List.filter ok data = [].
Proof.
  intros Hok. induction data as [|m data IH]; [reflexivity|].
  cbn. now rewrite Hok.
Qed.

(** A validator with a condition its view does not know passes no
    metric and reports every one of them as failed. *)
Lemma unknown_condition_fails_every_metric (validator : ValidatorConfig)
    (dataSources : gmap string DataSet)
    (passed total : Z) (failed : list string) (passedCard totalCard : Z) :
  (exists c, c ∈ Conditions validator /\
             conditionKnown (VType validator) c = false) ->
  evaluateValidatorWithStats validator dataSources
  = Ok (passed, total, failed, passedCard, totalCard) ->
  passed = 0 /\ passedCard = 0 /\ len failed = total.
Proof.
  intros Hunknown. unfold evaluateValidatorWithStats.
  destruct (dataSources !! DataSource validator) as [data|];
    [|discriminate].
  destruct (String.eqb_spec (VType validator) "cardinality") as [Hc|Hc].
  - destruct data as [rows|rows]; [|discriminate].
    rewrite evaluateMetricsWithCardinality_eq.
    assert (Hnone : forall m,
               evaluateCardinalityMetric m (Conditions validator)
                 (VType validator) = false).
    { intros m. apply evaluateCardinalityMetric_unknown.
      now rewrite Hc in Hunknown. }
    intros [= <- <- <- <- _].
    rewrite countPassed_none, filter_none, failedNames_all by exact Hnone.
    auto.
  - apply String.eqb_neq in Hc.
    assert (Hnone : forall m,
               evaluateLabelsMetric m (Conditions validator)
                 (VType validator) = false).
    { intros m. now apply evaluateLabelsMetric_unknown. }
    assert (Hlabels : forall rows,
               (evaluateMetrics rows validator evaluateLabelsMetric ≫=
                  (fun '(passed, total, failed) =>
                     Ok (passed, total, failed, 0, 0)))
               = Ok (passed, total, failed, passedCard, totalCard) ->
               passed = 0 /\ passedCard = 0 /\ len failed = total).
    { intros rows. rewrite evaluateMetrics_eq. cbn.
      intros [= <- <- <- <- _].
      rewrite countPassed_none, failedNames_all by exact Hnone. auto. }
    destruct (VType validator =s "format").
    + destruct data as [rows|rows]; [discriminate|apply Hlabels].
    + destruct (_ || _); [|discriminate].
      destruct data as [rows|rows]; [discriminate|apply Hlabels].
Qed.

(** C4 (amended): a condition whose field name or operator the data
    view does not know is never an error.  Whether a rule's evaluation
    fails is decided by the data sources and validator types alone, and
    a validator carrying such a condition evaluates normally: it passes
    no metric and lists every metric as failed. *)
Theorem unknown_condition_is_a_silent_failure
    (rule : RuleDefinition) (dataSources : gmap string DataSet) :
  is_ok (evaluateRule rule dataSources)
  = forallb (fun v => typeChecks v dataSources) (Validators rule)
  /\
  forall validator passed total failed passedCard totalCard,
    validator ∈ Validators rule ->
    (exists c, c ∈ Conditions validator /\
               conditionKnown (VType validator) c = false) ->
    evaluateValidatorWithStats validator dataSources
    = Ok (passed, total, failed, passedCard, totalCard) ->
    passed = 0 /\ passedCard = 0 /\ len failed = total.
Proof.
  split; [apply evaluateRule_loop_is_ok|].
  intros validator passed total failed passedCard totalCard _ Hunknown Hok.
  exact (unknown_condition_fails_every_metric validator dataSources
           passed total failed passedCard totalCard Hunknown Hok).
Qed.

(** C10: a rule result returned without error has PassedChecks equal to
    TotalChecks, the number of validators of the rule, whatever the
    validators found. *)
Theorem PassedChecks_always_TotalChecks (rule : RuleDefinition)
    (dataSources : gmap string DataSet) (r : RuleResult.t) :
  len (Validators rule) <= maxInt64 ->
  evaluateRule rule dataSources = Ok r ->
  RuleResult.PassedChecks r = RuleResult.TotalChecks r /\
  RuleResult.TotalChecks r = len (Validators rule).
Proof.
  intros Hlen Hev. unfold evaluateRule in Hev.
  apply evaluateRule_loop_checks in Hev as [Hp Ht]; [|reflexivity].
  cbn in Hp, Ht. rewrite Hp, Ht. split; [|reflexivity].
  apply wrap64_small. unfold len, minInt64 in *. lia.
Qed.

(** *** All rules *)

Lemma evaluateRules_loop_Forall2 (rs : list RuleDefinition)
    (dataSources : gmap string DataSet) (acc results : list RuleResult.t) :
  evaluateRules_loop rs dataSources acc = Ok results ->
  exists new, results = (acc ++ new)%list /\
    Forall2 (fun rule r => evaluateRule rule dataSources = Ok r) rs new.
Proof.
  revert acc. induction rs as [|rule rs IH]; intros acc; cbn.
  - intros [= <-]. exists []. now rewrite app_nil_r.
  - destruct (evaluateRule rule dataSources) as [r|err] eqn:Hr;
      [|discriminate].
    intros Hloop. apply IH in Hloop as (new & -> & Hall).
    exists (r :: new). rewrite <- app_assoc. split; [reflexivity|].
    now constructor.
Qed.

Lemma EvaluateWithData_results (e : RuleEngine)
    (cardinalityData : list CardinalityData.t)
    (labelsData : list LabelsData.t) (results : list RuleResult.t) :
  EvaluateWithData e cardinalityData labelsData = Ok results ->
  Forall2
    (fun rule r =>
       evaluateRule rule (inMemorySources cardinalityData labelsData)
       = Ok r)
    (rules e) results.
Proof.
  unfold EvaluateWithData, evaluateWithDataSources. intros Hloop.
  apply evaluateRules_loop_Forall2 in Hloop as (new & -> & Hall).
  exact Hall.
Qed.

(** *** The cardinality total of a rule *)

Lemma evaluateRule_loop_totalCardinality
    (validators : list ValidatorConfig)
    (cardinalityData : list CardinalityData.t)
    (labelsData : list LabelsData.t) (r0 r : RuleResult.t) :
  evaluateRule_loop validators
    (inMemorySources cardinalityData labelsData) r0 = Ok r ->
  wrap64 (RuleResult.TotalCardinality r0) = RuleResult.TotalCardinality r0 ->
  RuleResult.TotalCardinality r
  = wrap64 (RuleResult.TotalCardinality r0
            + countPassed (fun v => DataSource v =s "cardinality") validators
              * sumCounts cardinalityData) /\
  RuleResult.Impact r = RuleResult.Impact r0.
Proof.
  revert r0. induction validators as [|v vs IH]; intros r0 Hloop Hr0.
  - injection Hloop as <-. cbn. now rewrite Z.add_0_r, Hr0.
  - apply evaluateRule_loop_cons in Hloop as (r1 & Hstep & Hloop).
    apply evaluateRule_step_ok in Hstep
      as (p & t & f & pc & tc & Hv & _ & _ & Himp & _ & _ & _ & Htc).
    apply IH in Hloop as [Hloop Himp'];
      [|rewrite Htc; apply wrap64_idem].
    rewrite Hloop, Himp', Himp, Htc. split; [|reflexivity].
    rewrite countPassed_cons. unfold add64. rewrite wrap64_add_l.
    apply evaluateValidatorWithStats_inMemory in Hv
      as [(Hds & _ & _ & _ & ->)|(Hds & _ & _ & _ & ->)]; rewrite Hds.
    + rewrite String.eqb_refl.
      rewrite (Z.add_comm _ (countPassed _ vs * _)), Z.add_assoc.
      rewrite wrap64_add_r. f_equal. lia.
    + change ("labels" =s "cardinality") with false. f_equal. lia.
Qed.

Lemma countPassed_Forall_false {T} (ok : T -> bool) (data : list T) :
  Forall (fun m => ok m = false) data -> countPassed ok data = 0.
Proof.
  induction 1 as [|m data Hm _ IH]; [reflexivity|].
  rewrite countPassed_cons, Hm, IH. reflexivity.
Qed.

(** C3 (amended): in every result of an evaluation that returns without
    error, totalCardinality is the int64 sum of the record counts, once
    per validator that read the cardinality data source.  Hence it is 0
    when no validator of the rule used that source, and such a rule
    enters the score through its metric counts. *)
Theorem totalCardinality_of_rule (e : RuleEngine)
    (cardinalityData : list CardinalityData.t)
    (labelsData : list LabelsData.t) (results : list RuleResult.t) :
  EvaluateWithData e cardinalityData labelsData = Ok results ->
  Forall2 (totalCardinalitySpec cardinalityData)
    (rules e) results.
Proof.
  intros Hev. apply EvaluateWithData_results in Hev.
  eapply Forall2_impl; [exact Hev|]. clear Hev.
  intros rule r Hr. unfold evaluateRule in Hr.
  apply evaluateRule_loop_totalCardinality in Hr as [Htc Himp];
    [|reflexivity].
  cbn in Htc, Himp. unfold totalCardinalitySpec, cardinalityValidators.
  split; [exact Htc|]. intros Hnone.
  assert (Hzero : RuleResult.TotalCardinality r = 0).
  { rewrite Htc, countPassed_Forall_false; [reflexivity|].
    eapply Forall_impl; [exact Hnone|]. intros v Hv. cbn beta in Hv.
    now apply String.eqb_neq. }
  unfold ScoreSpec.numerator, ScoreSpec.denominator.
  rewrite Hzero, Himp. auto.
Qed.

(** *** Bounds on the counts *)

Lemma sumCounts_nonneg (rows : list CardinalityData.t) :
  Forall (fun m => 0 <= CardinalityData.Count m) rows ->
  0 <= sumCounts rows.
Proof.
  induction 1 as [|m rows Hm _ IH]; [cbn; lia|rewrite sumCounts_cons; lia].
Qed.

Lemma evaluateRule_loop_bounds (validators : list ValidatorConfig)
    (cardinalityData : list CardinalityData.t)
    (labelsData : list LabelsData.t) (a : Z) (r0 r : RuleResult.t) :
  let S := sumCounts cardinalityData in
  let M := Z.max (len cardinalityData) (len labelsData) in
  Forall (fun m => 0 <= CardinalityData.Count m) cardinalityData ->
  0 <= a ->
  (a + len validators) * S <= maxInt64 ->
  (a + len validators) * M <= maxInt64 ->
  0 <= RuleResult.PassedMetrics r0 <= RuleResult.TotalMetrics r0 ->
  RuleResult.TotalMetrics r0 <= a * M ->
  0 <= RuleResult.PassedCardinality r0 <= RuleResult.TotalCardinality r0 ->
  RuleResult.TotalCardinality r0 <= a * S ->
  evaluateRule_loop validators
    (inMemorySources cardinalityData labelsData) r0 = Ok r ->
  countsInvariant r.
Proof.
  intros S M Hnn. revert a r0.
  assert (HS : 0 <= S) by now apply sumCounts_nonneg.
  assert (HM : 0 <= M) by (unfold M, len; lia).
  induction validators as [|v vs IH];
    intros a r0 Ha HaS HaM Hpm Htm Hpc Htc Hloop.
  - injection Hloop as <-. split; assumption.
  - apply evaluateRule_loop_cons in Hloop as (r1 & Hstep & Hloop).
    apply evaluateRule_step_ok in Hstep
      as (p & t & f & pc & tc & Hv & _ & _ & _ & Hpm1 & Htm1 & Hpc1 & Htc1).
    assert (Hn : len (v :: vs) = 1 + len vs)
      by (unfold len; cbn [length]; lia).
    assert (Hvs : 0 <= len vs) by (unfold len; lia).
    rewrite Hn in HaS, HaM.
    assert (HS1 : a * S + S <= maxInt64) by nia.
    assert (HM1 : a * M + M <= maxInt64) by nia.
    assert (Hmin : minInt64 <= 0) by (unfold minInt64; lia).
    assert (Hval : 0 <= p <= t /\ t <= M /\ 0 <= pc <= tc /\ tc <= S).
    { apply evaluateValidatorWithStats_inMemory in Hv
        as [(_ & -> & -> & -> & ->)|(_ & -> & -> & -> & ->)].
      - pose proof (countPassed_bounds
                      (fun m => evaluateCardinalityMetric m (Conditions v)
                                  (VType v)) cardinalityData) as Hcp.
        pose proof (sumCounts_filter_bounds
                      (fun m => evaluateCardinalityMetric m (Conditions v)
                                  (VType v)) cardinalityData Hnn) as Hsf.
        fold S in Hsf.
        rewrite !wrap64_small by (unfold M in *; nia).
        unfold M. lia.
      - pose proof (countPassed_bounds
                      (fun m => evaluateLabelsMetric m (Conditions v)
                                  (VType v)) labelsData) as Hcp.
        rewrite !wrap64_small by (unfold M in *; nia).
        unfold M. lia. }
    destruct Hval as (Hp & Ht & Hc & Hc').
    unfold add64 in Hpm1, Htm1, Hpc1, Htc1.
    rewrite wrap64_small in Hpm1, Htm1, Hpc1, Htc1 by nia.
    apply (IH (a + 1) r1); try assumption; try lia.
    all: rewrite ?Z.mul_add_distr_r, ?Z.mul_1_l in *; lia.
Qed.

(** C8 (amended): when every record count is ≥ 0 and, for every rule,
    the number of its validators times the summed counts and times the
    number of records stays within int64, every rule result returned
    satisfies 0 ≤ passedMetrics ≤ totalMetrics and
    0 ≤ passedCardinality ≤ totalCardinality. *)
Theorem counts_invariant_without_overflow (e : RuleEngine)
    (cardinalityData : list CardinalityData.t)
    (labelsData : list LabelsData.t) (results : list RuleResult.t) :
  Forall (fun m => 0 <= CardinalityData.Count m) cardinalityData ->
  Forall
    (fun rule =>
       len (Validators rule) * sumCounts cardinalityData <= maxInt64 /\
       len (Validators rule)
       * Z.max (len cardinalityData) (len labelsData) <= maxInt64)
    (rules e) ->
  EvaluateWithData e cardinalityData labelsData = Ok results ->
  Forall countsInvariant results.
Proof.
  intros Hnn Hfit Hev. apply EvaluateWithData_results in Hev.
  induction Hev as [|rule r rs results Hr _ IH]; [constructor|].
  apply Forall_cons in Hfit as [[HS HM] Hfit].
  constructor; [|now apply IH].
  unfold evaluateRule in Hr.
  apply (evaluateRule_loop_bounds _ _ _ 0) in Hr; cbn; try lia; assumption.
Qed.

End WithLib.

(** *** The properties at concrete inputs *)

Lemma PassedChecks_despite_failures :
  exists r,
    evaluateRule (lib := Demo.plainLib) Demo.cardinalityRule
      (inMemorySources Demo.cardinalityRows []) = Ok r /\
    RuleResult.FailedChecks r = ["test_cardinality_check"] /\
    RuleResult.PassedChecks r = RuleResult.TotalChecks r /\
    RuleResult.TotalChecks r = len (Validators Demo.cardinalityRule).
Proof.
  eexists. split; [vm_compute; reflexivity|]. split; [reflexivity|].
  apply (PassedChecks_always_TotalChecks (lib := Demo.plainLib)
           Demo.cardinalityRule (inMemorySources Demo.cardinalityRows [])).
  - vm_compute. discriminate.
  - vm_compute. reflexivity.
Defined.

Lemma totalCardinality_of_label_rule :
  exists results,
    EvaluateWithData (lib := Demo.plainLib)
      (mkEngine [Demo.labelRule; Demo.cardinalityRule])
      Demo.cardinalityRows Demo.labelRows = Ok results /\
    Forall2 (totalCardinalitySpec Demo.cardinalityRows)
      [Demo.labelRule; Demo.cardinalityRule] results.
Proof.
  eexists. split; [vm_compute; reflexivity|].
  apply (totalCardinality_of_rule (lib := Demo.plainLib)
           (mkEngine [Demo.labelRule; Demo.cardinalityRule])
           Demo.cardinalityRows Demo.labelRows).
  vm_compute. reflexivity.
Defined.

Lemma counts_invariant_on_test_data :
  exists results,
    EvaluateWithData (lib := Demo.plainLib)
      (mkEngine [Demo.labelRule; Demo.cardinalityRule])
      Demo.cardinalityRows Demo.labelRows = Ok results /\
    Forall countsInvariant results.
Proof.
  eexists. split; [vm_compute; reflexivity|].
  apply (counts_invariant_without_overflow (lib := Demo.plainLib)
           (mkEngine [Demo.labelRule; Demo.cardinalityRule])
           Demo.cardinalityRows Demo.labelRows).
  - repeat constructor; vm_compute; discriminate.
  - repeat constructor; vm_compute; discriminate.
  - vm_compute. reflexivity.
Defined.

(** A rule whose validator reads the cardinality source has
    totalCardinality = 0 when the records carry no series. *)
Lemma totalCardinality_zero_with_cardinality_source :
  ~ (forall (lib : Lib) (e : RuleEngine)
       (cardinalityData : list CardinalityData.t)
       (labelsData : list LabelsData.t) (results : list RuleResult.t),
        EvaluateWithData e cardinalityData labelsData = Ok results ->
        Forall2
          (fun rule r =>
             RuleResult.TotalCardinality r = 0 <->
             Forall (fun v => DataSource v <> "cardinality")
                    (Validators rule))
          (rules e) results).
Proof.
  intros Hclaim.
  assert (Hev : exists r,
             EvaluateWithData (lib := Demo.plainLib)
               (mkEngine [Demo.cardinalityRule]) Demo.idleRows [] = Ok [r] /\
             RuleResult.TotalCardinality r = 0).
  { eexists. split; [vm_compute; reflexivity|reflexivity]. }
  destruct Hev as (r & Hev & Hzero).
  specialize (Hclaim Demo.plainLib _ _ _ _ Hev).
  cbn [rules] in Hclaim.
  apply Forall2_cons_1 in Hclaim as [[Hnone _] _].
  specialize (Hnone Hzero).
  apply Forall_cons in Hnone as [Hne _]. now apply Hne.
Qed.

(** The misspelled field of [Demo.misspelled] on the records of the
    engine's test: the rule evaluates, and no metric passes. *)
Lemma misspelled_field_fails_every_metric :
  is_ok (evaluateRule (lib := Demo.plainLib) Demo.misspelledRule
           (inMemorySources Demo.cardinalityRows [])) = true /\
  exists failed,
    evaluateValidatorWithStats (lib := Demo.plainLib) Demo.misspelled
      (inMemorySources Demo.cardinalityRows [])
    = Ok (0, 4, failed, 0, 19500) /\
    len failed = 4.
Proof.
  pose proof (unknown_condition_is_a_silent_failure (lib := Demo.plainLib)
                Demo.misspelledRule
                (inMemorySources Demo.cardinalityRows [])) as [Hok Hfail].
  split; [rewrite Hok; vm_compute; reflexivity|].
  eexists. split; [vm_compute; reflexivity|].
  eapply (Hfail Demo.misspelled 0 4 _ 0 19500).
  - left.
  - exists (mkCondition "series" "lt" (VInt 10000)).
    split; [left|reflexivity].
  - vm_compute. reflexivity.
Defined.

(** A condition on a field the view does not have: the rule evaluates
    without error and the metrics count as failed. *)
Lemma unknown_field_returns_no_error :
  ~ (forall (lib : Lib) (rule : RuleDefinition)
       (dataSources : gmap string DataSet),
        (exists validator c,
            validator ∈ Validators rule /\ c ∈ Conditions validator /\
            conditionKnown (VType validator) c = false) ->
        exists msg, evaluateRule rule dataSources = Err msg).
Proof.
  intros Hclaim.
  destruct (Hclaim Demo.plainLib Demo.misspelledRule
              (inMemorySources Demo.cardinalityRows [])) as [msg Hmsg].
  - exists Demo.misspelled, (mkCondition "series" "lt" (VInt 10000)).
    split; [left|]. split; [left|reflexivity].
  - vm_compute in Hmsg. discriminate.
Qed.

(** Two records with 2^62 series each: the int64 total wraps to −2^63
    while the passed sum is 2^62. *)
Lemma counts_invariant_fails_on_overflow :
  ~ (forall (lib : Lib) (e : RuleEngine)
       (cardinalityData : list CardinalityData.t)
       (labelsData : list LabelsData.t) (results : list RuleResult.t),
        Forall (fun m => 0 <= CardinalityData.Count m) cardinalityData ->
        EvaluateWithData e cardinalityData labelsData = Ok results ->
        Forall countsInvariant results).
Proof.
  intros Hclaim.
  assert (Hev : exists r,
             EvaluateWithData (lib := Demo.plainLib)
               (mkEngine [Demo.onlyM1Rule]) Demo.hugeRows [] = Ok [r] /\
             RuleResult.PassedCardinality r = 2 ^ 62 /\
             RuleResult.TotalCardinality r = - 2 ^ 63).
  { eexists. split; [vm_compute; reflexivity|split; reflexivity]. }
  destruct Hev as (r & Hev & Hpassed & Htotal).
  assert (Hnn : Forall (fun m => 0 <= CardinalityData.Count m) Demo.hugeRows)
    by (repeat constructor; vm_compute; discriminate).
  specialize (Hclaim Demo.plainLib _ _ _ _ Hnn Hev).
  apply Forall_cons in Hclaim as [[_ Hcard] _].
  rewrite Hpassed, Htotal in Hcard. lia.
Qed.

End EngineFacts.

(** ** Properties of the remote query client *)

Module ClientFacts.
Import Client RetrySpec EngineFacts.

Lemma attempts_app (t1 t2 : Trace) :
  attempts (t1 ++ t2)%list = (attempts t1 + attempts t2)%nat.
Proof. unfold attempts. now rewrite List.filter_app, length_app. Qed.

Lemma success_not_retryable (o : Outcome) :
  success o = true -> retryable o = false.
Proof. destruct o as [err|statusCode body]; cbn; [discriminate|lia]. Qed.

Section WithTransport.
Context (transport : Transport).

Lemma retryLoop_spec (fuel : nat) (c : PrometheusClient) (req : Request)
    (attempt : Z) (resp : option Response) (lastErr : option string)
    (t t' : Trace) (res : option Response * option string) :
  RetryCount c <= maxRetryCount ->
  0 <= attempt <= RetryCount c ->
  Z.of_nat fuel = RetryCount c + 1 - attempt ->
  retryLoop transport fuel c req attempt resp lastErr t = (res, t') ->
  exists k : nat,
    (1 <= k)%nat /\ attempt + Z.of_nat k <= RetryCount c + 1 /\
    t' = (t ++ schedule req attempt k)%list /\
    (forall i : nat, (i < k - 1)%nat ->
       retryable (transport (attempts t + i)%nat req) = true) /\
    (attempt + Z.of_nat k < RetryCount c + 1 ->
       retryable (transport (attempts t + (k - 1))%nat req) = false) /\
    res = resultOf (transport (attempts t + (k - 1))%nat req).
Proof.
  intros Hmax. revert attempt resp lastErr t.
  induction fuel as [|fuel IH]; intros attempt resp lastErr t Ha Hfuel Hrun;
    [lia|].
  cbn [retryLoop] in Hrun.
  destruct (Z.leb_spec attempt (RetryCount c)) as [_|?]; [|lia].
  set (t1 := ((t ++ (if 0 <? attempt then [Slept (attempt * Second)]
                     else []))%list)).
  assert (Hpause : (if 0 <? attempt
                    then Sleep (wrap64 (attempt * Second)) else ret tt) t
                   = (tt, t1)).
  { unfold t1. destruct (0 <? attempt).
    - unfold Sleep. rewrite wrap64_small; [reflexivity|].
      unfold maxRetryCount, Second, minInt64, maxInt64 in *. lia.
    - unfold ret. now rewrite app_nil_r. }
  assert (Hatt : attempts t1 = attempts t).
  { unfold t1. rewrite attempts_app.
    destruct (0 <? attempt); cbn; lia. }
  unfold bind at 1 in Hrun. rewrite Hpause in Hrun.
  unfold bind at 1, Do in Hrun. rewrite Hatt in Hrun.
  set (o := transport (attempts t) req) in *.
  set (t2 := (t1 ++ [Sent req])%list) in *.
  assert (Ht2 : t2 = (t ++ schedule req attempt 1)%list).
  { unfold t2, t1. cbn [schedule]. now rewrite <- !app_assoc. }
  assert (Hatt2 : attempts t2 = S (attempts t)).
  { unfold t2. rewrite attempts_app, Hatt. cbn. lia. }
  assert (Hstop : retryable o = false \/ attempt = RetryCount c ->
            (res, t') = (resultOf o, t2) ->
            exists k : nat,
              (1 <= k)%nat /\ attempt + Z.of_nat k <= RetryCount c + 1 /\
              t' = (t ++ schedule req attempt k)%list /\
              (forall i : nat, (i < k - 1)%nat ->
                 retryable (transport (attempts t + i)%nat req) = true) /\
              (attempt + Z.of_nat k < RetryCount c + 1 ->
                 retryable (transport (attempts t + (k - 1))%nat req)
                 = false) /\
              res = resultOf (transport (attempts t + (k - 1))%nat req)).
  { intros Hwhy [= -> ->]. exists 1%nat. cbn [Nat.sub].
    rewrite Nat.add_0_r. fold o.
    repeat split; try lia; try exact Ht2.
    intros Hlt. destruct Hwhy as [Hnr|Heq]; [exact Hnr|lia]. }
  assert (Hretry : forall resp' lastErr',
            retryable o = true -> attempt < RetryCount c ->
            retryLoop transport fuel c req (add64 attempt 1)
              resp' lastErr' t2 = (res, t') ->
            exists k : nat,
              (1 <= k)%nat /\ attempt + Z.of_nat k <= RetryCount c + 1 /\
              t' = (t ++ schedule req attempt k)%list /\
              (forall i : nat, (i < k - 1)%nat ->
                 retryable (transport (attempts t + i)%nat req) = true) /\
              (attempt + Z.of_nat k < RetryCount c + 1 ->
                 retryable (transport (attempts t + (k - 1))%nat req)
                 = false) /\
              res = resultOf (transport (attempts t + (k - 1))%nat req)).
  { intros resp' lastErr' Hr Hlt Hrest.
    assert (Hnext : add64 attempt 1 = attempt + 1).
    { apply wrap64_small.
      unfold maxRetryCount, minInt64, maxInt64 in *. lia. }
    rewrite Hnext in Hrest.
    apply IH in Hrest
      as (k & Hk1 & Hk2 & Htrace & Hall & Hlast & Hres); [|lia|lia].
    exists (S k). rewrite Hatt2 in Hall, Hlast, Hres.
    repeat split.
    - lia.
    - lia.
    - rewrite Htrace, Ht2. rewrite <- app_assoc. f_equal.
      cbn [schedule]. now rewrite <- app_assoc.
    - intros i Hi. destruct i as [|i].
      + rewrite Nat.add_0_r. exact Hr.
      + replace (attempts t + S i)%nat with (S (attempts t) + i)%nat
          by lia.
        apply Hall. lia.
    - intros Hlt'.
      replace (attempts t + (S k - 1))%nat
        with (S (attempts t) + (k - 1))%nat by lia.
      apply Hlast. lia.
    - rewrite Hres. f_equal. f_equal. lia. }
  clearbody o.
  destruct o as [err|statusCode body].
  - destruct (Z.ltb_spec attempt (RetryCount c)) as [Hlt|Hge].
    + now apply (Hretry None (Some err)).
    + apply Hstop; [right; lia|now rewrite <- Hrun].
  - cbn [resultOf retryable] in Hstop, Hretry.
    destruct ((200 <=? statusCode) && (statusCode <? 300)) eqn:H2xx.
    + assert (Hnr : (statusCode =? 502) || (statusCode =? 503)
                    || (statusCode =? 504) = false) by lia.
      rewrite Hnr in Hstop. apply Hstop; [now left|now rewrite <- Hrun].
    + destruct ((statusCode =? 502) || (statusCode =? 503)
                || (statusCode =? 504)) eqn:H5xx.
      * destruct (Z.ltb_spec attempt (RetryCount c)) as [Hlt|Hge].
        -- now apply (Hretry (Some (mkResponse statusCode body true)) None).
        -- apply Hstop; [right; lia|now rewrite <- Hrun].
      * apply Hstop; [now left|now rewrite <- Hrun].
Qed.

(** C7: a remote call makes at most R + 1 transport attempts (R the
    retry count, 2 by default); every attempt but the last ended in a
    network failure or a 502/503/504 response; attempt number i > 0 is
    preceded by a pause of i seconds; and a 2xx response ends the call
    at once and is what the call returns. *)
Theorem retry_policy (c : PrometheusClient) (req : Request) (t0 : Trace) :
  0 <= RetryCount c <= maxRetryCount ->
  RetryCount (NewPrometheusClient (BaseURL c) (Login c)) = 2 /\
  retryPolicy transport c req t0.
Proof.
  intros [H0 Hmax]. split; [reflexivity|].
  unfold retryPolicy, doRequestWithRetry.
  destruct (retryLoop transport (Z.to_nat (RetryCount c + 1)) c req 0
              None None t0) as [res t'] eqn:Hrun.
  apply retryLoop_spec in Hrun
    as (k & Hk1 & Hk2 & Htrace & Hall & _ & Hres); [|lia|lia|lia].
  exists k. cbn [fst snd]. repeat split; try assumption; try lia.
  intros i Hi Hok.
  destruct (Nat.eq_dec i (k - 1)%nat) as [Heq|Hne]; [exact Heq|].
  apply success_not_retryable in Hok.
  rewrite Hall in Hok by lia. discriminate.
Qed.

(** *** Rate limiting *)

Context `{json : Json}.

(** A first answer that is neither 2xx nor 502/503/504 ends the retry
    loop after one attempt and without a pause. *)
Lemma doRequestWithRetry_final (c : PrometheusClient) (req : Request)
    (t0 : Trace) (statusCode : Z) (body : string) :
  0 <= RetryCount c ->
  transport (attempts t0) req = Reply statusCode body ->
  success (Reply statusCode body) = false ->
  retryable (Reply statusCode body) = false ->
  doRequestWithRetry transport c req t0
  = ((Some (mkResponse statusCode body false), None),
     (t0 ++ [Sent req])%list).
Proof.
  intros HR Hreply Hns Hnr. unfold doRequestWithRetry.
  destruct (Z.to_nat (RetryCount c + 1)) as [|fuel] eqn:Hfuel; [lia|].
  cbn [retryLoop]. destruct (Z.leb_spec 0 (RetryCount c)); [|lia].
  cbn [Z.ltb Z.compare]. unfold bind, ret, Do. rewrite Hreply.
  cbn [success retryable] in Hns, Hnr. now rewrite Hns, Hnr.
Qed.

Lemma send_429 (c : PrometheusClient) (req : Request) (t0 : Trace)
    (body : string) :
  0 <= RetryCount c ->
  transport (attempts t0) req = Reply 429 body ->
  send transport c req t0
  = (Ok (mkResponse 429 body false), (t0 ++ [Sent req])%list).
Proof.
  intros HR Hreply. unfold send, bind.
  now rewrite (doRequestWithRetry_final c req t0 429 body).
Qed.

(** On the five queries that check the status code, a 429 answer costs
    one attempt, is followed by the fixed 2-second pause, and comes
    back as an error. *)
Lemma rate_limit_aborts_query (c : PrometheusClient)
    (metricName job queryFilters : string) (labels : list string)
    (now : Z) (t0 : Trace) :
  0 <= RetryCount c ->
  (forall req, exists body, transport (attempts t0) req = Reply 429 body) ->
  let cooled req := (t0 ++ [Sent req; Slept (2 * Second)])%list in
  (exists msg,
      GetJobsForMetric transport c metricName queryFilters now t0
      = (Err msg, cooled (JobsRequest metricName queryFilters now))) /\
  (exists msg,
      GetCardinality transport c metricName job queryFilters now t0
      = (Err msg,
         cooled (CardinalityRequest metricName job queryFilters now))) /\
  (exists msg,
      getLabelsViaQuery transport c metricName job queryFilters t0
      = (Err msg,
         cooled (LabelsQueryRequest metricName job queryFilters))) /\
  (exists msg,
      getLabelsViaAPI transport c metricName job queryFilters t0
      = (Err msg, cooled (LabelsAPIRequest metricName job queryFilters))) /\
  (exists msg,
      GetLabelCardinality transport c metricName job labels queryFilters t0
      = (Err msg,
         cooled (LabelCardinalityRequest metricName job labels
                   queryFilters))).
Proof.
  intros HR Hlimited cooled. subst cooled. cbn beta.
  repeat split.
  all: match goal with
       | |- exists _, ?f = (_, (_ ++ [Sent ?req; _])%list) =>
           destruct (Hlimited req) as [body Hbody]
       end.
  all: eexists.
  all: unfold GetJobsForMetric, GetCardinality, getLabelsViaQuery,
         getLabelsViaAPI, GetLabelCardinality.
  all: unfold bind at 1; rewrite (send_429 _ _ _ body HR Hbody).
  all: cbn [readAll Closed Body StatusCode].
  all: change (negb (429 =? 200)) with true; cbn iota.
  all: unfold rateLimitPause; change (429 =? 429) with true; cbn iota.
  all: unfold bind, Sleep, ret; rewrite <- app_assoc; reflexivity.
Qed.

End WithTransport.

Lemma retry_policy_on_flaky_backend :
  RetryCount (NewPrometheusClient (BaseURL Demo.demoClient)
                (Login Demo.demoClient)) = 2 /\
  retryPolicy Demo.flaky Demo.demoClient (MetricNamesRequest "") [].
Proof.
  apply (retry_policy Demo.flaky Demo.demoClient (MetricNamesRequest "") []).
  vm_compute. split; discriminate.
Defined.

(** The retries of the test backend, attempt by attempt. *)
Example flaky_trace :
  doRequestWithRetry Demo.flaky Demo.demoClient (MetricNamesRequest "") []
  = ((Some (mkResponse 200 Demo.catalogDocument false), None),
     [Sent (MetricNamesRequest ""); Slept 1000000000;
      Sent (MetricNamesRequest ""); Slept 2000000000;
      Sent (MetricNamesRequest "")]).
Proof. vm_compute. reflexivity. Qed.

(** C6 (at the input where the code departs from it): against a backend
    that answers 429, the cardinality query makes one attempt, pauses 2
    seconds and returns an error, whereas the metric-name query returns
    an empty catalog with no error and no pause. *)
Theorem metric_names_ignore_rate_limit :
  GetCardinality Demo.rateLimited (json := Demo.demoJson) Demo.demoClient
    "up" "api" "" 0 []
  = (Err "HTTP 429 - cardinality query - job: api - error: rate limit exceeded",
     [Sent (CardinalityRequest "up" "api" "" 0); Slept (2 * Second)])
  /\
  GetAllMetricNames Demo.rateLimited (json := Demo.demoJson) Demo.demoClient
    "" []
  = (Ok [], [Sent (MetricNamesRequest "")]).
Proof. split; vm_compute; reflexivity. Qed.

End ClientFacts.

(** ** Properties of a collection run *)

Module CollectorFacts.
Import Collectors CollectionSpec.

(** C5 (at the input where the code departs from it): the metric
    [http_requests_total] is in the catalog and the job [api] is
    discovered for it, its cardinality query fails, and the run returns
    the sibling job's record and an empty error list: for the pair
    (api, http_requests_total) there is neither a record nor an error. *)
Theorem failed_job_leaves_no_trace :
  GetAllMetricNames (Backend := Demo.partialBackend) ""
  = Ok ["http_requests_total"] /\
  GetJobsForMetric (Backend := Demo.partialBackend)
    "http_requests_total" "" 1762041600 = Ok ["api"; "worker"] /\
  is_ok (GetCardinality (Backend := Demo.partialBackend)
           "http_requests_total" "api" "" 1762041600) = false /\
  CollectMetrics (backend := Demo.partialBackend) Demo.demoCollector
  = Ok ([JobMetricData.mk "worker" "http_requests_total"
           ["method"; "status"] "1500" None], []) /\
  ~ accountedFor
      [JobMetricData.mk "worker" "http_requests_total"
         ["method"; "status"] "1500" None] []
      "api" "http_requests_total".
Proof.
  repeat split; try reflexivity.
  intros [[(r & Hin & Hjob & _) _]|[_ (e & Hin & _)]].
  - apply list_elem_of_singleton in Hin as ->. discriminate.
  - inversion Hin.
Qed.

End CollectorFacts.

(** ** Properties of the string functions *)

Module StringFacts.
Import GoStrings RecordFileSpec.

(** stdpp keeps [append] from unfolding; its two equations. *)
Lemma append_nil_l (b : string) : "" ++ b = b.
Proof. reflexivity. Qed.

Lemma append_cons (c : ascii) (a b : string) :
  String c a ++ b = String c (a ++ b).
Proof. reflexivity. Qed.

Lemma byte_app (c : ascii) (b : string) : String c "" ++ b = String c b.
Proof. reflexivity. Qed.

Lemma bytes_app (a b : string) : bytes (a ++ b) = (bytes a ++ bytes b)%list.
Proof.
  unfold bytes. induction a as [|c a IH]; [reflexivity|].
  rewrite append_cons. cbn. now rewrite IH.
Qed.

Lemma ofBytes_bytes (s : string) : ofBytes (bytes s) = s.
Proof. apply string_of_list_ascii_of_string. Qed.

Lemma append_assoc (a b c : string) : (a ++ b) ++ c = a ++ (b ++ c).
Proof.
  induction a as [|x a IH]; [reflexivity|].
  rewrite !append_cons. now rewrite IH.
Qed.

Lemma append_nil_r (a : string) : a ++ "" = a.
Proof.
  induction a as [|x a IH]; [reflexivity|].
  rewrite append_cons. now rewrite IH.
Qed.

Lemma strlen_app (a b : string) : strlen (a ++ b) = strlen a + strlen b.
Proof.
  unfold strlen. induction a as [|x a IH]; [rewrite append_nil_l; cbn; lia|].
  rewrite append_cons. cbn [String.length]. rewrite !Nat2Z.inj_succ. lia.
Qed.

Lemma strlen_nonneg (a : string) : 0 <= strlen a.
Proof. unfold strlen. lia. Qed.

Lemma hasByte_app (c : ascii) (a b : string) :
  hasByte c (a ++ b) = hasByte c a || hasByte c b.
Proof. unfold hasByte. now rewrite bytes_app, existsb_app. Qed.

Lemma hasByte_cons (c x : ascii) (s : string) :
  hasByte c (String x s) = Ascii.eqb c x || hasByte c s.
Proof. reflexivity. Qed.

(** *** [Split] and [Join] *)

Lemma Split_no_sep (s : string) (sep : ascii) :
  hasByte sep s = false -> Split s sep = [s].
Proof.
  induction s as [|c s IH]; [reflexivity|].
  rewrite hasByte_cons, orb_false_iff. intros [Hc Hs].
  cbn [Split]. rewrite Ascii.eqb_sym, Hc, (IH Hs). reflexivity.
Qed.

Lemma Split_app_sep (a b : string) (sep : ascii) :
  hasByte sep a = false ->
  Split (a ++ String sep b) sep = a :: Split b sep.
Proof.
  induction a as [|c a IH].
  - intros _. rewrite append_nil_l. cbn [Split]. now rewrite Ascii.eqb_refl.
  - rewrite hasByte_cons, orb_false_iff. intros [Hc Ha].
    rewrite append_cons. cbn [Split]. rewrite Ascii.eqb_sym, Hc, (IH Ha).
    reflexivity.
Qed.

Lemma Join_cons (e e' : string) (rest : list string) (sep : string) :
  Join (e :: e' :: rest) sep = e ++ sep ++ Join (e' :: rest) sep.
Proof. reflexivity. Qed.

Lemma Split_Join (elems : list string) (sep : ascii) :
  elems <> [] ->
  Forall (fun e => hasByte sep e = false) elems ->
  Split (Join elems (String sep "")) sep = elems.
Proof.
  intros Hne Hall. induction Hall as [|e rest He Hrest IH]; [done|].
  destruct rest as [|e' rest].
  - cbn [Join]. now apply Split_no_sep.
  - rewrite Join_cons, append_cons, append_nil_l.
    rewrite Split_app_sep by exact He. now rewrite IH.
Qed.

Lemma hasByte_Join (c : ascii) (elems : list string) (sep : string) :
  hasByte c sep = false ->
  Forall (fun e => hasByte c e = false) elems ->
  hasByte c (Join elems sep) = false.
Proof.
  intros Hsep Hall. induction Hall as [|e rest He Hrest IH]; [reflexivity|].
  destruct rest as [|e' rest]; [exact He|].
  rewrite Join_cons, !hasByte_app, He, Hsep, IH. reflexivity.
Qed.

(** *** [TrimSpace] *)

Lemma trimLeft_None (fuel : nat) (encodings : list (list ascii))
    (s : list ascii) :
  stripAny encodings s = None -> trimLeft fuel encodings s = s.
Proof. intros Hs. destruct fuel; cbn; [reflexivity|now rewrite Hs]. Qed.

Lemma trimmed_spec (s : string) :
  trimmed s = true <->
  stripAny whiteSpace (bytes s) = None /\
  stripAny (map (@rev ascii) whiteSpace) (rev (bytes s)) = None.
Proof.
  unfold trimmed.
  destruct (stripAny whiteSpace (bytes s)),
    (stripAny (map (@rev ascii) whiteSpace) (rev (bytes s)));
    split; try discriminate; try (intros [? ?]; discriminate); auto.
Qed.

(** [TrimSpace] leaves a string without white space at its ends alone. *)
Lemma TrimSpace_trimmed (s : string) : trimmed s = true -> TrimSpace s = s.
Proof.
  intros [Hfront Hback]%trimmed_spec. unfold TrimSpace.
  rewrite (trimLeft_None _ _ _ Hfront), (trimLeft_None _ _ _ Hback).
  rewrite rev_involutive. apply ofBytes_bytes.
Qed.

Lemma stripPrefix_app_sep (e a b : list ascii) (c : ascii) :
  existsb (Ascii.eqb c) e = false ->
  stripPrefix e a = None -> stripPrefix e (a ++ c :: b) = None.
Proof.
  revert a. induction e as [|p e IH]; intros a Hc Ha; [discriminate|].
  cbn [existsb] in Hc. apply orb_false_iff in Hc as [Hp He].
  destruct a as [|x a]; cbn [app stripPrefix] in *.
  - now rewrite Hp.
  - destruct (Ascii.eqb x p); [now apply IH|reflexivity].
Qed.

Lemma stripAny_app_sep (encodings : list (list ascii)) (a b : list ascii)
    (c : ascii) :
  avoids c encodings = true ->
  stripAny encodings a = None -> stripAny encodings (a ++ c :: b) = None.
Proof.
  induction encodings as [|e rest IH]; [reflexivity|].
  cbn [avoids forallb stripAny]. rewrite andb_true_iff, negb_true_iff.
  intros [He Hrest] Ha.
  destruct (stripPrefix e a) eqn:Hea; [discriminate|].
  rewrite (stripPrefix_app_sep e a b c He Hea). now apply IH.
Qed.

Lemma stripAny_head (encodings : list (list ascii)) (c : ascii)
    (s : list ascii) :
  headsAvoid c encodings = true -> stripAny encodings (c :: s) = None.
Proof.
  induction encodings as [|e rest IH]; [reflexivity|].
  cbn [headsAvoid forallb stripAny]. rewrite andb_true_iff.
  intros [He Hrest]. destruct e as [|x e]; [discriminate|].
  cbn [stripPrefix]. apply negb_true_iff in He. rewrite He. now apply IH.
Qed.

Lemma stripAny_nil (encodings : list (list ascii)) (c : ascii) :
  headsAvoid c encodings = true -> stripAny encodings [] = None.
Proof.
  induction encodings as [|e rest IH]; [reflexivity|].
  cbn [headsAvoid forallb stripAny]. rewrite andb_true_iff.
  intros [He Hrest]. destruct e as [|x e]; [discriminate|].
  cbn [stripPrefix]. now apply IH.
Qed.

(** *** White space against the bytes a record line is built from *)

Lemma whiteSpace_avoids_pipe : avoids "|" whiteSpace = true.
Proof. vm_compute. reflexivity. Qed.

Lemma whiteSpace_avoids_comma : avoids "," whiteSpace = true.
Proof. vm_compute. reflexivity. Qed.

Lemma reversed_avoids_comma :
  avoids "," (map (@rev ascii) whiteSpace) = true.
Proof. vm_compute. reflexivity. Qed.

Lemma plainEnd_not_space (c : ascii) :
  plainEnd c = true ->
  headsAvoid c (map (@rev ascii) whiteSpace) = true /\
  headsAvoid c whiteSpace = true /\
  Ascii.eqb c "013" = false /\ Ascii.eqb c "+" = false /\
  Ascii.eqb c "-" = false /\ Ascii.eqb c "#" = false.
Proof.
  destruct c as [[|] [|] [|] [|] [|] [|] [|] [|]];
    vm_compute; intros H; try discriminate H; repeat split.
Qed.

Lemma isDigit_plainEnd (c : ascii) : isDigit c = true -> plainEnd c = true.
Proof. unfold plainEnd. now intros ->. Qed.

Lemma endsIn_app (P : ascii -> bool) (a b : string) :
  endsIn P b -> endsIn P (a ++ b).
Proof.
  intros (front & c & -> & Hc). exists (a ++ front), c.
  now rewrite append_assoc.
Qed.

Lemma endsIn_all (P : ascii -> bool) (s : string) :
  s <> "" -> forallb P (bytes s) = true -> endsIn P s.
Proof.
  induction s as [|c s IH]; [done|]. intros _ Hall.
  cbn in Hall. apply andb_true_iff in Hall as [Hc Hs].
  destruct s as [|c' s'].
  - now exists "", c.
  - destruct IH as (front & x & Heq & Hx); [done|exact Hs|].
    exists (String c front), x. now rewrite append_cons, <- Heq.
Qed.

Lemma rev_bytes_end (front : string) (c : ascii) :
  rev (bytes (front ++ String c "")) = c :: rev (bytes front).
Proof. rewrite bytes_app, rev_app_distr. reflexivity. Qed.

Lemma endsIn_plain_back (s : string) :
  endsIn plainEnd s ->
  stripAny (map (@rev ascii) whiteSpace) (rev (bytes s)) = None.
Proof.
  intros (front & c & -> & Hc). rewrite rev_bytes_end.
  apply stripAny_head. now apply plainEnd_not_space.
Qed.

Lemma endsIn_plain_dropCR (s : string) : endsIn plainEnd s -> dropCR s = s.
Proof.
  intros (front & c & -> & Hc). unfold dropCR. rewrite rev_bytes_end.
  apply plainEnd_not_space in Hc as (_ & _ & -> & _). reflexivity.
Qed.

(** *** Decimal strings *)

Lemma parseDigits_digits (s : string) (acc : Z) :
  forallb isDigit (bytes s) = true -> is_Some (parseDigits s acc).
Proof.
  revert acc. induction s as [|c s IH]; intros acc Hall; [now eexists|].
  cbn in Hall. apply andb_true_iff in Hall as [Hc Hs].
  cbn [parseDigits]. unfold isDigit in Hc.
  destruct (digitValue c); [now apply IH|discriminate].
Qed.

Lemma decimal_spec (s : string) :
  decimal s = true ->
  exists c rest, s = String c rest /\ isDigit c = true /\
                 forallb isDigit (bytes s) = true.
Proof.
  unfold decimal. rewrite andb_true_iff, negb_true_iff.
  intros [Hne Hall]. destruct s as [|c rest]; [discriminate|].
  exists c, rest. split; [reflexivity|]. split; [|exact Hall].
  cbn in Hall. now apply andb_true_iff in Hall as [Hc _].
Qed.

Lemma decimal_endsIn (s : string) : decimal s = true -> endsIn plainEnd s.
Proof.
  intros (c & rest & -> & Hc & Hall)%decimal_spec.
  apply endsIn_all; [done|].
  apply forallb_forall. intros x Hx.
  apply isDigit_plainEnd. now apply (proj1 (forallb_forall _ _) Hall).
Qed.

Lemma decimal_trimmed (s : string) : decimal s = true -> trimmed s = true.
Proof.
  intros Hdec. apply trimmed_spec. split.
  - apply decimal_spec in Hdec as (c & rest & -> & Hc & _).
    apply stripAny_head. now apply plainEnd_not_space, isDigit_plainEnd.
  - now apply endsIn_plain_back, decimal_endsIn.
Qed.

(** [ParseInt] reads a decimal string within int64 as its value. *)
Lemma ParseInt_decimal (s : string) :
  decimal s = true -> decimalValue s <= maxInt64 ->
  ParseInt s = Some (decimalValue s).
Proof.
  intros Hdec Hmax. unfold decimalValue in *.
  destruct (decimal_spec s Hdec) as (c & rest & -> & Hc & Hall).
  destruct (parseDigits_digits _ 0 Hall) as [v Hv]. rewrite Hv in *.
  cbn [default] in Hmax. unfold id in Hmax. unfold ParseInt.
  apply isDigit_plainEnd, plainEnd_not_space in Hc
    as (_ & _ & _ & -> & -> & _).
  unfold ParseUint. rewrite Hv. unfold maxInt64 in Hmax.
  destruct (Z.ltb_spec v (2 ^ 64)) as [_|?]; [|lia].
  destruct (Z.leb_spec (2 ^ 63) v) as [?|_]; [lia|]. reflexivity.
Qed.

(** *** [itoa] *)

Lemma string_of_uint_digits (d : Decimal.uint) :
  forallb isDigit (bytes (NilEmpty.string_of_uint d)) = true.
Proof. induction d; cbn; auto. Qed.

(** What [%d] prints: an optional minus sign and a non-empty string of
    digits. *)
Lemma itoa_shape (z : Z) :
  exists sign digits,
    itoa z = sign ++ digits /\ (sign = "" \/ sign = "-") /\
    decimal digits = true.
Proof.
  assert (Huint : forall d, decimal (NilZero.string_of_uint d) = true).
  { intros d. unfold decimal.
    destruct d; try reflexivity;
      (apply andb_true_iff; split; [reflexivity|];
       apply (string_of_uint_digits (_ d))). }
  unfold itoa. destruct (Z.to_int z) as [d|d]; cbn [NilZero.string_of_int].
  - exists "", (NilZero.string_of_uint d). auto.
  - exists "-", (NilZero.string_of_uint d). auto.
Qed.

Lemma itoa_endsIn (z : Z) : endsIn plainEnd (itoa z).
Proof.
  destruct (itoa_shape z) as (sign & digits & -> & _ & Hdec).
  now apply endsIn_app, decimal_endsIn.
Qed.

Lemma hasByte_digits (c : ascii) (s : string) :
  isDigit c = false -> forallb isDigit (bytes s) = true ->
  hasByte c s = false.
Proof.
  intros Hc. unfold hasByte. induction (bytes s) as [|x l IH]; [reflexivity|].
  cbn. rewrite andb_true_iff. intros [Hx Hl]. rewrite (IH Hl), orb_false_r.
  destruct (Ascii.eqb_spec c x) as [->|]; [congruence|reflexivity].
Qed.

Lemma itoa_no_newline (z : Z) : hasByte "010" (itoa z) = false.
Proof.
  destruct (itoa_shape z) as (sign & digits & -> & Hsign & Hdec).
  apply decimal_spec in Hdec as (c & rest & _ & _ & Hall).
  assert (Hnl : isDigit "010" = false) by reflexivity.
  rewrite hasByte_app, (hasByte_digits "010" digits Hnl Hall).
  destruct Hsign as [->| ->]; reflexivity.
Qed.

End StringFacts.

(** ** Properties of the per-job record files *)

Module RecordFacts.
Import GoStrings RecordFileSpec StringFacts.
Module CJ := Collectors.JobMetricData.
Module LJ := Loaders.JobMetricData.

(** *** What a portable record provides *)

Lemma plainName_spec (s : string) :
  plainName s = true ->
  hasByte "|" s = false /\ hasByte "010" s = false /\ trimmed s = true.
Proof.
  unfold plainName. rewrite !andb_true_iff, !negb_true_iff. tauto.
Qed.

Lemma plainLabel_spec (s : string) :
  plainLabel s = true ->
  plainName s = true /\ hasByte "," s = false /\ s <> "".
Proof.
  unfold plainLabel. rewrite !andb_true_iff, !negb_true_iff.
  intros [[Hn Hc] He]. repeat split; try assumption.
  intros ->. discriminate.
Qed.

Lemma portableRecord_spec (d : CJ.t) :
  portableRecord d = true ->
  plainName (CJ.Job d) = true /\
  HasPrefix (CJ.Job d) "#" = false /\
  plainName (CJ.MetricName d) = true /\
  Forall (fun l => plainLabel l = true) (CJ.Labels d) /\
  decimal (CJ.Cardinality d) = true /\
  decimalValue (CJ.Cardinality d) <= maxInt64 /\
  strlen (Collectors.formatLine d) <= MaxScanTokenSize.
Proof.
  unfold portableRecord.
  rewrite !andb_true_iff, negb_true_iff, forallb_forall, Forall_forall.
  intros [[[[[[Hj Hh] Hm] Hl] Hc] Hv] Hs].
  repeat split; try assumption; try lia.
  intros l Hin. apply Hl. now apply list_elem_of_In.
Qed.

(** *** The line of a record *)

Lemma formatLine_lineText (d : CJ.t) :
  Collectors.formatLine d = lineText d ++ newline.
Proof.
  unfold Collectors.formatLine, lineText. now rewrite !append_assoc.
Qed.

Lemma Join_endsIn (P : ascii -> bool) (elems : list string) (sep : string) :
  elems <> [] -> Forall (endsIn P) elems -> endsIn P (Join elems sep).
Proof.
  intros Hne Hall. induction Hall as [|e rest He Hrest IH]; [done|].
  destruct rest as [|e' rest]; [exact He|].
  rewrite Join_cons. apply endsIn_app, endsIn_app. now apply IH.
Qed.

(** The parts of the fifth column are [label:count] texts. *)
Lemma labelCardinality_parts (labelCardinality : gmap string Z)
    (labels : list string) (parts : list string) :
  Forall (fun l => hasByte "010" l = false) labels ->
  Forall (fun p => hasByte "010" p = false /\ endsIn plainEnd p) parts ->
  Forall (fun p => hasByte "010" p = false /\ endsIn plainEnd p)
    (fold_left
       (fun parts label =>
          match labelCardinality !! label with
          | Some count =>
              (parts ++ [(label ++ ":" ++ itoa count)%string])%list
          | None => parts
          end) labels parts).
Proof.
  intros Hlabels. revert parts.
  induction Hlabels as [|l labels Hl _ IH]; intros parts Hparts;
    [exact Hparts|].
  cbn [fold_left]. apply IH.
  destruct (labelCardinality !! l) as [count|]; [|exact Hparts].
  apply Forall_app. split; [exact Hparts|]. constructor; [|constructor].
  split.
  - rewrite !hasByte_app, Hl, itoa_no_newline. reflexivity.
  - apply endsIn_app, endsIn_app, itoa_endsIn.
Qed.

Lemma labelCardinalityStr_spec (d : CJ.t) :
  Forall (fun l => hasByte "010" l = false) (CJ.Labels d) ->
  hasByte "010" (Collectors.labelCardinalityStr d) = false /\
  (Collectors.labelCardinalityStr d = "" \/
   endsIn plainEnd (Collectors.labelCardinalityStr d)).
Proof.
  intros Hlabels. unfold Collectors.labelCardinalityStr.
  destruct (CJ.LabelCardinality d) as [labelCardinality|]; [|auto].
  destruct (0 <? Z.of_nat (size labelCardinality)); [|auto].
  pose proof (labelCardinality_parts labelCardinality (CJ.Labels d) []
                Hlabels (List.Forall_nil _)) as Hparts.
  set (built := fold_left _ (CJ.Labels d) []) in *.
  split.
  - apply hasByte_Join; [reflexivity|].
    eapply Forall_impl; [exact Hparts|]. now intros p [Hp _].
  - destruct built as [|p built'] eqn:Hp; [now left|]. right.
    apply Join_endsIn; [done|].
    eapply Forall_impl; [exact Hparts|]. now intros q [_ Hq].
Qed.

Section Line.
Context (d : CJ.t) (Hd : portableRecord d = true).

Lemma labels_plain :
  Forall (fun l => hasByte "|" l = false /\ hasByte "010" l = false /\
                   hasByte "," l = false /\ trimmed l = true /\ l <> "")
         (CJ.Labels d).
Proof.
  apply portableRecord_spec in Hd as (_ & _ & _ & Hl & _).
  eapply Forall_impl; [exact Hl|]. intros l Hp.
  apply plainLabel_spec in Hp as (Hn & Hc & He).
  apply plainName_spec in Hn as (? & ? & ?). auto.
Qed.

Lemma cardinality_digits (c : ascii) :
  isDigit c = false -> hasByte c (CJ.Cardinality d) = false.
Proof.
  intros Hc. apply portableRecord_spec in Hd as (_ & _ & _ & _ & Hdec & _).
  apply decimal_spec in Hdec as (x & rest & _ & _ & Hall).
  now apply hasByte_digits.
Qed.

Lemma lineText_no_newline : hasByte "010" (lineText d) = false.
Proof.
  pose proof labels_plain as Hl.
  pose proof (portableRecord_spec d Hd) as (Hj & _ & Hm & _).
  apply plainName_spec in Hj as (_ & Hj & _).
  apply plainName_spec in Hm as (_ & Hm & _).
  unfold lineText. rewrite !hasByte_app, Hj, Hm.
  rewrite (cardinality_digits "010" eq_refl).
  rewrite hasByte_Join;
    [|reflexivity|eapply Forall_impl; [exact Hl|]; now intros l (_ & ? & _)].
  destruct (labelCardinalityStr_spec d) as [-> _]; [|reflexivity].
  eapply Forall_impl; [exact Hl|]. now intros l (_ & ? & _).
Qed.

Lemma lineText_endsIn : endsIn plainEnd (lineText d).
Proof.
  destruct (labelCardinalityStr_spec d) as [_ [Hempty|Hends]].
  - pose proof labels_plain as Hl.
    eapply Forall_impl; [exact Hl|]. now intros l (_ & ? & _).
  - unfold lineText. rewrite Hempty.
    exists (CJ.Job d ++ "|" ++ CJ.MetricName d ++ "|"
            ++ Join (CJ.Labels d) "," ++ "|" ++ CJ.Cardinality d), "|"%char.
    split; [|reflexivity]. now rewrite !append_assoc.
  - unfold lineText. now do 8 apply endsIn_app.
Qed.

Lemma lineText_trimmed : trimmed (lineText d) = true.
Proof.
  apply trimmed_spec. split.
  - pose proof (portableRecord_spec d Hd) as (Hj & _).
    apply plainName_spec in Hj as (_ & _ & Hj).
    apply trimmed_spec in Hj as [Hj _].
    unfold lineText. rewrite byte_app, bytes_app.
    change (bytes (String "|" ?rest)) with ("|"%char :: bytes rest).
    apply stripAny_app_sep; [exact whiteSpace_avoids_pipe|exact Hj].
  - apply endsIn_plain_back, lineText_endsIn.
Qed.

Lemma lineText_dropCR : dropCR (lineText d) = lineText d.
Proof. apply endsIn_plain_dropCR, lineText_endsIn. Qed.

Lemma Join_labels_no_pipe : hasByte "|" (Join (CJ.Labels d) ",") = false.
Proof.
  apply hasByte_Join; [reflexivity|].
  eapply Forall_impl; [exact labels_plain|]. now intros l (? & _).
Qed.

Lemma lineText_Split :
  Split (lineText d) "|"
  = CJ.Job d :: CJ.MetricName d :: Join (CJ.Labels d) ","
      :: CJ.Cardinality d
      :: Split (Collectors.labelCardinalityStr d) "|".
Proof.
  pose proof (portableRecord_spec d Hd) as (Hj & _ & Hm & _).
  apply plainName_spec in Hj as (Hj & _).
  apply plainName_spec in Hm as (Hm & _).
  unfold lineText. rewrite !byte_app.
  rewrite (Split_app_sep _ _ _ Hj), (Split_app_sep _ _ _ Hm).
  rewrite (Split_app_sep _ _ _ Join_labels_no_pipe).
  now rewrite (Split_app_sep _ _ _ (cardinality_digits "|" eq_refl)).
Qed.

Lemma lineText_not_comment :
  (lineText d =s "") || HasPrefix (lineText d) "#" = false.
Proof.
  pose proof (portableRecord_spec d Hd) as (_ & Hh & _).
  unfold lineText. destruct (CJ.Job d) as [|c job]; [reflexivity|].
  rewrite append_cons. cbn in Hh |- *.
  rewrite andb_true_r in Hh. now rewrite Hh.
Qed.

Lemma lineText_fits : (MaxScanTokenSize <=? strlen (lineText d)) = false.
Proof.
  pose proof (portableRecord_spec d Hd) as (_ & _ & _ & _ & _ & _ & Hs).
  rewrite formatLine_lineText, strlen_app in Hs.
  change (strlen newline) with 1 in Hs. lia.
Qed.

End Line.

(** *** The label column *)

Lemma Join_front (encodings : list (list ascii)) (elems : list string) :
  avoids "," encodings = true ->
  Forall (fun e => stripAny encodings (bytes e) = None) elems ->
  elems <> [] ->
  stripAny encodings (bytes (Join elems ",")) = None.
Proof.
  intros Hav Hall Hne. destruct Hall as [|e rest He Hrest]; [done|].
  destruct rest as [|e' rest]; [exact He|].
  rewrite Join_cons, byte_app, bytes_app.
  change (bytes (String "," ?x)) with (","%char :: bytes x).
  now apply stripAny_app_sep.
Qed.

Lemma Join_back (encodings : list (list ascii)) (elems : list string) :
  avoids "," encodings = true ->
  Forall (fun e => stripAny encodings (rev (bytes e)) = None) elems ->
  elems <> [] ->
  stripAny encodings (rev (bytes (Join elems ","))) = None.
Proof.
  intros Hav Hall Hne. induction Hall as [|e rest He Hrest IH]; [done|].
  destruct rest as [|e' rest]; [exact He|].
  rewrite Join_cons, byte_app, bytes_app.
  change (bytes (String "," ?x)) with (","%char :: bytes x).
  rewrite rev_app_distr. cbn [rev]. rewrite <- app_assoc. cbn [app].
  apply stripAny_app_sep; [exact Hav|]. now apply IH.
Qed.

Lemma Join_trimmed (labels : list string) :
  Forall (fun l => trimmed l = true) labels ->
  trimmed (Join labels ",") = true.
Proof.
  intros Hall. destruct labels as [|l labels]; [reflexivity|].
  apply trimmed_spec. split.
  - apply Join_front; [exact whiteSpace_avoids_comma| |done].
    eapply Forall_impl; [exact Hall|]. now intros x [? _]%trimmed_spec.
  - apply Join_back; [exact reversed_avoids_comma| |done].
    eapply Forall_impl; [exact Hall|]. now intros x [_ ?]%trimmed_spec.
Qed.

Lemma cleanLabels_loop (labels clean : list string) :
  Forall (fun l => trimmed l = true /\ l <> "") labels ->
  fold_left
    (fun clean label =>
       let cleanLabel := TrimSpace label in
       if negb (cleanLabel =s "") then (clean ++ [cleanLabel])%list
       else clean) labels clean
  = (clean ++ labels)%list.
Proof.
  intros Hall. revert clean.
  induction Hall as [|l labels [Ht Hne] _ IH]; intros clean.
  - now rewrite app_nil_r.
  - cbn [fold_left]. cbn zeta. rewrite (TrimSpace_trimmed l Ht).
    apply String.eqb_neq in Hne. rewrite Hne. cbn [negb].
    rewrite IH, <- app_assoc. reflexivity.
Qed.

(** Splitting the joined labels and cleaning them gives the labels back. *)
Lemma cleanLabels_Split_Join (labels : list string) :
  Forall (fun l => hasByte "," l = false /\ trimmed l = true /\ l <> "")
         labels ->
  Loaders.cleanLabels (Split (Join labels ",") ",") = labels.
Proof.
  intros Hall. destruct labels as [|l labels]; [vm_compute; reflexivity|].
  rewrite Split_Join;
    [|done|eapply Forall_impl; [exact Hall|]; now intros x (? & _)].
  unfold Loaders.cleanLabels. rewrite cleanLabels_loop; [reflexivity|].
  eapply Forall_impl; [exact Hall|]. now intros x (_ & ? & ?).
Qed.

(** *** Parsing a line back *)

Lemma parseLine_lineText (d : CJ.t) (data : list LJ.t) :
  portableRecord d = true ->
  exists r, Loaders.parseLine data (lineText d) = (data ++ [r])%list /\
            loadedKey r = writtenKey d.
Proof.
  intros Hd. unfold Loaders.parseLine. cbn zeta.
  rewrite (TrimSpace_trimmed _ (lineText_trimmed d Hd)).
  rewrite (lineText_not_comment d Hd), (lineText_Split d Hd).
  set (rest := Split (Collectors.labelCardinalityStr d) "|").
  assert (Hlen : (len (CJ.Job d :: CJ.MetricName d
                         :: Join (CJ.Labels d) "," :: CJ.Cardinality d
                         :: rest) <? 4) = false).
  { apply Z.ltb_ge. unfold len. cbn [length]. lia. }
  rewrite Hlen. unfold Loaders.part. cbn [lookup list_lookup default].
  unfold id.
  pose proof (portableRecord_spec d Hd)
    as (Hj & _ & Hm & _ & Hdec & Hmax & _).
  apply plainName_spec in Hj as (_ & _ & Hj).
  apply plainName_spec in Hm as (_ & _ & Hm).
  pose proof (labels_plain d Hd) as Hl.
  rewrite (TrimSpace_trimmed _ (decimal_trimmed _ Hdec)).
  rewrite (ParseInt_decimal _ Hdec Hmax).
  eexists. split; [reflexivity|].
  unfold loadedKey, writtenKey. cbn [LJ.Job LJ.MetricName LJ.Labels
                                      LJ.Cardinality].
  rewrite (TrimSpace_trimmed _ Hj), (TrimSpace_trimmed _ Hm).
  rewrite TrimSpace_trimmed.
  - rewrite cleanLabels_Split_Join; [reflexivity|].
    eapply Forall_impl; [exact Hl|]. now intros x (_ & _ & ? & ? & ?).
  - apply Join_trimmed.
    eapply Forall_impl; [exact Hl|]. now intros x (_ & _ & _ & ? & _).
Qed.

Lemma parseLine_lines (records : list CJ.t) (data : list LJ.t) :
  Forall (fun d => portableRecord d = true) records ->
  exists rs,
    fold_left Loaders.parseLine (map lineText records) data
    = (data ++ rs)%list /\
    map loadedKey rs = map writtenKey records.
Proof.
  intros Hall. revert data.
  induction Hall as [|d records Hd _ IH]; intros data.
  - exists []. now rewrite app_nil_r.
  - cbn [map fold_left].
    destruct (parseLine_lineText d data Hd) as (r & -> & Hr).
    destruct (IH (data ++ [r])%list) as (rs & -> & Hrs).
    exists (r :: rs). rewrite <- app_assoc. cbn [map app].
    now rewrite Hr, Hrs.
Qed.

(** *** Scanning a file *)

Lemma Split_linesText (records : list CJ.t) :
  Forall (fun d => portableRecord d = true) records ->
  Split (linesText records) "010" = (map lineText records ++ [""])%list.
Proof.
  induction 1 as [|d records Hd _ IH]; [reflexivity|].
  cbn [linesText foldr map app]. fold (linesText records).
  rewrite formatLine_lineText, append_assoc. unfold newline.
  rewrite byte_app, Split_app_sep by now apply lineText_no_newline.
  now rewrite IH.
Qed.

Lemma scanLines_lines (lines : list string) :
  Forall (fun l => (MaxScanTokenSize <=? strlen l) = false /\ dropCR l = l)
         lines ->
  scanLines (lines ++ [""]) = (lines, None).
Proof.
  induction 1 as [|l lines [Hfit Hcr] _ IH]; [reflexivity|].
  cbn [app scanLines]. rewrite Hfit, IH, Hcr.
  destruct (lines ++ [""])%list eqn:Hrest; [|reflexivity].
  now destruct lines.
Qed.

Lemma Scan_fileText (records : list CJ.t) :
  Forall (fun d => portableRecord d = true) records ->
  Scan (fileText records) = (headerText :: map lineText records, None).
Proof.
  intros Hall. unfold Scan, fileText, Collectors.header.
  fold headerText. rewrite append_assoc. unfold newline.
  rewrite byte_app, Split_app_sep by reflexivity.
  rewrite (Split_linesText records Hall).
  apply (scanLines_lines (headerText :: map lineText records)).
  constructor; [split; reflexivity|].
  apply Forall_map. eapply Forall_impl; [exact Hall|].
  intros d Hd. cbn beta.
  split; [now apply lineText_fits|now apply lineText_dropCR].
Qed.

(** Loading a file that holds the lines of portable records gives their
    tuples back, in order and without error. *)
Lemma LoadJobMetricReport_fileText (dir : gmap string string)
    (filename : string) (records : list CJ.t) :
  dir !! filename = Some (fileText records) ->
  Forall (fun d => portableRecord d = true) records ->
  exists rs,
    Loaders.LoadJobMetricReport dir filename = (rs, None) /\
    map loadedKey rs = map writtenKey records.
Proof.
  intros Hfile Hall. unfold Loaders.LoadJobMetricReport.
  rewrite Hfile, (Scan_fileText records Hall). cbn [tail].
  destruct (parseLine_lines records [] Hall) as (rs & -> & Hrs).
  now exists rs.
Qed.

(** *** Writing *)

Lemma seen_app (job : string) (done : list CJ.t) (d : CJ.t) :
  seen job (done ++ [d]) = seen job done || (CJ.Job d =s job).
Proof. unfold seen. rewrite existsb_app. cbn. now rewrite orb_false_r. Qed.

Lemma seen_spec (job : string) (done : list CJ.t) :
  seen job done = true <-> exists d, d ∈ done /\ CJ.Job d = job.
Proof.
  unfold seen. rewrite existsb_exists. split.
  - intros (d & Hin & Heq). exists d.
    split; [now apply list_elem_of_In|now apply String.eqb_eq].
  - intros (d & Hin & Heq). exists d.
    split; [now apply list_elem_of_In|now apply String.eqb_eq].
Qed.

Lemma recordsOf_app (job : string) (done : list CJ.t) (d : CJ.t) :
  recordsOf job (done ++ [d])
  = (recordsOf job done ++ if CJ.Job d =s job then [d] else [])%list.
Proof. unfold recordsOf. rewrite List.filter_app. reflexivity. Qed.

Lemma recordsOf_unseen (job : string) (done : list CJ.t) :
  seen job done = false -> recordsOf job done = [].
Proof.
  unfold seen, recordsOf. induction done as [|d done IH]; [reflexivity|].
  cbn. intros [Hd Hrest]%orb_false_iff. rewrite Hd. now apply IH.
Qed.

Lemma linesText_app (records : list CJ.t) (d : CJ.t) :
  linesText (records ++ [d]) = linesText records ++ Collectors.formatLine d.
Proof.
  unfold linesText. induction records as [|r records IH].
  - cbn. now rewrite append_nil_r.
  - cbn [app foldr]. now rewrite IH, append_assoc.
Qed.

Lemma fileText_app (records : list CJ.t) (d : CJ.t) :
  fileText (records ++ [d]) = fileText records ++ Collectors.formatLine d.
Proof. unfold fileText. now rewrite linesText_app, append_assoc. Qed.

(** One record more keeps the writer's invariant. *)
Lemma writeRecord_invariant (canCreate : string -> bool)
    (st : Collectors.writerState) (done : list CJ.t) (d : CJ.t) :
  writerInvariant st done ->
  canCreate (Collectors.fileName (CJ.Job d)) = true ->
  distinctFiles (done ++ [d]) ->
  exists st',
    Collectors.writeRecord canCreate (Some st) d = Some st' /\
    writerInvariant st' (done ++ [d]).
Proof.
  intros (Hskip & Hjobs & Hfiles & Hdom) Hcreate Hdistinct.
  set (job := CJ.Job d). set (file := Collectors.fileName job).
  assert (Hother : forall j, seen j (done ++ [d]) = true -> j <> job ->
                             Collectors.fileName j <> file).
  { intros j Hj Hne Heq. apply Hne.
    apply seen_spec in Hj as (dj & Hin & <-).
    apply (Hdistinct dj d); [exact Hin| |exact Heq].
    apply elem_of_app. right. left. }
  assert (Hnew : forall files',
             files' !! file
             = Some (fileText (recordsOf job (done ++ [d]))) ->
             (forall f, f <> file ->
                        files' !! f = Collectors.files st !! f) ->
             writerInvariant
               (Collectors.mkWriterState
                  (if seen job done then Collectors.jobFiles st
                   else <[job := file]> (Collectors.jobFiles st))
                  files' (Collectors.skippedJobs st)
                  (Collectors.writeErrors st))
               (done ++ [d])).
  { intros files' Hfile Hrest. repeat split; cbn.
    - exact Hskip.
    - intros j. rewrite seen_app.
      destruct (String.eqb_spec job j) as [<-|Hne].
      + change (CJ.Job d) with job. rewrite String.eqb_refl, orb_true_r.
        destruct (seen job done) eqn:Hs.
        * now rewrite Hjobs, Hs.
        * now rewrite lookup_insert_eq.
      + change (CJ.Job d) with job.
        destruct (String.eqb_spec job j) as [?|_]; [done|].
        rewrite orb_false_r.
        destruct (seen job done); [apply Hjobs|].
        rewrite lookup_insert_ne by exact Hne. apply Hjobs.
    - intros j Hj. destruct (String.eqb_spec j job) as [->|Hne].
      + exact Hfile.
      + rewrite Hrest by now apply Hother.
        rewrite seen_app in Hj. rewrite recordsOf_app.
        change (CJ.Job d) with job in Hj |- *.
        destruct (String.eqb_spec job j) as [?|_]; [done|].
        rewrite orb_false_r in Hj.
        rewrite app_nil_r. now apply Hfiles.
    - intros f Hf. destruct (String.eqb_spec f file) as [->|Hne].
      + exists d. split; [apply elem_of_app; right; left|reflexivity].
      + rewrite Hrest in Hf by exact Hne.
        destruct (Hdom f Hf) as (d0 & Hin & Heq).
        exists d0. split; [apply elem_of_app; now left|exact Heq]. }
  unfold Collectors.writeRecord. cbn [mbind option_bind].
  fold job. fold file.
  rewrite Hskip. rewrite bool_decide_eq_false_2 by set_solver.
  rewrite Hjobs. destruct (seen job done) eqn:Hseen; cbn [mbind option_bind].
  - eexists. split; [reflexivity|].
    specialize (Hnew (<[file := default "" (Collectors.files st !! file)
                                ++ Collectors.formatLine d]>
                        (Collectors.files st))).
    apply Hnew.
    + rewrite lookup_insert_eq. unfold file. rewrite (Hfiles job Hseen).
      cbn [default]. unfold id. rewrite recordsOf_app.
      change (CJ.Job d) with job.
      rewrite String.eqb_refl. now rewrite fileText_app.
    + intros f Hne. now rewrite lookup_insert_ne.
  - change (canCreate file = true) in Hcreate. rewrite Hcreate. cbn [negb].
    rewrite bool_decide_eq_false_2; cbn [mbind option_bind].
    + eexists. split; [reflexivity|]. cbn [Collectors.files
        Collectors.jobFiles Collectors.skippedJobs Collectors.writeErrors].
      specialize (Hnew (<[file := default "" (<[file := Collectors.header]>
                                              (Collectors.files st) !! file)
                                  ++ Collectors.formatLine d]>
                          (<[file := Collectors.header]>
                             (Collectors.files st)))).
      rewrite Hskip in Hnew. apply Hnew.
      * rewrite !lookup_insert_eq. cbn [default]. unfold id.
        rewrite recordsOf_app. change (CJ.Job d) with job.
        rewrite String.eqb_refl.
        rewrite (recordsOf_unseen job done Hseen). cbn [app].
        unfold fileText, linesText. cbn [foldr].
        now rewrite append_nil_r.
      * intros f Hne. now rewrite !lookup_insert_ne.
    + intros Hin. apply elem_of_dom in Hin.
      destruct (Hdom file Hin) as (d0 & Hin0 & Heq).
      assert (Hsame : CJ.Job d0 = job).
      { apply (Hdistinct d0 d); [apply elem_of_app; now left| |exact Heq].
        apply elem_of_app. right. left. }
      assert (Hs : seen job done = true)
        by (apply seen_spec; now exists d0).
      congruence.
Qed.

Lemma distinctFiles_prefix (done rest : list CJ.t) :
  distinctFiles (done ++ rest) -> distinctFiles done.
Proof.
  intros Hd d1 d2 H1 H2. apply Hd; apply elem_of_app; now left.
Qed.

Lemma write_loop_invariant (canCreate : string -> bool)
    (rest done : list CJ.t) (st : Collectors.writerState) :
  writerInvariant st done ->
  Forall (fun d => canCreate (Collectors.fileName (CJ.Job d)) = true) rest ->
  distinctFiles (done ++ rest) ->
  exists st',
    fold_left (Collectors.writeRecord canCreate) rest (Some st) = Some st' /\
    writerInvariant st' (done ++ rest).
Proof.
  revert done st. induction rest as [|d rest IH]; intros done st Hinv Hc Hd.
  - exists st. now rewrite app_nil_r.
  - apply Forall_cons in Hc as [Hcd Hc]. cbn [fold_left].
    replace (done ++ d :: rest)%list with ((done ++ [d]) ++ rest)%list in *
      by now rewrite <- app_assoc.
    destruct (writeRecord_invariant canCreate st done d Hinv Hcd)
      as (st1 & -> & Hinv1); [now apply distinctFiles_prefix in Hd|].
    now apply IH.
Qed.

Lemma initial_invariant :
  writerInvariant (Collectors.mkWriterState ∅ ∅ ∅ []) [].
Proof.
  split; [reflexivity|]. split; [|split]; cbn.
  - intros job. apply lookup_empty.
  - discriminate.
  - intros file [x Hx]. now rewrite lookup_empty in Hx.
Qed.

Lemma distinctFilesb_spec (allData : list CJ.t) :
  distinctFilesb allData = true -> distinctFiles allData.
Proof.
  unfold distinctFilesb, distinctFiles. rewrite forallb_forall.
  intros Hall d1 d2 H1 H2 Heq.
  apply list_elem_of_In in H1, H2.
  specialize (Hall d1 H1). rewrite forallb_forall in Hall.
  specialize (Hall d2 H2). apply String.eqb_eq in Heq.
  rewrite Heq in Hall. now apply String.eqb_eq.
Qed.

Lemma recordsOf_portable (job : string) (allData : list CJ.t) :
  Forall (fun d => portableRecord d = true) allData ->
  Forall (fun d => portableRecord d = true) (recordsOf job allData).
Proof.
  intros Hall. apply Forall_forall. intros d Hin.
  apply list_elem_of_In, List.filter_In in Hin as [Hin _].
  apply (proj1 (Forall_forall _ _) Hall). now apply list_elem_of_In.
Qed.

(** C9 (amended): when every record has job, metric and label names
    without pipe and newline characters and without white space at their
    ends, a job name that does not start with [#], non-empty labels
    without commas, a decimal cardinality within int64 and a line shorter
    than the scanner's 64 KiB token limit, and distinct jobs are written
    to distinct files that can all be created, then writing the
    per-job files and parsing them back yields the same set of
    (job, metricName, labels, cardinality) tuples, every file loading
    without error. *)
Theorem record_files_round_trip (canCreate : string -> bool)
    (allData : list CJ.t) :
  forallb portableRecord allData = true ->
  distinctFilesb allData = true ->
  forallb (fun d => canCreate (Collectors.fileName (CJ.Job d))) allData
  = true ->
  exists dir,
    Collectors.WritePerJobFiles canCreate allData = Some dir /\
    roundTrip allData dir /\ loadsCleanly allData dir.
Proof.
  intros Hportable Hdistinct Hcreate.
  assert (Hp : Forall (fun d => portableRecord d = true) allData).
  { apply Forall_forall. intros d Hin.
    apply (proj1 (forallb_forall _ _) Hportable). now apply list_elem_of_In. }
  assert (Hc : Forall (fun d => canCreate (Collectors.fileName (CJ.Job d))
                                = true) allData).
  { apply Forall_forall. intros d Hin.
    apply (proj1 (forallb_forall _ _) Hcreate). now apply list_elem_of_In. }
  apply distinctFilesb_spec in Hdistinct.
  destruct (write_loop_invariant canCreate allData [] _ initial_invariant
              Hc Hdistinct) as (st & Hfold & Hinv).
  cbn [app] in Hinv. destruct Hinv as (_ & _ & Hfiles & Hdom).
  exists (Collectors.files st). unfold Collectors.WritePerJobFiles.
  rewrite Hfold. split; [reflexivity|].
  assert (Hload : forall job,
             seen job allData = true ->
             exists rs,
               Loaders.LoadJobMetricReport (Collectors.files st)
                 (Collectors.fileName job) = (rs, None) /\
               map loadedKey rs = map writtenKey (recordsOf job allData)).
  { intros job Hseen.
    apply (LoadJobMetricReport_fileText _ _ _ (Hfiles job Hseen)).
    now apply recordsOf_portable. }
  split.
  - intros k. split.
    + intros (d & -> & Hin)%list_elem_of_fmap.
      assert (Hseen : seen (CJ.Job d) allData = true)
        by (apply seen_spec; now exists d).
      destruct (Hload _ Hseen) as (rs & Hrs & Hkeys).
      exists (Collectors.fileName (CJ.Job d)). rewrite Hrs. cbn [fst].
      rewrite Hkeys. apply list_elem_of_fmap. exists d.
      split; [reflexivity|].
      apply list_elem_of_In, List.filter_In. split.
      * now apply list_elem_of_In.
      * apply String.eqb_refl.
    + intros (filename & Hk).
      destruct (Collectors.files st !! filename) as [content|] eqn:Hfile.
      * destruct (Hdom filename) as (d & Hin & <-);
          [rewrite Hfile; now eexists|].
        assert (Hseen : seen (CJ.Job d) allData = true)
          by (apply seen_spec; now exists d).
        destruct (Hload _ Hseen) as (rs & Hrs & Hkeys).
        rewrite Hrs in Hk. cbn [fst] in Hk. rewrite Hkeys in Hk.
        apply list_elem_of_fmap in Hk as (d' & -> & Hin').
        apply list_elem_of_fmap. exists d'. split; [reflexivity|].
        apply list_elem_of_In, List.filter_In in Hin' as [Hin' _].
        now apply list_elem_of_In.
      * unfold Loaders.LoadJobMetricReport in Hk. rewrite Hfile in Hk.
        inversion Hk.
  - apply Forall_forall. intros d Hin.
    assert (Hseen : seen (CJ.Job d) allData = true)
      by (apply seen_spec; now exists d).
    destruct (Hload _ Hseen) as (rs & -> & _). reflexivity.
Qed.

Lemma example_files_round_trip :
  exists dir,
    Collectors.WritePerJobFiles (fun _ => true)
      [Demo.apiRecord; Demo.upRecord] = Some dir /\
    roundTrip [Demo.apiRecord; Demo.upRecord] dir /\
    loadsCleanly [Demo.apiRecord; Demo.upRecord] dir.
Proof.
  apply (record_files_round_trip (fun _ => true)
           [Demo.apiRecord; Demo.upRecord]).
  - vm_compute. reflexivity.
  - vm_compute. reflexivity.
  - vm_compute. reflexivity.
Defined.

(** The job name ends in a space: its file reads back as the job
    without the space, a tuple that was never written. *)
Lemma padded_job_does_not_round_trip :
  ~ (forall (canCreate : string -> bool) (allData : list CJ.t)
       (dir : gmap string string),
        (forall file, canCreate file = true) ->
        forallb claimedRecord allData = true ->
        Collectors.WritePerJobFiles canCreate allData = Some dir ->
        roundTrip allData dir).
Proof.
  intros Hclaim.
  pose (dir := default ∅ (Collectors.WritePerJobFiles (fun _ => true)
                            [Demo.paddedRecord])).
  assert (Hwrite : Collectors.WritePerJobFiles (fun _ => true)
                     [Demo.paddedRecord] = Some dir)
    by (vm_compute; reflexivity).
  assert (Hload : map loadedKey
                    (Loaders.LoadJobMetricReport dir "batch .txt").1
                  = [("batch", "up", ["instance"], 1)])
    by (vm_compute; reflexivity).
  specialize (Hclaim (fun _ => true) [Demo.paddedRecord] dir
                (fun _ => eq_refl) eq_refl Hwrite
                ("batch", "up", ["instance"], 1)).
  destruct Hclaim as [_ Hback].
  assert (Hin : ("batch", "up", ["instance"], 1)
                ∈ map writtenKey [Demo.paddedRecord]).
  { apply Hback. exists "batch .txt". rewrite Hload. left. }
  apply list_elem_of_singleton in Hin. discriminate Hin.
Qed.

End RecordFacts.
(** ** Properties of the exclusion list *)

Module ExclusionFacts.
Import Exclusions ExclusionSpec.

Section WithLib.
Context `{lib : Lib}.

Lemma compilePatterns_spec (exclusions : list ExclusionEntry) (i : Z)
    (acc patterns : list (option Regexp)) :
  compilePatterns i exclusions acc = Ok patterns <->
  forallb compiles exclusions = true /\
  patterns = (acc ++ map compiled exclusions)%list.
Proof.
  revert i acc. induction exclusions as [|x rest IH]; intros i acc.
  - cbn. rewrite app_nil_r. split.
    + intros [= ->]. auto.
    + intros [_ ->]. reflexivity.
  - cbn [compilePatterns forallb map]. unfold compiles at 1, compiled at 1.
    destruct (JobNamePattern x =s "") eqn:Hempty; cbn [negb orb andb].
    + rewrite IH, <- app_assoc. reflexivity.
    + destruct (regexp_Compile (JobNamePattern x)) as [pattern|].
      * rewrite IH, <- app_assoc. reflexivity.
      * split; [discriminate|]. intros [? _]. discriminate.
Qed.

Lemma NewRuleEngine_built (files : gmap string string)
    (unmarshal : string -> result RulesConfig) (rulesFile : string)
    (e : RuleEngine) :
  NewRuleEngine files unmarshal rulesFile = Ok e <->
  exists data config,
    files !! rulesFile = Some data /\ unmarshal data = Ok config /\
    forallb compiles (ExclusionList config) = true /\
    e = engineOf config.
Proof.
  unfold NewRuleEngine. split.
  - destruct (files !! rulesFile) as [data|]; [|discriminate].
    destruct (unmarshal data) as [config|] eqn:Hconfig; [|discriminate].
    destruct (compilePatterns 0 (ExclusionList config) []) as [patterns|]
      eqn:Hpatterns; [|discriminate].
    intros [= <-]. apply compilePatterns_spec in Hpatterns as [Hall ->].
    exists data, config. auto.
  - intros (data & config & -> & -> & Hall & ->).
    destruct (compilePatterns 0 (ExclusionList config) []) as [patterns|]
      eqn:Hpatterns.
    + apply compilePatterns_spec in Hpatterns as [_ ->]. reflexivity.
    + assert (Hok : compilePatterns 0 (ExclusionList config) []
                    = Ok (map compiled (ExclusionList config)))
        by (apply compilePatterns_spec; auto).
      congruence.
Qed.

Lemma aligned_cons (e : RuleEngine) (i : nat) (x : ExclusionEntry)
    (rest : list ExclusionEntry) :
  aligned e i (x :: rest) ->
  exclusionPatterns e !! i = Some (compiled x) /\ aligned e (S i) rest.
Proof.
  intros H. split.
  - specialize (H 0%nat x eq_refl). now rewrite Nat.add_0_r in H.
  - intros k y Hy. specialize (H (S k) y Hy).
    now rewrite Nat.add_succ_r in H.
Qed.

Lemma aligned_engineOf (config : RulesConfig) :
  aligned (engineOf config) 0 (exclusionList (engineOf config)).
Proof.
  intros k x Hx. cbn in *. now rewrite list_lookup_fmap, Hx.
Qed.

Lemma IsJobExcluded_loop_spec (e : RuleEngine) (rest : list ExclusionEntry)
    (i : nat) (jobName : string) :
  aligned e i rest ->
  IsJobExcluded_loop e i rest jobName
  = Some (existsb (excludesJob jobName) rest).
Proof.
  revert i. induction rest as [|x rest IH]; intros i Hal; [reflexivity|].
  apply aligned_cons in Hal as [Hx Hal].
  cbn [IsJobExcluded_loop existsb]. rewrite Hx, (IH _ Hal).
  unfold excludesJob, appliesTo, compiled.
  destruct (JobNamePattern x =s ""), (Job x =s ""), (Job x =s jobName),
    (len (Metrics x) =? 0); cbn [negb andb orb]; try reflexivity;
    (destruct (regexp_Compile (JobNamePattern x)) as [pattern|];
     [destruct (MatchString pattern jobName)|]; reflexivity).
Qed.

Lemma IsMetricExcluded_loop_spec (e : RuleEngine)
    (rest : list ExclusionEntry) (i : nat) (jobName metricName : string) :
  aligned e i rest ->
  IsMetricExcluded_loop e i rest jobName metricName
  = Some (existsb (excludesMetric jobName metricName) rest).
Proof.
  revert i. induction rest as [|x rest IH]; intros i Hal; [reflexivity|].
  apply aligned_cons in Hal as [Hx Hal].
  cbn [IsMetricExcluded_loop existsb]. rewrite Hx, (IH _ Hal).
  unfold excludesMetric, appliesTo, compiled.
  destruct (JobNamePattern x =s ""), (Job x =s ""), (Job x =s jobName),
    (len (Metrics x) =? 0),
    (existsb (fun excludedMetric => excludedMetric =s metricName)
             (Metrics x));
    cbn [negb andb orb]; try reflexivity;
    (destruct (regexp_Compile (JobNamePattern x)) as [pattern|];
     [destruct (MatchString pattern jobName)|]; reflexivity).
Qed.

Lemma built_aligned (files : gmap string string)
    (unmarshal : string -> result RulesConfig) (rulesFile : string)
    (e : RuleEngine) :
  NewRuleEngine files unmarshal rulesFile = Ok e ->
  aligned e 0 (exclusionList e).
Proof.
  intros (data & config & _ & _ & _ & ->)%NewRuleEngine_built.
  apply aligned_engineOf.
Qed.

Lemma IsJobExcluded_aligned (e : RuleEngine) (jobName : string) :
  aligned e 0 (exclusionList e) ->
  IsJobExcluded e jobName
  = Some (existsb (excludesJob jobName) (exclusionList e)).
Proof. apply IsJobExcluded_loop_spec. Qed.

Lemma IsMetricExcluded_aligned (e : RuleEngine)
    (jobName metricName : string) :
  aligned e 0 (exclusionList e) ->
  IsMetricExcluded e jobName metricName
  = Some (negb (kept e jobName metricName)).
Proof.
  intros Hal. unfold kept. rewrite negb_involutive.
  now apply IsMetricExcluded_loop_spec.
Qed.

Lemma excludesJob_excludesMetric (jobName metricName : string)
    (x : ExclusionEntry) :
  excludesJob jobName x = true -> excludesMetric jobName metricName x = true.
Proof.
  unfold excludesJob, excludesMetric.
  intros [-> ->]%andb_true_iff. reflexivity.
Qed.

Lemma excluded_job_keeps_nothing (e : RuleEngine)
    (jobName metricName : string) :
  existsb (excludesJob jobName) (exclusionList e) = true ->
  kept e jobName metricName = false.
Proof.
  unfold kept. intros (x & Hin & Hx)%existsb_exists.
  apply negb_false_iff, existsb_exists. exists x. split; [exact Hin|].
  now apply excludesJob_excludesMetric.
Qed.

Lemma keepIncluded_loop {T} `{Engine.MetricRow T} (e : RuleEngine)
    (jobName : string) (data acc : list T) :
  aligned e 0 (exclusionList e) ->
  fold_left (keepIncluded e jobName) data (Some acc)
  = Some (acc ++ List.filter
                   (fun d => kept e jobName (Engine.metricNameOf d)) data)%list.
Proof.
  intros Hal. revert acc.
  induction data as [|d data IH]; intros acc; cbn [fold_left List.filter].
  - now rewrite app_nil_r.
  - unfold keepIncluded at 2. cbn [mbind option_bind].
    rewrite (IsMetricExcluded_aligned _ _ _ Hal). cbn [mbind option_bind].
    rewrite negb_involutive.
    destruct (kept e jobName (Engine.metricNameOf d)).
    + rewrite IH, <- app_assoc. reflexivity.
    + apply IH.
Qed.

Lemma FilterExcludedMetrics_aligned (e : RuleEngine) (jobName : string)
    (cardinalityData : list CardinalityData.t)
    (labelsData : list LabelsData.t) :
  aligned e 0 (exclusionList e) ->
  FilterExcludedMetrics e jobName cardinalityData labelsData
  = Some (List.filter
            (fun d => kept e jobName (CardinalityData.MetricName d))
            cardinalityData,
          List.filter
            (fun d => kept e jobName (LabelsData.MetricName d))
            labelsData).
Proof.
  intros Hal. unfold FilterExcludedMetrics.
  rewrite !keepIncluded_loop by exact Hal. reflexivity.
Qed.

Lemma filter_nothing {T} (f : T -> bool) (data : list T) :
  (forall d, f d = false) -> List.filter f data = [].
Proof.
  intros Hf. induction data as [|d data IH]; [reflexivity|].
  cbn. now rewrite Hf.
Qed.

(** *** The converters *)

Lemma append_loop {A B} (f : A -> B) (l : list A) (acc : list B) :
  fold_left (fun data a => (data ++ [f a])%list) l acc
  = (acc ++ map f l)%list.
Proof.
  revert acc. induction l as [|a l IH]; intros acc; cbn [fold_left map].
  - now rewrite app_nil_r.
  - rewrite IH, <- app_assoc. reflexivity.
Qed.

Lemma ConvertJobMetricToCardinality_map
    (jobData : list Loaders.JobMetricData.t) :
  Reports.ConvertJobMetricToCardinality jobData
  = map (fun jm =>
           CardinalityData.mk (Loaders.JobMetricData.MetricName jm)
                              (Loaders.JobMetricData.Cardinality jm))
        jobData.
Proof. exact (append_loop _ jobData []). Qed.

Lemma ConvertJobMetricToLabels_map
    (jobData : list Loaders.JobMetricData.t) :
  Reports.ConvertJobMetricToLabels jobData
  = map (fun jm =>
           LabelsData.mk (Loaders.JobMetricData.MetricName jm)
                         (Loaders.JobMetricData.Labels jm))
        jobData.
Proof. exact (append_loop _ jobData []). Qed.

Lemma filter_map_comm {A B} (f : A -> B) (p : B -> bool) (l : list A) :
  List.filter p (map f l) = map f (List.filter (fun a => p (f a)) l).
Proof.
  induction l as [|a l IH]; [reflexivity|].
  cbn. destruct (p (f a)); cbn; now rewrite IH.
Qed.

(** *** The engine a rules file yields *)

(** [NewRuleEngine] succeeds exactly on a readable file that decodes
    and whose non-empty job-name patterns all compile; the engine then
    holds the rules and the exclusion list of the file and, for every
    entry, at the entry's index, the entry's compiled pattern.  It
    fails on a missing file, on a file that does not decode, and on an
    entry whose pattern is not a valid expression. *)
Theorem NewRuleEngine_outcome (files : gmap string string)
    (unmarshal : string -> result RulesConfig) (rulesFile : string) :
  match NewRuleEngine files unmarshal rulesFile with
  | Ok e =>
      exists data config,
        files !! rulesFile = Some data /\ unmarshal data = Ok config /\
        rules e = Rules config /\
        exclusionList e = ExclusionList config /\
        length (exclusionPatterns e) = length (exclusionList e) /\
        forall i x, exclusionList e !! i = Some x ->
                    compiles x = true /\
                    exclusionPatterns e !! i = Some (compiled x)
  | Err _ =>
      files !! rulesFile = None \/
      exists data,
        files !! rulesFile = Some data /\
        (is_ok (unmarshal data) = false \/
         exists config x,
           unmarshal data = Ok config /\ x ∈ ExclusionList config /\
           compiles x = false)
  end.
Proof.
  destruct (NewRuleEngine files unmarshal rulesFile) as [e|msg] eqn:Hnew.
  - apply NewRuleEngine_built in Hnew
      as (data & config & Hfile & Hconfig & Hall & ->).
    exists data, config. repeat split; try assumption.
    + cbn. now rewrite length_map.
    + cbn in H. apply list_elem_of_lookup_2, list_elem_of_In in H.
      rewrite forallb_forall in Hall. auto.
    + cbn in *. now rewrite list_lookup_fmap, H.
  - destruct (files !! rulesFile) as [data|] eqn:Hfile; [|now left].
    right. exists data. split; [reflexivity|].
    destruct (unmarshal data) as [config|] eqn:Hconfig; [|now left].
    right.
    destruct (forallb compiles (ExclusionList config)) eqn:Hall.
    + assert (Hok : NewRuleEngine files unmarshal rulesFile
                    = Ok (engineOf config))
        by (apply NewRuleEngine_built; exists data, config; auto).
      congruence.
    + apply not_true_iff_false in Hall.
      rewrite forallb_forall in Hall.
      destruct (existsb (fun x => negb (compiles x)) (ExclusionList config))
        eqn:Hex.
      * apply existsb_exists in Hex as (x & Hin & Hx).
        exists config, x. split; [reflexivity|].
        split; [now apply list_elem_of_In|].
        now apply negb_true_iff.
      * exfalso. apply Hall. intros x Hin.
        apply not_true_iff_false in Hex. rewrite existsb_exists in Hex.
        destruct (compiles x) eqn:Hx; [reflexivity|].
        exfalso. apply Hex. exists x. now rewrite Hx.
Qed.

(** On an engine built by [NewRuleEngine] the two queries never index
    the pattern list out of range, and they answer what the entries
    say: a job is excluded when an entry without metrics applies to
    it, a metric when an entry applies to its job that has no metrics
    or lists the metric. *)
Theorem exclusion_queries_follow_the_entries (files : gmap string string)
    (unmarshal : string -> result RulesConfig) (rulesFile : string)
    (e : RuleEngine) (jobName metricName : string) :
  NewRuleEngine files unmarshal rulesFile = Ok e ->
  IsJobExcluded e jobName
  = Some (existsb (excludesJob jobName) (exclusionList e)) /\
  IsMetricExcluded e jobName metricName
  = Some (existsb (excludesMetric jobName metricName) (exclusionList e)).
Proof.
  intros Hal%built_aligned. split.
  - now apply IsJobExcluded_aligned.
  - now apply IsMetricExcluded_loop_spec.
Qed.

(** A job that [IsJobExcluded] reports as excluded has every metric
    excluded, and the filter leaves nothing of its data. *)
Theorem excluded_job_has_every_metric_excluded
    (files : gmap string string)
    (unmarshal : string -> result RulesConfig) (rulesFile : string)
    (e : RuleEngine) (jobName : string) :
  NewRuleEngine files unmarshal rulesFile = Ok e ->
  IsJobExcluded e jobName = Some true ->
  (forall metricName, IsMetricExcluded e jobName metricName = Some true) /\
  (forall cardinalityData labelsData,
      FilterExcludedMetrics e jobName cardinalityData labelsData
      = Some ([], [])).
Proof.
  intros Hal%built_aligned Hjob.
  rewrite IsJobExcluded_aligned in Hjob by exact Hal.
  injection Hjob as Hjob. split.
  - intros metricName.
    rewrite IsMetricExcluded_aligned by exact Hal.
    now rewrite excluded_job_keeps_nothing.
  - intros cardinalityData labelsData.
    rewrite FilterExcludedMetrics_aligned by exact Hal.
    rewrite !filter_nothing; [reflexivity| |];
      intros d; now apply excluded_job_keeps_nothing.
Qed.

(** An entry that names no job and has no pattern excludes nothing,
    whatever metrics it lists: an engine whose exclusion list has such
    an entry answers as the engine without it. *)
Theorem entry_without_job_excludes_nothing
    (files files' : gmap string string)
    (unmarshal unmarshal' : string -> result RulesConfig)
    (rulesFile rulesFile' : string) (e e' : RuleEngine)
    (before after : list ExclusionEntry) (x : ExclusionEntry)
    (jobName metricName : string) :
  NewRuleEngine files unmarshal rulesFile = Ok e ->
  NewRuleEngine files' unmarshal' rulesFile' = Ok e' ->
  exclusionList e = (before ++ x :: after)%list ->
  exclusionList e' = (before ++ after)%list ->
  Job x = "" -> JobNamePattern x = "" ->
  IsJobExcluded e jobName = IsJobExcluded e' jobName /\
  IsMetricExcluded e jobName metricName
  = IsMetricExcluded e' jobName metricName.
Proof.
  intros Hal%built_aligned Hal'%built_aligned Hlist Hlist' Hjob Hpattern.
  rewrite !IsJobExcluded_aligned, !IsMetricExcluded_aligned by assumption.
  unfold kept. rewrite Hlist, Hlist', !existsb_app. cbn [existsb].
  unfold excludesJob at 2, excludesMetric at 2, appliesTo, compiled.
  rewrite Hjob, Hpattern. cbn. split; reflexivity.
Qed.

(** The filter keeps exactly the rows whose metric no entry excludes,
    in order; applied to the two views of one job's records it keeps
    the views of the same records, so both views stay aligned. *)
Theorem filter_commutes_with_conversion (files : gmap string string)
    (unmarshal : string -> result RulesConfig) (rulesFile : string)
    (e : RuleEngine) (jobName : string)
    (jobData : list Loaders.JobMetricData.t) :
  NewRuleEngine files unmarshal rulesFile = Ok e ->
  let remaining :=
    List.filter
      (fun jm => kept e jobName (Loaders.JobMetricData.MetricName jm))
      jobData in
  FilterExcludedMetrics e jobName
    (Reports.ConvertJobMetricToCardinality jobData)
    (Reports.ConvertJobMetricToLabels jobData)
  = Some (Reports.ConvertJobMetricToCardinality remaining,
          Reports.ConvertJobMetricToLabels remaining).
Proof.
  intros Hal%built_aligned remaining.
  rewrite FilterExcludedMetrics_aligned by exact Hal.
  rewrite !ConvertJobMetricToCardinality_map, !ConvertJobMetricToLabels_map.
  rewrite !filter_map_comm. reflexivity.
Qed.

End WithLib.

(** *** The properties on an example configuration *)

Lemma exclusion_queries_on_example :
  NewRuleEngine (lib := Demo.lowerWordLib) ExclusionDemo.files
    ExclusionDemo.unmarshal "rules_config.yaml" = Ok ExclusionDemo.engine /\
  IsJobExcluded ExclusionDemo.engine "api" = Some false /\
  IsMetricExcluded ExclusionDemo.engine "api" "up" = Some true.
Proof.
  split; [reflexivity|].
  exact (exclusion_queries_follow_the_entries (lib := Demo.lowerWordLib)
           ExclusionDemo.files ExclusionDemo.unmarshal "rules_config.yaml"
           ExclusionDemo.engine "api" "up" eq_refl).
Defined.

Lemma excluded_job_on_example :
  IsJobExcluded ExclusionDemo.engine "legacy-batch" = Some true /\
  (forall metricName,
      IsMetricExcluded ExclusionDemo.engine "legacy-batch" metricName
      = Some true) /\
  (forall cardinalityData labelsData,
      FilterExcludedMetrics ExclusionDemo.engine "legacy-batch"
        cardinalityData labelsData = Some ([], [])).
Proof.
  split; [reflexivity|].
  exact (excluded_job_has_every_metric_excluded (lib := Demo.lowerWordLib)
           ExclusionDemo.files ExclusionDemo.unmarshal "rules_config.yaml"
           ExclusionDemo.engine "legacy-batch" eq_refl eq_refl).
Defined.

Lemma entry_without_job_on_example :
  IsJobExcluded ExclusionDemo.engine "api"
  = IsJobExcluded ExclusionDemo.shortEngine "api" /\
  IsMetricExcluded ExclusionDemo.engine "api" "go_goroutines"
  = IsMetricExcluded ExclusionDemo.shortEngine "api" "go_goroutines".
Proof.
  exact (entry_without_job_excludes_nothing (lib := Demo.lowerWordLib)
           ExclusionDemo.files ExclusionDemo.files
           ExclusionDemo.unmarshal ExclusionDemo.unmarshalShort
           "rules_config.yaml" "rules_config.yaml"
           ExclusionDemo.engine ExclusionDemo.shortEngine
           [mkExclusion "legacy-batch" "" [];
            mkExclusion "" "^[a-z]+$" ["up"]]
           [] (mkExclusion "" "" ["go_goroutines"]) "api" "go_goroutines"
           eq_refl eq_refl eq_refl eq_refl eq_refl eq_refl).
Defined.

Lemma filter_on_example :
  FilterExcludedMetrics ExclusionDemo.engine "api"
    (Reports.ConvertJobMetricToCardinality ExclusionDemo.apiData)
    (Reports.ConvertJobMetricToLabels ExclusionDemo.apiData)
  = Some ([CardinalityData.mk "http_requests_total" 1500;
           CardinalityData.mk "go_goroutines" 3],
          [LabelsData.mk "http_requests_total" ["method"; "status"];
           LabelsData.mk "go_goroutines" []]).
Proof.
  exact (filter_commutes_with_conversion (lib := Demo.lowerWordLib)
           ExclusionDemo.files ExclusionDemo.unmarshal "rules_config.yaml"
           ExclusionDemo.engine "api" ExclusionDemo.apiData eq_refl).
Defined.

End ExclusionFacts.
(** ** Properties of what a rule result reports *)

Module ReportFacts.
Import Engine EngineSpec ReportSpec.

Lemma filter_partition_length {T} (ok : T -> bool) (data : list T) :
  (length (List.filter ok data)
   + length (List.filter (fun m => negb (ok m)) data))%nat = length data.
Proof.
  induction data as [|m data IH]; [reflexivity|].
  cbn. destruct (ok m); cbn; lia.
Qed.

Lemma counts_add_up {T} (ok : T -> bool) (name : T -> string)
    (data : list T) :
  countPassed ok data + len (failedNames ok name data) = len data.
Proof.
  unfold countPassed, failedNames, len. rewrite length_map.
  pose proof (filter_partition_length ok data). lia.
Qed.

(** The list a metric's entry of the failure table holds. *)
Lemma recordFailedMetrics_lookup (failedMetrics : list string)
    (failed : gmap string (list string)) (validatorName metricName : string) :
  default [] (recordFailedMetrics failed validatorName failedMetrics
              !! metricName)
  = (default [] (failed !! metricName)
     ++ map (fun _ => validatorName)
            (List.filter (String.eqb metricName) failedMetrics))%list.
Proof.
  unfold recordFailedMetrics. revert failed.
  induction failedMetrics as [|x rest IH]; intros failed;
    cbn [fold_left List.filter map].
  - now rewrite app_nil_r.
  - rewrite IH. destruct (String.eqb_spec metricName x) as [->|Hne].
    + rewrite lookup_insert_eq. cbn [default map]. unfold id.
      rewrite <- app_assoc. reflexivity.
    + rewrite lookup_insert_ne by congruence. reflexivity.
Qed.

(** The failure table never holds an empty list. *)
Lemma recordFailedMetrics_nonempty (failedMetrics : list string)
    (failed : gmap string (list string)) (validatorName : string) :
  (forall m, failed !! m <> Some []) ->
  forall m, recordFailedMetrics failed validatorName failedMetrics !! m
            <> Some [].
Proof.
  unfold recordFailedMetrics. revert failed.
  induction failedMetrics as [|x rest IH]; intros failed Hfailed;
    cbn [fold_left]; [exact Hfailed|].
  apply IH. intros m. destruct (String.eqb_spec m x) as [->|Hne].
  - rewrite lookup_insert_eq. intros [= Hnil].
    now apply app_eq_nil in Hnil as [_ ?].
  - rewrite lookup_insert_ne by congruence. apply Hfailed.
Qed.

Section WithLib.
Context `{lib : Lib}.

(** What one iteration of the validator loop adds to the report. *)
Lemma evaluateRule_step_report (validator : ValidatorConfig)
    (dataSources : gmap string DataSet) (r0 r : RuleResult.t) :
  evaluateRule_step validator dataSources r0 = Ok r ->
  RuleResult.FailedChecks r
  = (RuleResult.FailedChecks r0
     ++ if failing dataSources validator then [Name validator] else [])%list
  /\
  RuleResult.ValidatorStats r
  = (RuleResult.ValidatorStats r0 ++ [statOf dataSources validator])%list
  /\
  (forall m,
      default [] (RuleResult.FailedMetrics r !! m)
      = (default [] (RuleResult.FailedMetrics r0 !! m)
         ++ blamed dataSources [validator] m)%list) /\
  ((forall m, RuleResult.FailedMetrics r0 !! m <> Some []) ->
   forall m, RuleResult.FailedMetrics r !! m <> Some []).
Proof.
  unfold evaluateRule_step, failing, statOf, blamed, failedOf.
  cbn [flat_map].
  destruct (evaluateValidatorWithStats validator dataSources)
    as [[[[[passed total] failed] passedCard] totalCard]|err];
    [|discriminate].
  intros [= <-]. cbn [RuleResult.FailedChecks RuleResult.ValidatorStats
                      RuleResult.FailedMetrics].
  destruct (0 <? len failed) eqn:Hfailing.
  - repeat split; try reflexivity.
    + intros m. rewrite app_nil_r. apply recordFailedMetrics_lookup.
    + intros Hr0. now apply recordFailedMetrics_nonempty.
  - assert (failed = []) as ->.
    { destruct failed; [reflexivity|].
      apply Z.ltb_ge in Hfailing.
      unfold len in Hfailing. cbn [length] in Hfailing. lia. }
    rewrite app_nil_r. cbn. repeat split; try reflexivity.
    + intros m. now rewrite app_nil_r.
    + auto.
Qed.

Lemma evaluateRule_loop_report (validators : list ValidatorConfig)
    (dataSources : gmap string DataSet) (r0 r : RuleResult.t) :
  evaluateRule_loop validators dataSources r0 = Ok r ->
  RuleResult.FailedChecks r
  = (RuleResult.FailedChecks r0
     ++ map Name (List.filter (failing dataSources) validators))%list
  /\
  RuleResult.ValidatorStats r
  = (RuleResult.ValidatorStats r0
     ++ map (statOf dataSources) validators)%list
  /\
  (forall m,
      default [] (RuleResult.FailedMetrics r !! m)
      = (default [] (RuleResult.FailedMetrics r0 !! m)
         ++ blamed dataSources validators m)%list) /\
  ((forall m, RuleResult.FailedMetrics r0 !! m <> Some []) ->
   forall m, RuleResult.FailedMetrics r !! m <> Some []).
Proof.
  revert r0. induction validators as [|v vs IH]; intros r0 Hloop.
  - injection Hloop as <-. cbn. rewrite !app_nil_r.
    repeat split; try reflexivity; auto.
    intros m. now rewrite app_nil_r.
  - cbn [evaluateRule_loop] in Hloop.
    destruct (evaluateRule_step v dataSources r0) as [r1|err] eqn:Hstep;
      [|discriminate].
    cbn in Hloop.
    apply evaluateRule_step_report in Hstep as (Hc1 & Hs1 & Hm1 & Hn1).
    apply IH in Hloop as (Hc & Hs & Hm & Hn).
    rewrite Hc, Hs, Hc1, Hs1. cbn [List.filter map].
    repeat split.
    + rewrite <- app_assoc.
      destruct (failing dataSources v); reflexivity.
    + rewrite <- app_assoc. reflexivity.
    + intros m. rewrite Hm, Hm1, <- app_assoc. f_equal.
      unfold blamed. cbn [flat_map]. now rewrite app_nil_r.
    + auto.
Qed.

Lemma blamed_nonempty (dataSources : gmap string DataSet)
    (validators : list ValidatorConfig) (metricName : string) :
  blamed dataSources validators metricName <> [] <->
  exists v, v ∈ validators /\ metricName ∈ failedOf dataSources v.
Proof.
  unfold blamed. induction validators as [|v vs IH]; cbn [flat_map].
  - split; [congruence|]. intros (v & Hin & _). inversion Hin.
  - split.
    + intros Hne.
      destruct (List.filter (String.eqb metricName)
                            (failedOf dataSources v)) as [|x xs] eqn:Hf.
      * cbn in Hne. apply IH in Hne as (v' & Hin & Hm).
        exists v'. split; [now right|exact Hm].
      * exists v. split; [left|].
        assert (Hx : In x (List.filter (String.eqb metricName)
                                       (failedOf dataSources v)))
          by (rewrite Hf; now left).
        apply filter_In in Hx as [Hx Heq].
        apply String.eqb_eq in Heq as ->. now apply list_elem_of_In.
    + intros (v' & Hin & Hm) Hnil.
      apply app_eq_nil in Hnil as [Hv Hvs].
      apply elem_of_cons in Hin as [->|Hin].
      * apply list_elem_of_In in Hm.
        assert (Hx : In metricName
                       (List.filter (String.eqb metricName)
                                    (failedOf dataSources v)))
          by (apply filter_In; split; [exact Hm|apply String.eqb_refl]).
        destruct (List.filter _ _); [inversion Hx|discriminate].
      * apply IH; [|exact Hvs]. now exists v'.
Qed.

(** *** One validator *)

Lemma evaluateLabelsMetric_type (metric : LabelsData.t)
    (conditions : list ConditionConfig) (t1 t2 : string) :
  evaluateLabelsMetric metric conditions t1
  = evaluateLabelsMetric metric conditions t2.
Proof.
  induction conditions as [|c cs IH]; [reflexivity|].
  cbn [evaluateLabelsMetric]. now rewrite IH.
Qed.

Lemma evaluateCardinalityMetric_app (metric : CardinalityData.t)
    (cs1 cs2 : list ConditionConfig) (t : string) :
  evaluateCardinalityMetric metric (cs1 ++ cs2) t
  = evaluateCardinalityMetric metric cs1 t
    && evaluateCardinalityMetric metric cs2 t.
Proof.
  induction cs1 as [|c cs1 IH]; [reflexivity|].
  cbn [app evaluateCardinalityMetric]. rewrite IH.
  repeat case_match; reflexivity.
Qed.

Lemma evaluateLabelsMetric_app (metric : LabelsData.t)
    (cs1 cs2 : list ConditionConfig) (t : string) :
  evaluateLabelsMetric metric (cs1 ++ cs2) t
  = evaluateLabelsMetric metric cs1 t
    && evaluateLabelsMetric metric cs2 t.
Proof.
  induction cs1 as [|c cs1 IH]; [reflexivity|].
  cbn [app evaluateLabelsMetric]. rewrite IH.
  repeat case_match; reflexivity.
Qed.

Lemma evaluateMetrics_ext {T} `{MetricRow T} (data : list T)
    (v v' : ValidatorConfig) (evaluator : MetricEvaluator T) :
  (forall m, evaluator m (Conditions v) (VType v)
             = evaluator m (Conditions v') (VType v')) ->
  evaluateMetrics data v evaluator = evaluateMetrics data v' evaluator.
Proof.
  intros Hext. unfold evaluateMetrics.
  assert (Hloop : forall acc,
             fold_left (evaluateMetrics_step v evaluator) data acc
             = fold_left (evaluateMetrics_step v' evaluator) data acc).
  { induction data as [|m data IH]; intros acc; [reflexivity|].
    cbn [fold_left]. rewrite IH. f_equal.
    unfold evaluateMetrics_step. destruct acc as [passed failed].
    now rewrite Hext. }
  now rewrite Hloop.
Qed.

Lemma labelsType_not_cardinality (t : string) :
  labelsType t = true -> (t =s "cardinality") = false.
Proof.
  unfold labelsType. intros Ht.
  destruct (String.eqb_spec t "cardinality") as [->|]; [|reflexivity].
  discriminate.
Qed.

Lemma evaluateValidatorWithStats_labelsType (v : ValidatorConfig)
    (dataSources : gmap string DataSet) :
  labelsType (VType v) = true ->
  evaluateValidatorWithStats v dataSources
  = match dataSources !! DataSource v with
    | None => Err ("data source " ++ DataSource v ++ " not found")
    | Some (LabelsRows labelsData) =>
        '(passed, total, failed) ←
          evaluateMetrics labelsData v evaluateLabelsMetric;
        Ok (passed, total, failed, 0, 0)
    | Some (CardinalityRows _) =>
        if VType v =s "format"
        then Err "format validator requires labels data source"
        else Err ("invalid data type for " ++ VType v ++ " validator")
    end.
Proof.
  intros Ht. unfold evaluateValidatorWithStats.
  rewrite (labelsType_not_cardinality _ Ht).
  destruct (dataSources !! DataSource v) as [[rows|rows]|]; [| |reflexivity].
  - destruct (VType v =s "format") eqn:Hf; [reflexivity|].
    unfold labelsType in Ht. rewrite Hf in Ht. cbn [orb] in Ht.
    now rewrite Ht.
  - destruct (VType v =s "format") eqn:Hf; [reflexivity|].
    unfold labelsType in Ht. rewrite Hf in Ht. cbn [orb] in Ht.
    now rewrite Ht.
Qed.

(** *** Counts and names of one validator *)

(** The metrics a validator passed and the metrics it lists as failed
    add up to the metrics it evaluated. *)
Theorem validator_counts_add_up (validator : ValidatorConfig)
    (dataSources : gmap string DataSet)
    (passed total : Z) (failed : list string) (passedCard totalCard : Z) :
  evaluateValidatorWithStats validator dataSources
  = Ok (passed, total, failed, passedCard, totalCard) ->
  total <= maxInt64 ->
  0 <= passed /\ passed + len failed = total.
Proof.
  unfold evaluateValidatorWithStats.
  destruct (dataSources !! DataSource validator) as [[rows|rows]|];
    [| |discriminate].
  - destruct (VType validator =s "cardinality").
    + rewrite EngineFacts.evaluateMetricsWithCardinality_eq.
      intros [= <- <- <- _ _] Hlen.
      rewrite EngineFacts.wrap64_small.
      * split; [apply EngineFacts.countPassed_bounds|apply counts_add_up].
      * pose proof (EngineFacts.countPassed_bounds
                      (fun m => evaluateCardinalityMetric m
                                  (Conditions validator) (VType validator))
                      rows).
        unfold minInt64, maxInt64 in *. lia.
    + destruct (VType validator =s "format"); [discriminate|].
      destruct (_ || _); discriminate.
  - destruct (VType validator =s "cardinality"); [discriminate|].
    rewrite EngineFacts.evaluateMetrics_eq. cbn.
    assert (Hgoal :
              len rows <= maxInt64 ->
              0 <= wrap64 (countPassed
                             (fun m => evaluateLabelsMetric m
                                         (Conditions validator)
                                         (VType validator)) rows) /\
              wrap64 (countPassed
                        (fun m => evaluateLabelsMetric m
                                    (Conditions validator)
                                    (VType validator)) rows)
              + len (failedNames
                       (fun m => evaluateLabelsMetric m
                                   (Conditions validator)
                                   (VType validator))
                       metricNameOf rows) = len rows).
    { intros Hlen.
      pose proof (EngineFacts.countPassed_bounds
                    (fun m => evaluateLabelsMetric m
                                (Conditions validator) (VType validator))
                    rows).
      rewrite EngineFacts.wrap64_small
        by (unfold minInt64, maxInt64 in *; lia).
      split; [lia|apply counts_add_up]. }
    destruct (VType validator =s "format").
    + intros [= <- <- <- _ _]. exact Hgoal.
    + destruct (_ || _); [|discriminate].
      intros [= <- <- <- _ _]. exact Hgoal.
Qed.

(** A metric passes a validator exactly when it meets every one of
    the validator's conditions; a validator without conditions passes
    every metric. *)
Theorem conditions_are_conjoined (conditions : list ConditionConfig)
    (validatorType : string) :
  (forall metric : CardinalityData.t,
      evaluateCardinalityMetric metric conditions validatorType
      = forallb (fun c => evaluateCardinalityMetric metric [c] validatorType)
                conditions) /\
  (forall metric : LabelsData.t,
      evaluateLabelsMetric metric conditions validatorType
      = forallb (fun c => evaluateLabelsMetric metric [c] validatorType)
                conditions).
Proof.
  split; intros metric;
    (induction conditions as [|c cs IH]; [reflexivity|]);
    cbn [forallb]; rewrite <- IH.
  - exact (evaluateCardinalityMetric_app metric [c] cs validatorType).
  - exact (evaluateLabelsMetric_app metric [c] cs validatorType).
Qed.

(** The validator types [labels], [label_count] and [format] are
    evaluated alike: declaring a validator with another of the three
    types changes no result. *)
Theorem label_validator_types_are_synonyms (v : ValidatorConfig)
    (validatorType : string) (dataSources : gmap string DataSet)
    (outcome : Z * Z * list string * Z * Z) :
  labelsType (VType v) = true ->
  labelsType validatorType = true ->
  evaluateValidatorWithStats v dataSources = Ok outcome <->
  evaluateValidatorWithStats (withType v validatorType)
    dataSources = Ok outcome.
Proof.
  intros Hv Ht. rewrite !evaluateValidatorWithStats_labelsType by assumption.
  cbn [DataSource VType withType].
  destruct (dataSources !! DataSource v) as [[rows|rows]|].
  - destruct (VType v =s "format"), (validatorType =s "format");
      split; discriminate.
  - rewrite (evaluateMetrics_ext rows v (withType v validatorType));
      [reflexivity|].
    intros m. cbn. apply evaluateLabelsMetric_type.
  - reflexivity.
Qed.

(** *** The report of a rule *)

(** A rule result names, in rule order, the validators that failed at
    least one metric, and carries one statistics entry per validator,
    in rule order. *)
Theorem rule_result_names_failing_validators (rule : RuleDefinition)
    (dataSources : gmap string DataSet) (r : RuleResult.t) :
  evaluateRule rule dataSources = Ok r ->
  RuleResult.FailedChecks r
  = map Name (List.filter (failing dataSources) (Validators rule)) /\
  RuleResult.ValidatorStats r
  = map (statOf dataSources) (Validators rule).
Proof.
  intros (Hc & Hs & _)%evaluateRule_loop_report. split; assumption.
Qed.

(** The failure table of a rule result has an entry for exactly the
    metrics that some validator of the rule failed, and the entry
    lists the validators that failed the metric, in rule order. *)
Theorem failure_table_of_rule_result (rule : RuleDefinition)
    (dataSources : gmap string DataSet) (r : RuleResult.t)
    (metricName : string) :
  evaluateRule rule dataSources = Ok r ->
  (is_Some (RuleResult.FailedMetrics r !! metricName) <->
   exists v, v ∈ Validators rule /\
             metricName ∈ failedOf dataSources v) /\
  default [] (RuleResult.FailedMetrics r !! metricName)
  = blamed dataSources (Validators rule) metricName.
Proof.
  intros (_ & _ & Hm & Hn)%evaluateRule_loop_report.
  specialize (Hm metricName). cbn in Hm.
  rewrite lookup_empty in Hm. cbn in Hm.
  assert (Hne : RuleResult.FailedMetrics r !! metricName <> Some []).
  { apply Hn. intros m. cbn. now rewrite lookup_empty. }
  split; [|exact Hm].
  rewrite <- blamed_nonempty, <- Hm.
  destruct (RuleResult.FailedMetrics r !! metricName) as [names|].
  - split; [intros _; cbn; congruence|eauto].
  - split; [intros [? [=]]|cbn; congruence].
Qed.

End WithLib.

(** *** The report at concrete inputs *)

Lemma validator_counts_on_test_data :
  evaluateValidatorWithStats (lib := Demo.plainLib) Demo.cardinalityCheck
    (inMemorySources Demo.cardinalityRows [])
  = Ok (3, 4, ["high_cardinality_metric"], 4500, 19500) /\
  0 <= 3 /\ 3 + len ["high_cardinality_metric"] = 4.
Proof.
  split; [vm_compute; reflexivity|].
  apply (validator_counts_add_up (lib := Demo.plainLib)
           Demo.cardinalityCheck (inMemorySources Demo.cardinalityRows [])
           3 4 ["high_cardinality_metric"] 4500 19500).
  - vm_compute. reflexivity.
  - vm_compute. discriminate.
Defined.

Lemma label_count_declared_as_format :
  evaluateValidatorWithStats (lib := Demo.plainLib) Demo.labelLimit
    (inMemorySources [] ReportDemo.labelRows)
  = Ok (1, 2, ["high_cardinality_metric"], 0, 0) /\
  evaluateValidatorWithStats (lib := Demo.plainLib)
    (withType Demo.labelLimit "format")
    (inMemorySources [] ReportDemo.labelRows)
  = Ok (1, 2, ["high_cardinality_metric"], 0, 0).
Proof.
  assert (H : evaluateValidatorWithStats (lib := Demo.plainLib)
                Demo.labelLimit (inMemorySources [] ReportDemo.labelRows)
              = Ok (1, 2, ["high_cardinality_metric"], 0, 0))
    by (vm_compute; reflexivity).
  split; [exact H|].
  apply (label_validator_types_are_synonyms (lib := Demo.plainLib)
           Demo.labelLimit "format"
           (inMemorySources [] ReportDemo.labelRows)
           (1, 2, ["high_cardinality_metric"], 0, 0));
    [reflexivity|reflexivity|exact H].
Defined.

Lemma failing_validators_on_example :
  exists r,
    evaluateRule (lib := Demo.plainLib) ReportDemo.twoChecks
      (inMemorySources ReportDemo.rows ReportDemo.labelRows) = Ok r /\
    RuleResult.FailedChecks r = ["test_cardinality_check"; "label_limit"] /\
    map ValidatorStat.Name (RuleResult.ValidatorStats r)
    = ["test_cardinality_check"; "label_limit"].
Proof.
  eexists. split; [vm_compute; reflexivity|].
  destruct (rule_result_names_failing_validators (lib := Demo.plainLib)
              ReportDemo.twoChecks
              (inMemorySources ReportDemo.rows ReportDemo.labelRows) _
              eq_refl) as [Hc Hs].
  split; [exact Hc|].
  exact (f_equal (map ValidatorStat.Name) Hs).
Defined.

Lemma failure_table_on_example :
  exists r,
    evaluateRule (lib := Demo.plainLib) ReportDemo.twoChecks
      (inMemorySources ReportDemo.rows ReportDemo.labelRows) = Ok r /\
    default [] (RuleResult.FailedMetrics r !! "high_cardinality_metric")
    = ["test_cardinality_check"; "label_limit"] /\
    RuleResult.FailedMetrics r !! "http_requests_total" = None.
Proof.
  eexists. split; [vm_compute; reflexivity|].
  split.
  - apply (failure_table_of_rule_result (lib := Demo.plainLib)
             ReportDemo.twoChecks
             (inMemorySources ReportDemo.rows ReportDemo.labelRows) _
             "high_cardinality_metric" eq_refl).
  - vm_compute. reflexivity.
Defined.

End ReportFacts.
(** ** Properties of the configuration code *)

Module SettingsFacts.
Import Collectors Settings SettingsSpec GoStrings RecordFileSpec StringFacts.

(** *** [strconv.ParseInt] *)

Lemma parseDigits_nonneg (s : string) (acc v : Z) :
  0 <= acc -> parseDigits s acc = Some v -> 0 <= v.
Proof.
  revert acc. induction s as [|x s IH]; intros acc Hacc.
  - cbn. now intros [= <-].
  - cbn [parseDigits]. unfold digitValue.
    destruct (_ && _) eqn:Hd; [|discriminate].
    apply andb_true_iff in Hd as [Hlo _]. apply Z.leb_le in Hlo.
    apply IH. lia.
Qed.

Lemma ParseUint_range (s : string) (un : Z) :
  ParseUint s = Some un -> 0 <= un < 2 ^ 64.
Proof.
  unfold ParseUint. destruct s as [|c s]; [discriminate|].
  destruct (parseDigits (String c s) 0) as [v|] eqn:Hv; [|discriminate].
  destruct (Z.ltb_spec v (2 ^ 64)); [|discriminate].
  intros [= <-]. split; [|assumption].
  now apply (parseDigits_nonneg (String c s) 0 v).
Qed.

Lemma ParseInt_range (s : string) (z : Z) :
  ParseInt s = Some z -> minInt64 <= z <= maxInt64.
Proof.
  unfold ParseInt. destruct s as [|c rest]; [discriminate|].
  destruct (if Ascii.eqb c "+" then (false, rest)
            else if Ascii.eqb c "-" then (true, rest)
            else (false, String c rest)) as [neg digits].
  destruct (ParseUint digits) as [un|] eqn:Hun; [|discriminate].
  apply ParseUint_range in Hun.
  unfold minInt64, maxInt64. destruct neg; cbn [negb andb].
  - destruct (Z.ltb_spec (2 ^ 63) un); [discriminate|].
    intros [= <-]. lia.
  - destruct (Z.leb_spec (2 ^ 63) un); [discriminate|].
    intros [= <-]. lia.
Qed.

(** *** Concurrency widths *)

Lemma getEnvInt_positive (env : gmap string string) (key : string)
    (defaultValue : Z) :
  0 < defaultValue -> 0 < getEnvInt env key defaultValue.
Proof.
  intros Hd. unfold getEnvInt.
  destruct (negb (default "" (env !! key) =s "")); [|exact Hd].
  destruct (ParseInt (default "" (env !! key))) as [intVal|]; [|exact Hd].
  destruct (Z.ltb_spec 0 intVal); [assumption|exact Hd].
Qed.

Lemma call_positive (c : Collector) (setter : Call) :
  widthsPositive c -> widthsPositive (call c setter).
Proof.
  unfold widthsPositive. intros (Hm & Hj & Hl).
  destruct setter as [enabled|n|n|n]; cbn [call];
    unfold SetCollectLabelCardinality, SetLabelCardinalityConcurrency,
      SetMetricsConcurrency, SetJobsConcurrency;
    try destruct (Z.ltb_spec 0 n); cbn; auto.
Qed.

(** However the environment is set and whatever the setters are called
    with, the three concurrency limits of a collector stay positive: a
    value that is not a positive integer is ignored. *)
Theorem concurrency_limits_stay_positive (env : gmap string string)
    (queryFilters : string) (setters : list Call) :
  widthsPositive
    (fold_left call setters (NewCollectorWithClient env queryFilters)).
Proof.
  assert (Hnew : widthsPositive (NewCollectorWithClient env queryFilters)).
  { unfold widthsPositive, NewCollectorWithClient. cbn.
    repeat split; apply getEnvInt_positive; lia. }
  revert Hnew. generalize (NewCollectorWithClient env queryFilters).
  induction setters as [|setter setters IH]; intros c Hc; [exact Hc|].
  cbn [fold_left]. apply IH, call_positive, Hc.
Qed.

(** *** File names *)

Lemma sanitizeJobName_bytes (jobName : string) :
  bytes (sanitizeJobName jobName)
  = map (fun c => if unsafeByte c then "_"%char else c) (bytes jobName).
Proof.
  induction jobName as [|c rest IH]; [reflexivity|].
  cbn [sanitizeJobName]. unfold bytes in *. cbn. now rewrite IH.
Qed.

(** A sanitized job name has the length of the job name and none of
    the nine bytes the replacer knows, so the file it names lies in the
    output directory itself; sanitizing changes nothing in a name that
    has none of them, and nothing when done twice. *)
Theorem sanitized_names_are_safe (jobName : string) :
  strlen (sanitizeJobName jobName) = strlen jobName /\
  safeName (sanitizeJobName jobName) = true /\
  hasByte "/" (fileName jobName) = false /\
  (safeName jobName = true -> sanitizeJobName jobName = jobName) /\
  sanitizeJobName (sanitizeJobName jobName) = sanitizeJobName jobName.
Proof.
  assert (Hsafe : forall s, safeName (sanitizeJobName s) = true).
  { intros s. unfold safeName. rewrite sanitizeJobName_bytes.
    induction (bytes s) as [|c l IH]; [reflexivity|].
    cbn [map forallb]. rewrite IH, andb_true_r.
    destruct (unsafeByte c) eqn:Hc; [reflexivity|now rewrite Hc]. }
  assert (Hid : forall s, safeName s = true -> sanitizeJobName s = s).
  { intros s. unfold safeName, bytes.
    induction s as [|c s IH]; [reflexivity|].
    cbn [list_ascii_of_string forallb sanitizeJobName].
    intros [Hc Hs]%andb_true_iff. apply negb_true_iff in Hc.
    now rewrite Hc, (IH Hs). }
  repeat split.
  - unfold strlen. f_equal.
    induction jobName as [|c s IH]; [reflexivity|]. cbn. now rewrite IH.
  - apply Hsafe.
  - unfold fileName. rewrite hasByte_app. apply orb_false_iff.
    split; [|reflexivity].
    specialize (Hsafe jobName). unfold safeName in Hsafe. unfold hasByte.
    induction (bytes (sanitizeJobName jobName)) as [|c l IH]; [reflexivity|].
    cbn [forallb existsb] in *. apply andb_true_iff in Hsafe as [Hc Hl].
    rewrite (IH Hl), orb_false_r.
    destruct (Ascii.eqb_spec "/"%char c) as [<-|]; [discriminate|reflexivity].
  - apply Hid.
  - apply Hid, Hsafe.
Qed.

(** *** Credentials *)

Lemma Split_pieces (s : string) (sep : ascii) :
  Forall (fun piece => hasByte sep piece = false) (Split s sep) /\
  Join (Split s sep) (String sep "") = s.
Proof.
  induction s as [|c s [IHall IHjoin]]; [now repeat constructor|].
  cbn [Split]. destruct (Ascii.eqb_spec c sep) as [->|Hne].
  - split; [now constructor|].
    destruct (Split s sep) as [|piece pieces] eqn:Hsplit.
    + cbn in IHjoin. subst s. discriminate.
    + rewrite Join_cons, append_nil_l, IHjoin. reflexivity.
  - destruct (Split s sep) as [|piece pieces] eqn:Hsplit.
    + cbn in IHjoin. subst s. discriminate.
    + apply Forall_cons in IHall as [Hpiece Hpieces]. split.
      * constructor; [|exact Hpieces].
        rewrite hasByte_cons, Hpiece, orb_false_r.
        destruct (Ascii.eqb_spec sep c); [congruence|reflexivity].
      * rewrite <- IHjoin. destruct pieces as [|piece' pieces].
        -- reflexivity.
        -- rewrite !Join_cons. now rewrite append_cons.
Qed.

(** Basic authentication is attached exactly when the login consists
    of a user name and a password around a single colon; any other
    login, such as one whose password contains a colon, is sent without
    credentials. *)
Theorem credentials_need_exactly_one_colon (c : Client.PrometheusClient)
    (username password : string) :
  addAuthIfNeeded c = Some (username, password) <->
  Client.Login c = username ++ ":" ++ password /\
  hasByte ":" username = false /\ hasByte ":" password = false.
Proof.
  unfold addAuthIfNeeded. split.
  - destruct (Client.Login c =s "") eqn:Hempty; [discriminate|].
    cbn [negb].
    destruct (Split_pieces (Client.Login c) ":") as [Hall Hjoin].
    destruct (Z.eqb_spec (len (Split (Client.Login c) ":")) 2) as [Hlen|];
      [|discriminate].
    unfold len in Hlen.
    destruct (Split (Client.Login c) ":") as [|u [|p [|q rest]]];
      cbn [length] in Hlen; try lia.
    intros [= <- <-]. rewrite <- Hjoin.
    apply Forall_cons in Hall as [Hu Hp].
    apply Forall_cons in Hp as [Hp _]. auto.
  - intros (-> & Hu & Hp).
    destruct ((username ++ ":" ++ password) =s "") eqn:Hempty.
    + apply String.eqb_eq in Hempty.
      destruct username; discriminate.
    + cbn [negb]. rewrite append_cons, append_nil_l.
      rewrite (Split_app_sep _ _ _ Hu), (Split_no_sep _ _ Hp).
      reflexivity.
Qed.

End SettingsFacts.
(** ** Properties of a collection run, query by query *)

Module AccountingFacts.
Import Collectors CollectionSpec AccountingSpec.

Lemma omap_cons {A B} (f : A -> option B) (x : A) (l : list A) :
  omap f (x :: l)
  = match f x with Some y => y :: omap f l | None => omap f l end.
Proof. reflexivity. Qed.

Section WithBackend.
Context `{backend : Backend}.

Lemma fetchBasic_loop (c : Collector) (metricName : string) (now : Z)
    (jobNames : list string) (basicData : list basicMetricData.t) :
  fold_left (fetchBasic c metricName now) jobNames basicData
  = (basicData ++ omap (basicOf c metricName now) jobNames)%list.
Proof.
  revert basicData.
  induction jobNames as [|job jobNames IH]; intros basicData;
    cbn [fold_left].
  - cbn. now rewrite app_nil_r.
  - rewrite IH, omap_cons. unfold fetchBasic, basicOf at 2.
    destruct (GetCardinality metricName job (queryFilters c) now);
      [|reflexivity].
    destruct (GetLabels metricName job (queryFilters c)); [|reflexivity].
    now rewrite <- app_assoc.
Qed.

Lemma fetchLabelCardinality_loop (c : Collector) (metricName : string)
    (basicData : list basicMetricData.t) (results : list JobMetricData.t) :
  collectLabelCardinality c = true ->
  fold_left (fetchLabelCardinality c metricName) basicData results
  = (results ++ map (recordOf c metricName) basicData)%list.
Proof.
  intros Hc. revert results.
  induction basicData as [|d basicData IH]; intros results;
    cbn [fold_left map].
  - now rewrite app_nil_r.
  - rewrite IH.
    unfold fetchLabelCardinality, recordOf, labelCardinalityOf.
    rewrite Hc. cbn [andb]. rewrite <- app_assoc. reflexivity.
Qed.

Lemma plain_loop (c : Collector) (metricName : string)
    (basicData : list basicMetricData.t) (results : list JobMetricData.t) :
  collectLabelCardinality c = false ->
  fold_left
    (fun results data =>
       (results ++
        [JobMetricData.mk (basicMetricData.job data) metricName
           (basicMetricData.labels data)
           (basicMetricData.cardinality data) None])%list)
    basicData results
  = (results ++ map (recordOf c metricName) basicData)%list.
Proof.
  intros Hc. revert results.
  induction basicData as [|d basicData IH]; intros results;
    cbn [fold_left map].
  - now rewrite app_nil_r.
  - rewrite IH. unfold recordOf, labelCardinalityOf. rewrite Hc.
    cbn [andb]. rewrite <- app_assoc. reflexivity.
Qed.

Lemma getJobMetricDataForMetric_spec (c : Collector) (metricName : string)
    (now : Z) :
  getJobMetricDataForMetric c metricName now
  = match GetJobsForMetric metricName (queryFilters c) now with
    | Ok jobNames => Ok (recordsOfMetric c metricName now jobNames)
    | Err err => Err err
    end.
Proof.
  unfold getJobMetricDataForMetric, recordsOfMetric.
  destruct (GetJobsForMetric metricName (queryFilters c) now)
    as [jobNames|err]; [|reflexivity].
  destruct jobNames as [|job jobNames]; [reflexivity|].
  change (len (job :: jobNames) =? 0) with false. cbn iota.
  rewrite fetchBasic_loop. cbn [app].
  destruct (collectLabelCardinality c) eqn:Hc.
  - now rewrite (fetchLabelCardinality_loop c _ _ _ Hc).
  - now rewrite (plain_loop c _ _ _ Hc).
Qed.

Lemma fetchJobMetricData_spec (c : Collector) (metricNames : list string)
    (now : Z) (allData : list JobMetricData.t)
    (errors : list ErrorRecord.t) :
  fold_left (fetchMetric c now) metricNames (allData, errors)
  = ((allData ++ flat_map (dataOfMetric c now) metricNames)%list,
     (errors ++ omap (errorOfMetric c now) metricNames)%list).
Proof.
  revert allData errors.
  induction metricNames as [|metric metricNames IH]; intros allData errors;
    cbn [fold_left flat_map].
  - cbn. now rewrite !app_nil_r.
  - rewrite omap_cons.
    unfold fetchMetric at 2, dataOfMetric at 1, errorOfMetric at 1.
    rewrite getJobMetricDataForMetric_spec.
    destruct (GetJobsForMetric metric (queryFilters c) now)
      as [jobNames|err].
    + destruct (recordsOfMetric c metric now jobNames) as [|d ds] eqn:Hds.
      * change (0 <? len (@nil JobMetricData.t)) with false. cbn iota.
        rewrite IH. reflexivity.
      * change (0 <? len (d :: ds)) with true. cbn iota.
        rewrite IH, <- app_assoc. reflexivity.
    + rewrite IH, <- app_assoc. reflexivity.
Qed.

Lemma CollectMetrics_spec (c : Collector) :
  CollectMetrics c
  = match GetAllMetricNames (queryFilters c) with
    | Ok metricNames =>
        Ok (flat_map (dataOfMetric c timeNow) metricNames,
            omap (errorOfMetric c timeNow) metricNames)
    | Err err => Err ("failed to fetch metric names: " ++ err)
    end.
Proof.
  unfold CollectMetrics, fetchJobMetricData.
  destruct (GetAllMetricNames (queryFilters c)); [|reflexivity].
  now rewrite fetchJobMetricData_spec.
Qed.

Lemma elem_of_dataOfMetric (c : Collector) (now : Z) (metric : string)
    (d : JobMetricData.t) :
  d ∈ dataOfMetric c now metric <->
  exists jobNames cardinality labels,
    GetJobsForMetric metric (queryFilters c) now = Ok jobNames /\
    JobMetricData.Job d ∈ jobNames /\
    GetCardinality metric (JobMetricData.Job d) (queryFilters c) now
    = Ok cardinality /\
    GetLabels metric (JobMetricData.Job d) (queryFilters c) = Ok labels /\
    d = recordOf c metric
          (basicMetricData.mk (JobMetricData.Job d) cardinality labels).
Proof.
  unfold dataOfMetric, recordsOfMetric.
  destruct (GetJobsForMetric metric (queryFilters c) now) as [jobNames|err].
  - rewrite list_elem_of_fmap. setoid_rewrite list_elem_of_omap. split.
    + intros (b & -> & job & Hjob & Hb). unfold basicOf in Hb.
      destruct (GetCardinality metric job (queryFilters c) now)
        as [cardinality|] eqn:Hcard; [|discriminate].
      destruct (GetLabels metric job (queryFilters c)) as [labels|] eqn:Hl;
        [|discriminate].
      injection Hb as <-. cbn.
      exists jobNames, cardinality, labels. auto.
    + intros (jobNames' & cardinality & labels & [= <-] & Hjob & Hcard
              & Hl & Hd).
      eexists. split; [exact Hd|].
      exists (JobMetricData.Job d). split; [exact Hjob|].
      unfold basicOf. now rewrite Hcard, Hl.
  - split; [intros H; inversion H|].
    intros (? & ? & ? & [=] & _).
Qed.

Lemma elem_of_flat_map {A B} (f : A -> list B) (l : list A) (b : B) :
  b ∈ flat_map f l <-> exists a, a ∈ l /\ b ∈ f a.
Proof.
  rewrite list_elem_of_In, in_flat_map.
  split; intros (a & Ha & Hb); exists a;
    [rewrite !list_elem_of_In|rewrite <- !list_elem_of_In]; auto.
Qed.

Lemma core_dataOfMetric (c c' : Collector) (now : Z) (metric : string) :
  queryFilters c = queryFilters c' ->
  map core (dataOfMetric c now metric)
  = map core (dataOfMetric c' now metric).
Proof.
  intros Hq. unfold dataOfMetric, recordsOfMetric. rewrite <- Hq.
  destruct (GetJobsForMetric metric (queryFilters c) now) as [jobNames|];
    [|reflexivity].
  assert (Hbasic : omap (basicOf c' metric now) jobNames
                   = omap (basicOf c metric now) jobNames).
  { unfold basicOf. now rewrite <- Hq. }
  rewrite Hbasic, !map_map. reflexivity.
Qed.

(** *** The records *)

(** Every record of a run stems from a metric of the catalog and a job
    the backend listed for it, and carries the cardinality and the
    labels the backend returned for the pair; per-label counts are
    attached only when their collection is enabled, the metric has
    labels, and the backend returned them. *)
Theorem records_carry_what_the_backend_returned (c : Collector)
    (allData : list JobMetricData.t) (errors : list ErrorRecord.t)
    (d : JobMetricData.t) :
  CollectMetrics c = Ok (allData, errors) ->
  d ∈ allData ->
  exists metricNames jobNames,
    GetAllMetricNames (queryFilters c) = Ok metricNames /\
    JobMetricData.MetricName d ∈ metricNames /\
    GetJobsForMetric (JobMetricData.MetricName d) (queryFilters c) timeNow
    = Ok jobNames /\
    JobMetricData.Job d ∈ jobNames /\
    GetCardinality (JobMetricData.MetricName d) (JobMetricData.Job d)
      (queryFilters c) timeNow = Ok (JobMetricData.Cardinality d) /\
    GetLabels (JobMetricData.MetricName d) (JobMetricData.Job d)
      (queryFilters c) = Ok (JobMetricData.Labels d) /\
    forall counts,
      JobMetricData.LabelCardinality d = Some counts ->
      collectLabelCardinality c = true /\
      JobMetricData.Labels d <> [] /\
      GetLabelCardinality (JobMetricData.MetricName d)
        (JobMetricData.Job d) (JobMetricData.Labels d) (queryFilters c)
      = Ok counts.
Proof.
  rewrite CollectMetrics_spec.
  destruct (GetAllMetricNames (queryFilters c)) as [metricNames|];
    [|discriminate].
  intros [= <- _] (metric & Hmetric & Hd)%elem_of_flat_map.
  apply elem_of_dataOfMetric in Hd
    as (jobNames & cardinality & labels & Hjobs & Hjob & Hcard & Hl & ->).
  cbn [recordOf JobMetricData.Job JobMetricData.MetricName
         JobMetricData.Labels JobMetricData.Cardinality
         JobMetricData.LabelCardinality basicMetricData.job
         basicMetricData.labels basicMetricData.cardinality] in *.
  exists metricNames, jobNames. repeat split; try assumption.
  - unfold labelCardinalityOf in H.
    destruct (collectLabelCardinality c); [reflexivity|discriminate].
  - unfold labelCardinalityOf in H. intros ->.
    cbn in H. rewrite andb_false_r in H. discriminate.
  - unfold labelCardinalityOf in H. cbn in H.
    destruct (_ && _); [|discriminate].
    destruct (GetLabelCardinality metric _ labels (queryFilters c));
      [now injection H as ->|discriminate].
Qed.

(** What a run accounts for: a metric has an error entry exactly when
    it is in the catalog and its job query failed; a pair has a record
    exactly when the metric is in the catalog, the job was listed for
    it, and both the cardinality query and the label query succeeded;
    and no metric has both an error entry and a record. *)
Theorem records_and_errors_follow_the_queries (c : Collector)
    (allData : list JobMetricData.t) (errors : list ErrorRecord.t) :
  CollectMetrics c = Ok (allData, errors) ->
  exists metricNames,
    GetAllMetricNames (queryFilters c) = Ok metricNames /\
    (forall metric,
        hasError errors metric <->
        metric ∈ metricNames /\
        is_ok (GetJobsForMetric metric (queryFilters c) timeNow) = false)
    /\
    (forall job metric,
        hasRecord allData job metric <->
        metric ∈ metricNames /\
        exists jobNames,
          GetJobsForMetric metric (queryFilters c) timeNow = Ok jobNames /\
          job ∈ jobNames /\
          is_ok (GetCardinality metric job (queryFilters c) timeNow)
          = true /\
          is_ok (GetLabels metric job (queryFilters c)) = true) /\
    (forall job metric,
        hasRecord allData job metric -> ~ hasError errors metric).
Proof.
  rewrite CollectMetrics_spec.
  destruct (GetAllMetricNames (queryFilters c)) as [metricNames|];
    [|discriminate].
  intros [= <- <-]. exists metricNames. split; [reflexivity|].
  assert (Herr : forall metric,
             hasError (omap (errorOfMetric c timeNow) metricNames) metric
             <-> metric ∈ metricNames /\
                 is_ok (GetJobsForMetric metric (queryFilters c) timeNow)
                 = false).
  { intros metric. unfold hasError. split.
    - intros (e & (m & Hm & He)%list_elem_of_omap & <-).
      unfold errorOfMetric in He.
      destruct (GetJobsForMetric m (queryFilters c) timeNow) eqn:Hjobs;
        [discriminate|].
      injection He as <-. cbn. now rewrite Hjobs.
    - intros [Hm Hfail].
      destruct (GetJobsForMetric metric (queryFilters c) timeNow)
        as [|err] eqn:Hjobs; [discriminate|].
      exists (ErrorRecord.mk metric "fetch_job_data" err timeNow).
      split; [|reflexivity].
      apply list_elem_of_omap. exists metric. split; [exact Hm|].
      unfold errorOfMetric. now rewrite Hjobs. }
  assert (Hrec : forall job metric,
             hasRecord (flat_map (dataOfMetric c timeNow) metricNames)
                       job metric
             <-> metric ∈ metricNames /\
                 exists jobNames,
                   GetJobsForMetric metric (queryFilters c) timeNow
                   = Ok jobNames /\
                   job ∈ jobNames /\
                   is_ok (GetCardinality metric job (queryFilters c)
                            timeNow) = true /\
                   is_ok (GetLabels metric job (queryFilters c)) = true).
  { intros job metric. unfold hasRecord. split.
    - intros (d & (m & Hm & Hd)%elem_of_flat_map & <- & <-).
      apply elem_of_dataOfMetric in Hd
        as (jobNames & cardinality & labels & Hjobs & Hjob & Hcard & Hl
            & Hd).
      rewrite Hd in *. cbn in *.
      split; [exact Hm|]. exists jobNames.
      now rewrite Hcard, Hl.
    - intros (Hm & jobNames & Hjobs & Hjob & Hcard & Hl).
      destruct (GetCardinality metric job (queryFilters c) timeNow)
        as [cardinality|] eqn:Hc; [|discriminate].
      destruct (GetLabels metric job (queryFilters c)) as [labels|]
        eqn:Hls; [|discriminate].
      exists (recordOf c metric (basicMetricData.mk job cardinality labels)).
      split; [|split; reflexivity].
      apply elem_of_flat_map. exists metric. split; [exact Hm|].
      apply elem_of_dataOfMetric. cbn.
      exists jobNames, cardinality, labels. auto. }
  split; [exact Herr|]. split; [exact Hrec|].
  intros job metric (_ & jobNames & Hjobs & _)%Hrec (_ & Hfail)%Herr.
  rewrite Hjobs in Hfail. discriminate.
Qed.

(** Collecting per-label counts is an addition only: switching it on
    or off leaves the run's outcome, its error entries and every
    record's job, metric, labels and cardinality as they are; switched
    off, no record carries per-label counts. *)
Theorem label_counts_do_not_change_the_records (c : Collector)
    (enabled : bool) :
  match CollectMetrics c,
        CollectMetrics (Settings.SetCollectLabelCardinality c enabled) with
  | Ok (allData, errors), Ok (allData', errors') =>
      map core allData = map core allData' /\ errors = errors' /\
      (collectLabelCardinality c = false ->
       Forall (fun d => JobMetricData.LabelCardinality d = None) allData)
  | Err err, Err err' => err = err'
  | _, _ => False
  end.
Proof.
  rewrite !CollectMetrics_spec.
  cbn [Settings.SetCollectLabelCardinality queryFilters].
  destruct (GetAllMetricNames (queryFilters c)) as [metricNames|];
    [|exact eq_refl].
  cbv iota beta. repeat split.
  - induction metricNames as [|m ms IH]; [reflexivity|].
    cbn [flat_map]. rewrite !map_app, IH. f_equal.
    now apply core_dataOfMetric.
  - intros Hoff. apply Forall_forall. intros d Hd.
    apply elem_of_flat_map in Hd as (m & _ & Hd).
    apply elem_of_dataOfMetric in Hd as (? & ? & ? & _ & _ & _ & _ & ->).
    cbn. unfold labelCardinalityOf. now rewrite Hoff.
Qed.

End WithBackend.

(** *** The properties on the example backend *)

Lemma worker_record_on_example :
  CollectMetrics (backend := Demo.partialBackend) Demo.demoCollector
  = Ok ([JobMetricData.mk "worker" "http_requests_total"
           ["method"; "status"] "1500" None], []) /\
  GetCardinality (Backend := Demo.partialBackend)
    "http_requests_total" "worker" "" 1762041600 = Ok "1500" /\
  GetLabels (Backend := Demo.partialBackend)
    "http_requests_total" "worker" "" = Ok ["method"; "status"].
Proof.
  split; [reflexivity|].
  destruct (records_carry_what_the_backend_returned
              (backend := Demo.partialBackend) Demo.demoCollector
              [JobMetricData.mk "worker" "http_requests_total"
                 ["method"; "status"] "1500" None] []
              (JobMetricData.mk "worker" "http_requests_total"
                 ["method"; "status"] "1500" None)
              eq_refl (list_elem_of_here _ _))
    as (metricNames & jobNames & _ & _ & _ & _ & Hcard & Hlabels & _).
  split; [exact Hcard|exact Hlabels].
Defined.

Lemma accounting_on_example :
  exists metricNames,
    GetAllMetricNames (Backend := Demo.partialBackend) "" = Ok metricNames /\
    ~ hasError [] "http_requests_total" /\
    hasRecord [JobMetricData.mk "worker" "http_requests_total"
                 ["method"; "status"] "1500" None]
              "worker" "http_requests_total" /\
    ~ hasRecord [JobMetricData.mk "worker" "http_requests_total"
                   ["method"; "status"] "1500" None]
                "api" "http_requests_total".
Proof.
  destruct (records_and_errors_follow_the_queries
              (backend := Demo.partialBackend) Demo.demoCollector
              [JobMetricData.mk "worker" "http_requests_total"
                 ["method"; "status"] "1500" None] [] eq_refl)
    as (metricNames & Hnames & Herr & Hrec & _).
  exists metricNames. split; [exact Hnames|]. repeat split.
  - intros (_ & Hfail)%Herr. discriminate.
  - apply Hrec. injection Hnames as <-. split; [left|].
    exists ["api"; "worker"]. repeat split. right. left.
  - intros (_ & jobNames & _ & _ & Hcard & _)%Hrec. discriminate.
Defined.

End AccountingFacts.
(** ** Properties of the queries of the client *)

Module QueryFacts.
Import Client RetrySpec QuerySpec.

Lemma attempts_schedule (req : Request) (attempt : Z) (k : nat) :
  attempts (schedule req attempt k) = k.
Proof.
  revert attempt. induction k as [|k IH]; intros attempt; [reflexivity|].
  cbn [schedule]. rewrite ClientFacts.attempts_app.
  change (Sent req :: schedule req (attempt + 1) k)
    with ([Sent req] ++ schedule req (attempt + 1) k)%list.
  rewrite ClientFacts.attempts_app, IH.
  destruct (0 <? attempt); reflexivity.
Qed.

Section WithTransport.
Context (transport : Transport) `{json : Json}.

(** *** One retried call *)

Lemma doRequestWithRetry_trace (c : PrometheusClient) (req : Request)
    (t0 : Trace) :
  usableRetryCount c ->
  exists k : nat,
    (1 <= k)%nat /\ Z.of_nat k <= RetryCount c + 1 /\
    (doRequestWithRetry transport c req t0).2
    = (t0 ++ schedule req 0 k)%list /\
    (Z.of_nat k < RetryCount c + 1 ->
     retryable (transport (attempts t0 + (k - 1))%nat req) = false) /\
    (doRequestWithRetry transport c req t0).1
    = resultOf (transport (attempts t0 + (k - 1))%nat req).
Proof.
  intros [H0 Hmax]. unfold doRequestWithRetry.
  destruct (retryLoop transport (Z.to_nat (RetryCount c + 1)) c req 0
              None None t0) as [res t'] eqn:Hrun.
  apply ClientFacts.retryLoop_spec in Hrun
    as (k & Hk1 & Hk2 & Htrace & _ & Hlast & Hres); [|lia|lia|lia].
  exists k. cbn [fst snd]. repeat split; try assumption; try lia.
Qed.

Lemma send_trace (c : PrometheusClient) (req : Request) (t0 : Trace) :
  usableRetryCount c ->
  exists k : nat,
    (1 <= k)%nat /\ Z.of_nat k <= RetryCount c + 1 /\
    (send transport c req t0).2 = (t0 ++ schedule req 0 k)%list.
Proof.
  intros Hc.
  destruct (doRequestWithRetry_trace c req t0 Hc)
    as (k & Hk1 & Hk2 & Htrace & _).
  exists k. repeat split; try assumption.
  unfold send, bind, ret.
  destruct (doRequestWithRetry transport c req t0) as [r t1].
  exact Htrace.
Qed.

Lemma oneCall_plain (c : PrometheusClient) (req : Request) (t0 : Trace)
    (k : nat) :
  (1 <= k)%nat -> Z.of_nat k <= RetryCount c + 1 ->
  oneCall c req t0 (t0 ++ schedule req 0 k)%list.
Proof.
  intros Hk1 Hk2. exists k, []. rewrite app_nil_r. auto.
Qed.

Lemma oneCall_paused (c : PrometheusClient) (req : Request) (t0 : Trace)
    (k : nat) (statusCode : Z) :
  (1 <= k)%nat -> Z.of_nat k <= RetryCount c + 1 ->
  oneCall c req t0
    (rateLimitPause statusCode (t0 ++ schedule req 0 k)%list).2.
Proof.
  intros Hk1 Hk2. unfold rateLimitPause.
  destruct (statusCode =? 429).
  - exists k, [Slept (2 * Second)]. unfold Sleep. cbn [snd].
    rewrite <- app_assoc. auto.
  - now apply oneCall_plain.
Qed.

(** *** The queries *)

Ltac query_trace c req t0 Hc :=
  unfold bind at 1;
  let k := fresh "k" in
  let Hk1 := fresh "Hk1" in
  let Hk2 := fresh "Hk2" in
  let Htrace := fresh "Htrace" in
  destruct (send_trace c req t0 Hc) as (k & Hk1 & Hk2 & Htrace);
  destruct (send transport c req t0) as [[resp|err] t1];
  cbn [snd] in Htrace; subst t1;
  unfold ret, bind;
  repeat match goal with
         | |- context [match readAll ?r with _ => _ end] =>
             destruct (readAll r)
         | |- context [if negb ?b then _ else _] => destruct (negb b)
         | |- context [rateLimitPause ?s ?t] =>
             let H := fresh "Hp" in
             pose proof (oneCall_paused c req t0 k s Hk1 Hk2) as H;
             destruct (rateLimitPause s t) as [[] ?]
         | |- context [match ?d with Some _ => _ | None => _ end] =>
             destruct d
         | |- context [match ?l with [] => _ | _ :: _ => _ end] =>
             destruct l
         | |- context [match ?v with JString _ => _ | JOther => _ end] =>
             destruct v
         end;
  cbn [snd] in *; try assumption; try (now apply oneCall_plain).

Lemma GetJobsForMetric_oneCall (c : PrometheusClient)
    (metricName queryFilters : string) (now : Z) (t0 : Trace) :
  usableRetryCount c ->
  oneCall c (JobsRequest metricName queryFilters now) t0
    (GetJobsForMetric transport c metricName queryFilters now t0).2.
Proof.
  intros Hc. unfold GetJobsForMetric.
  query_trace c (JobsRequest metricName queryFilters now) t0 Hc.
Qed.

Lemma GetAllMetricNames_oneCall (c : PrometheusClient)
    (queryFilters : string) (t0 : Trace) :
  usableRetryCount c ->
  oneCall c (MetricNamesRequest queryFilters) t0
    (GetAllMetricNames transport c queryFilters t0).2.
Proof.
  intros Hc. unfold GetAllMetricNames.
  query_trace c (MetricNamesRequest queryFilters) t0 Hc.
Qed.

Lemma GetCardinality_oneCall (c : PrometheusClient)
    (metricName job queryFilters : string) (now : Z) (t0 : Trace) :
  usableRetryCount c ->
  oneCall c (CardinalityRequest metricName job queryFilters now) t0
    (GetCardinality transport c metricName job queryFilters now t0).2.
Proof.
  intros Hc. unfold GetCardinality.
  query_trace c (CardinalityRequest metricName job queryFilters now) t0 Hc.
Qed.

Lemma getLabelsViaQuery_oneCall (c : PrometheusClient)
    (metricName job queryFilters : string) (t0 : Trace) :
  usableRetryCount c ->
  oneCall c (LabelsQueryRequest metricName job queryFilters) t0
    (getLabelsViaQuery transport c metricName job queryFilters t0).2.
Proof.
  intros Hc. unfold getLabelsViaQuery.
  query_trace c (LabelsQueryRequest metricName job queryFilters) t0 Hc.
Qed.

Lemma getLabelsViaAPI_oneCall (c : PrometheusClient)
    (metricName job queryFilters : string) (t0 : Trace) :
  usableRetryCount c ->
  oneCall c (LabelsAPIRequest metricName job queryFilters) t0
    (getLabelsViaAPI transport c metricName job queryFilters t0).2.
Proof.
  intros Hc. unfold getLabelsViaAPI.
  query_trace c (LabelsAPIRequest metricName job queryFilters) t0 Hc.
Qed.

Lemma GetLabelCardinality_oneCall (c : PrometheusClient)
    (metricName job : string) (labels : list string)
    (queryFilters : string) (t0 : Trace) :
  usableRetryCount c ->
  oneCall c (LabelCardinalityRequest metricName job labels queryFilters) t0
    (GetLabelCardinality transport c metricName job labels queryFilters
       t0).2.
Proof.
  intros Hc. unfold GetLabelCardinality.
  query_trace c (LabelCardinalityRequest metricName job labels queryFilters)
    t0 Hc.
Qed.

Lemma oneCall_attempts (c : PrometheusClient) (req : Request)
    (t0 t' : Trace) :
  oneCall c req t0 t' ->
  Z.of_nat (attempts t') <= Z.of_nat (attempts t0) + (RetryCount c + 1).
Proof.
  intros (k & pause & _ & Hk & Hpause & ->).
  rewrite !ClientFacts.attempts_app, attempts_schedule.
  destruct Hpause as [-> | ->]; cbn; lia.
Qed.

(** Each query of the client is one retried call for its own request,
    followed at most by the 2-second pause of a 429 answer; [GetLabels]
    is such a call for the label query and, unless that returned
    labels, another one for the labels API.  So a query costs the
    backend at most R + 1 requests, and [GetLabels] at most 2 (R + 1). *)
Theorem queries_cost_one_retried_call (c : PrometheusClient)
    (metricName job queryFilters : string) (labels : list string)
    (now : Z) (t0 : Trace) :
  usableRetryCount c ->
  oneCall c (MetricNamesRequest queryFilters) t0
    (GetAllMetricNames transport c queryFilters t0).2 /\
  oneCall c (JobsRequest metricName queryFilters now) t0
    (GetJobsForMetric transport c metricName queryFilters now t0).2 /\
  oneCall c (CardinalityRequest metricName job queryFilters now) t0
    (GetCardinality transport c metricName job queryFilters now t0).2 /\
  oneCall c (LabelCardinalityRequest metricName job labels queryFilters) t0
    (GetLabelCardinality transport c metricName job labels queryFilters
       t0).2 /\
  (let t' := (GetLabels transport c metricName job queryFilters t0).2 in
   (oneCall c (LabelsQueryRequest metricName job queryFilters) t0 t' \/
    exists t1,
      oneCall c (LabelsQueryRequest metricName job queryFilters) t0 t1 /\
      oneCall c (LabelsAPIRequest metricName job queryFilters) t1 t') /\
   Z.of_nat (attempts t')
   <= Z.of_nat (attempts t0) + 2 * (RetryCount c + 1)).
Proof.
  intros Hc.
  split; [now apply GetAllMetricNames_oneCall|].
  split; [now apply GetJobsForMetric_oneCall|].
  split; [now apply GetCardinality_oneCall|].
  split; [now apply GetLabelCardinality_oneCall|].
  cbv zeta. unfold GetLabels, bind.
  pose proof (getLabelsViaQuery_oneCall c metricName job queryFilters t0 Hc)
    as Hquery.
  destruct (getLabelsViaQuery transport c metricName job queryFilters t0)
    as [r t1].
  cbn [snd] in Hquery.
  pose proof (getLabelsViaAPI_oneCall c metricName job queryFilters t1 Hc)
    as Hapi.
  pose proof (oneCall_attempts _ _ _ _ Hquery) as Hq.
  pose proof (oneCall_attempts _ _ _ _ Hapi) as Ha.
  destruct Hc as [H0 _].
  destruct r as [[|label rest]|err]; unfold ret; cbn [snd];
    (split; [|lia]); try (right; exists t1; now split).
  now left.
Qed.

(** [GetLabels] never returns the label [__name__], by whichever of
    its two routes the labels come. *)
Theorem GetLabels_omits_the_name_label (c : PrometheusClient)
    (metricName job queryFilters : string) (t0 : Trace)
    (labels : list string) :
  (GetLabels transport c metricName job queryFilters t0).1 = Ok labels ->
  "__name__" ∉ labels.
Proof.
  assert (Hquery : forall t labels,
             (getLabelsViaQuery transport c metricName job queryFilters t).1
             = Ok labels -> "__name__" ∉ labels).
  { intros t ls. unfold getLabelsViaQuery, bind, ret.
    destruct (send transport c _ t) as [[resp|err] t1]; [|discriminate].
    destruct (readAll resp); [|discriminate].
    destruct (negb _).
    - destruct (rateLimitPause _ _). discriminate.
    - destruct (decodeMetricKeys _) as [series|]; [|discriminate].
      cbn [fst]. intros [= <-].
      rewrite elem_of_elements, elem_of_list_to_set, list_elem_of_In,
        filter_In.
      intros [_ Hname]. discriminate. }
  assert (Hapi : forall t labels,
             (getLabelsViaAPI transport c metricName job queryFilters t).1
             = Ok labels -> "__name__" ∉ labels).
  { intros t ls. unfold getLabelsViaAPI, bind, ret.
    destruct (send transport c _ t) as [[resp|err] t1]; [|discriminate].
    destruct (readAll resp); [|discriminate].
    destruct (negb _).
    - destruct (rateLimitPause _ _). discriminate.
    - destruct (decodeData _) as [data|]; [|discriminate].
      cbn [fst]. intros [= <-].
      rewrite list_elem_of_In, filter_In.
      intros [_ Hname]. discriminate. }
  unfold GetLabels, bind.
  destruct (getLabelsViaQuery transport c metricName job queryFilters t0)
    as [r t1] eqn:Hrun.
  specialize (Hquery t0). rewrite Hrun in Hquery. cbn [fst] in Hquery.
  destruct r as [[|label rest]|err]; unfold ret; cbn [fst];
    try apply Hapi.
  apply Hquery.
Qed.

(** *** A gateway that stays down *)




End WithTransport.

(** *** The properties on example backends *)

Lemma metric_names_cost_on_flaky_backend :
  oneCall Demo.demoClient (MetricNamesRequest "") []
    (GetAllMetricNames Demo.flaky (json := Demo.demoJson) Demo.demoClient
       "" []).2.
Proof.
  apply (queries_cost_one_retried_call Demo.flaky (json := Demo.demoJson)
           Demo.demoClient "up" "api" "" [] 0 []).
  split; vm_compute; discriminate.
Defined.

Lemma labels_of_one_series :
  exists labels,
    (GetLabels QueryDemo.oneSeries (json := QueryDemo.seriesJson)
       Demo.demoClient "up" "api" "" []).1 = Ok labels /\
    length labels = 2%nat /\ "__name__" ∉ labels.
Proof.
  eexists. split; [vm_compute; reflexivity|]. split; [reflexivity|].
  apply (GetLabels_omits_the_name_label QueryDemo.oneSeries
           (json := QueryDemo.seriesJson) Demo.demoClient "up" "api" "" []).
  vm_compute. reflexivity.
Defined.


End QueryFacts.
(** ** Properties of evaluation from report files *)

Module FileFacts.
Import Engine Reports FileEvaluation FileEvaluationSpec.

Section WithLib.
Context `{lib : Lib}.

Lemma loadSource_failed (dir : gmap string string)
    (entries : list (string * string)) (msg : string) :
  fold_left (loadSource dir) entries (Err msg) = Err msg.
Proof. induction entries as [|entry entries IH]; [reflexivity|exact IH]. Qed.

(** The loop over the entries of [dataFiles], taken in any order. *)
Lemma loadSource_loop (dir : gmap string string)
    (entries : list (string * string)) (dataSources : gmap string DataSet) :
  NoDup entries.*1 ->
  let dataFiles : gmap string string := list_to_map entries in
  match fold_left (loadSource dir) entries (Ok dataSources) with
  | Ok loaded =>
      loadable dir dataFiles = true /\
      loaded = labelsSource dir dataFiles
                 (cardinalitySource dir dataFiles dataSources)
  | Err _ => loadable dir dataFiles = false
  end.
Proof.
  revert dataSources.
  induction entries as [|[key file] entries IH]; intros dataSources Hdup.
  - cbn. auto.
  - cbn [fmap list_fmap fst] in Hdup.
    apply NoDup_cons in Hdup as [Hkey Hdup].
    apply not_elem_of_list_to_map_1 in Hkey.
    cbv zeta. rewrite list_to_map_cons.
    set (rest := (list_to_map entries : gmap string string)) in *.
    cbn [fold_left]. unfold loadSource at 2. cbn [mbind result_bind Go.bind].
    unfold loadable, labelsSource, cardinalitySource.
    destruct (String.eqb_spec key "cardinality") as [->|Hc].
    + rewrite lookup_insert_eq, lookup_insert_ne by discriminate.
      destruct (LoadCardinalityReport dir file) as [data [err|]] eqn:Hload.
      * rewrite loadSource_failed. reflexivity.
      * specialize (IH (<["cardinality" := CardinalityRows data]>
                          dataSources) Hdup).
        cbv zeta in IH. fold rest in IH.
        unfold loadable, labelsSource, cardinalitySource in IH.
        rewrite Hkey in IH. cbn [loads snd fst andb]. exact IH.
    + destruct (String.eqb_spec key "labels") as [->|Hl].
      * rewrite lookup_insert_eq, lookup_insert_ne by discriminate.
        destruct (LoadLabelsReport dir file) as [data [err|]] eqn:Hload.
        -- rewrite loadSource_failed. cbn [loads snd].
           apply andb_false_r.
        -- specialize (IH (<["labels" := LabelsRows data]> dataSources)
                         Hdup).
           cbv zeta in IH. fold rest in IH.
           unfold loadable, labelsSource, cardinalitySource in IH.
           rewrite Hkey in IH. cbn [loads snd fst].
           rewrite andb_true_r in *.
           destruct (fold_left (loadSource dir) entries _) as [loaded|];
             [|exact IH].
           destruct IH as [Hok ->]. split; [exact Hok|].
           destruct (rest !! "cardinality"); [|reflexivity].
           apply insert_insert_ne. discriminate.
      * rewrite !lookup_insert_ne by congruence.
        apply (IH dataSources Hdup).
Qed.

Context `{range : MapRange}.

Lemma rangeOrder_entries (dataFiles : gmap string string) :
  NoDup (rangeOrder 0 string dataFiles).*1 /\
  list_to_map (rangeOrder 0 string dataFiles) = dataFiles.
Proof.
  pose proof (rangeOrder_perm 0 string dataFiles) as Hperm.
  assert (Hdup : NoDup (rangeOrder 0 string dataFiles).*1).
  { rewrite Hperm. apply NoDup_fst_map_to_list. }
  split; [exact Hdup|].
  rewrite (list_to_map_proper _ _ Hdup Hperm).
  apply list_to_map_to_list.
Qed.

Lemma EvaluateRules_spec (e : RuleEngine) (dir dataFiles : gmap string string) :
  match EvaluateRules e dir dataFiles with
  | Ok results =>
      loadable dir dataFiles = true /\
      evaluateWithDataSources e (sourcesOf dir dataFiles) = Ok results
  | Err msg =>
      loadable dir dataFiles = false \/
      evaluateWithDataSources e (sourcesOf dir dataFiles) = Err msg
  end.
Proof.
  unfold EvaluateRules.
  destruct (rangeOrder_entries dataFiles) as [Hdup Hmap].
  pose proof (loadSource_loop dir _ ∅ Hdup) as Hloop.
  cbv zeta in Hloop. rewrite Hmap in Hloop.
  destruct (fold_left (loadSource dir) _ (Ok ∅)) as [loaded|msg].
  - destruct Hloop as [Hok ->]. cbn [mbind result_bind Go.bind].
    fold (sourcesOf dir dataFiles).
    destruct (evaluateWithDataSources e (sourcesOf dir dataFiles));
      auto.
  - now left.
Qed.

(** *** What [EvaluateRules] returns *)


(** Given a file for each of the two keys, both of which load without
    error, [EvaluateRules] returns what [EvaluateWithData] returns for
    the rows of the two files. *)
Theorem EvaluateRules_agrees_with_EvaluateWithData
    (e : RuleEngine) (dir dataFiles : gmap string string)
    (cardinalityFile labelsFile : string)
    (cardinalityData : list CardinalityData.t)
    (labelsData : list LabelsData.t) :
  dataFiles !! "cardinality" = Some cardinalityFile ->
  dataFiles !! "labels" = Some labelsFile ->
  LoadCardinalityReport dir cardinalityFile = (cardinalityData, None) ->
  LoadLabelsReport dir labelsFile = (labelsData, None) ->
  EvaluateRules e dir dataFiles
  = EvaluateWithData e cardinalityData labelsData.
Proof.
  intros Hc Hl Hcard Hlabels.
  assert (Hok : loadable dir dataFiles = true).
  { unfold loadable. now rewrite Hc, Hl, Hcard, Hlabels. }
  assert (Hsources : sourcesOf dir dataFiles
                     = inMemorySources cardinalityData labelsData).
  { unfold sourcesOf, labelsSource, cardinalitySource, inMemorySources.
    now rewrite Hc, Hl, Hcard, Hlabels. }
  pose proof (EvaluateRules_spec e dir dataFiles) as Hspec.
  unfold EvaluateWithData. rewrite <- Hsources.
  destruct (EvaluateRules e dir dataFiles) as [rs|msg].
  - destruct Hspec as [_ ->]. reflexivity.
  - destruct Hspec as [Hno| ->]; [congruence|reflexivity].
Qed.

End WithLib.

(** *** The report files of the loader tests *)

Example cardinality_report_of_the_tests :
  LoadCardinalityReport FileDemo.dir "cardinality.txt"
  = ([CardinalityData.mk "http_requests_total" 1500;
      CardinalityData.mk "http_request_duration_seconds" 2500;
      CardinalityData.mk "memory_usage_bytes" 500], None) /\
  LoadLabelsReport FileDemo.dir "labels.txt"
  = ([LabelsData.mk "http_requests_total" ["method"; "status"; "path"];
      LabelsData.mk "http_request_duration_seconds" ["method"; "status"];
      LabelsData.mk "memory_usage_bytes" ["type"]], None) /\
  loads (LoadCardinalityReport FileDemo.dir "nonexistent.txt") = false.
Proof. repeat split; vm_compute; reflexivity. Qed.

Lemma files_of_the_tests_evaluate_as_their_rows :
  EvaluateRules (lib := Demo.plainLib) (range := FileDemo.listOrder)
    (mkEngine [Demo.cardinalityRule; Demo.labelRule])
    FileDemo.dir FileDemo.dataFiles
  = EvaluateWithData (lib := Demo.plainLib)
      (mkEngine [Demo.cardinalityRule; Demo.labelRule])
      [CardinalityData.mk "http_requests_total" 1500;
       CardinalityData.mk "http_request_duration_seconds" 2500;
       CardinalityData.mk "memory_usage_bytes" 500]
      [LabelsData.mk "http_requests_total" ["method"; "status"; "path"];
       LabelsData.mk "http_request_duration_seconds" ["method"; "status"];
       LabelsData.mk "memory_usage_bytes" ["type"]].
Proof.
  apply (EvaluateRules_agrees_with_EvaluateWithData (lib := Demo.plainLib)
           (range := FileDemo.listOrder)
           (mkEngine [Demo.cardinalityRule; Demo.labelRule])
           FileDemo.dir FileDemo.dataFiles "cardinality.txt" "labels.txt");
    vm_compute; reflexivity.
Defined.

End FileFacts.
(** ** Properties of the evaluation of a job file *)

Module EvaluateFacts.
Import Engine Reports Exclusions ExclusionSpec Evaluate EvaluateSpec.

Lemma Contains_middle (before substr after : string) :
  GoStrings.Contains (before ++ substr ++ after) substr = true.
Proof. apply LabelsFacts.Contains_spec. now exists before, after. Qed.

Lemma totalCardinality_loop (data : list CardinalityData.t) (total : Z) :
  fold_left (fun total metric => add64 total (CardinalityData.Count metric))
            data (wrap64 total)
  = wrap64 (total + EngineSpec.sumCounts data).
Proof.
  revert total. induction data as [|m data IH]; intros total.
  - cbn. now rewrite Z.add_0_r.
  - cbn [fold_left]. unfold add64 at 2.
    rewrite EngineFacts.wrap64_add_l, IH, EngineFacts.sumCounts_cons.
    f_equal. lia.
Qed.

Lemma sumCounts_converted (jobData : list Loaders.JobMetricData.t) :
  EngineSpec.sumCounts (ConvertJobMetricToCardinality jobData)
  = sumCardinality jobData.
Proof.
  rewrite ExclusionFacts.ConvertJobMetricToCardinality_map.
  induction jobData as [|jm jobData IH]; [reflexivity|].
  cbn [map]. rewrite EngineFacts.sumCounts_cons, IH. reflexivity.
Qed.

(** *** The list of failed metrics *)

Lemma collectFailed_loop (keys : list string) (failedMetrics : list string)
    (failedMetricsMap : gset string) :
  NoDup failedMetrics ->
  (forall m, m ∈ failedMetricsMap <-> m ∈ failedMetrics) ->
  let state := fold_left collectFailed keys (failedMetrics, failedMetricsMap) in
  NoDup state.1 /\
  (forall m, m ∈ state.2 <-> m ∈ state.1) /\
  (forall m, m ∈ state.1 <-> m ∈ failedMetrics \/ m ∈ keys).
Proof.
  revert failedMetrics failedMetricsMap.
  induction keys as [|key keys IH]; intros l s Hdup Hset; cbv zeta.
  - cbn [fold_left fst snd]. split; [exact Hdup|]. split; [exact Hset|].
    intros m. split; [now left|].
    intros [?|Hnil]; [assumption|inversion Hnil].
  - cbn [fold_left].
    assert (Hstep : collectFailed (l, s) key
                    = if bool_decide (key ∈ s) then (l, s)
                      else ((l ++ [key])%list, {[key]} ∪ s)).
    { unfold collectFailed. now destruct (bool_decide (key ∈ s)). }
    rewrite Hstep. clear Hstep.
    destruct (bool_decide (key ∈ s)) eqn:Hseen.
    + apply bool_decide_eq_true in Hseen.
      destruct (IH l s Hdup Hset) as (Hd & Hs & Hm).
      split; [exact Hd|]. split; [exact Hs|].
      intros m. rewrite Hm, elem_of_cons. split.
      * intros [?|?]; [now left|right; now right].
      * intros [?|[->|?]]; [now left|left; now apply Hset|now right].
    + apply bool_decide_eq_false in Hseen.
      destruct (IH (l ++ [key])%list ({[key]} ∪ s)) as (Hd & Hs & Hm).
      * apply NoDup_app. split; [exact Hdup|]. split; [|apply NoDup_singleton].
        intros x Hx ->%list_elem_of_singleton. apply Hseen. now apply Hset.
      * intros m. rewrite elem_of_union, elem_of_singleton, elem_of_app,
          list_elem_of_singleton, Hset. tauto.
      * split; [exact Hd|]. split; [exact Hs|].
        intros m. rewrite Hm, elem_of_app, list_elem_of_singleton,
          elem_of_cons. tauto.
Qed.

Section WithLib.
Context `{lib : Lib} `{range : MapRange}.

Lemma range_keys (call : nat) (failed : gmap string (list string))
    (m : string) :
  m ∈ map fst (rangeOrder call (list string) failed) <->
  is_Some (failed !! m).
Proof.
  rewrite list_elem_of_In, in_map_iff. split.
  - intros ([k names] & <- & Hin). cbn.
    apply list_elem_of_In in Hin. rewrite rangeOrder_perm in Hin.
    apply elem_of_map_to_list in Hin. eauto.
  - intros [names Hnames]. exists (m, names). split; [reflexivity|].
    apply list_elem_of_In. rewrite rangeOrder_perm.
    now apply elem_of_map_to_list.
Qed.

Lemma collectFailedMetrics_loop (results : list RuleResult.t) (call : nat)
    (failedMetrics : list string) (failedMetricsMap : gset string) :
  NoDup failedMetrics ->
  (forall m, m ∈ failedMetricsMap <-> m ∈ failedMetrics) ->
  let state :=
    collectFailedMetrics call results (failedMetrics, failedMetricsMap) in
  NoDup state.1 /\
  (forall m, m ∈ state.1 <->
             m ∈ failedMetrics \/ failedSomewhere results m).
Proof.
  revert call failedMetrics failedMetricsMap.
  induction results as [|result results IH]; intros call l s Hdup Hset;
    cbv zeta.
  - cbn. split; [exact Hdup|]. intros m. split; [now left|].
    intros [?|(r & Hr & _)]; [assumption|inversion Hr].
  - cbn [collectFailedMetrics].
    pose proof (collectFailed_loop
                  (map fst (rangeOrder call (list string)
                              (RuleResult.FailedMetrics result)))
                  l s Hdup Hset) as Hinner.
    cbv zeta in Hinner.
    destruct (fold_left collectFailed _ (l, s)) as [l1 s1].
    cbn [fst snd] in Hinner. destruct Hinner as (Hd1 & Hs1 & Hm1).
    specialize (IH (S call) l1 s1 Hd1 Hs1). cbv zeta in IH.
    destruct IH as [Hd Hm]. split; [exact Hd|].
    intros m. rewrite Hm, Hm1, range_keys. unfold failedSomewhere. split.
    + intros [[?|Hhere]|(r & Hr & Hfailed)].
      * now left.
      * right. exists result. split; [left|exact Hhere].
      * right. exists r. split; [now right|exact Hfailed].
    + intros [?|(r & [->|Hr]%elem_of_cons & Hfailed)].
      * left. now left.
      * left. now right.
      * right. now exists r.
Qed.

Context (showCosts : bool) (costPrice : float).

Lemma filtered_views (e : RuleEngine) (jobName : string)
    (jobData : list Loaders.JobMetricData.t) :
  aligned e 0 (exclusionList e) ->
  FilterExcludedMetrics e jobName
    (ConvertJobMetricToCardinality jobData)
    (ConvertJobMetricToLabels jobData)
  = Some (ConvertJobMetricToCardinality (remaining e jobName jobData),
          ConvertJobMetricToLabels (remaining e jobName jobData)).
Proof.
  intros Hal. rewrite ExclusionFacts.FilterExcludedMetrics_aligned
    by exact Hal.
  rewrite !ExclusionFacts.ConvertJobMetricToCardinality_map,
    !ExclusionFacts.ConvertJobMetricToLabels_map.
  rewrite !ExclusionFacts.filter_map_comm. reflexivity.
Qed.

Lemma excluded_message (jobName : string) :
  isExclusionError ("job " ++ jobName ++ " is excluded from evaluation")
  = true.
Proof.
  unfold isExclusionError. apply orb_true_iff. left.
  assert (Hmsg : "job " ++ jobName ++ " is excluded from evaluation"
                 = ("job " ++ jobName ++ " ")
                   ++ "is excluded from evaluation" ++ "").
  { rewrite !StringFacts.append_assoc. reflexivity. }
  rewrite Hmsg. apply Contains_middle.
Qed.

Lemma nothing_left_message (jobName : string) :
  isExclusionError ("no metrics remaining after exclusion filtering"
                    ++ " for job " ++ jobName) = true.
Proof.
  unfold isExclusionError. apply orb_true_iff. right.
  exact (Contains_middle ""
           "no metrics remaining after exclusion filtering"
           (" for job " ++ jobName)).
Qed.

(** *** What the caller learns about a job file *)

(** When the exclusion list leaves none of the records of a job file
    (the job is excluded as a whole, or each of its metrics is), the
    evaluation of the file ends in an error that the caller counts as
    an exclusion, not as a failure. *)
Theorem excluded_job_files_are_counted_as_excluded
    (files : gmap string string)
    (unmarshal : string -> result RulesConfig) (rulesFile : string)
    (e : RuleEngine) (dir : gmap string string) (filePath : string)
    (first : Loaders.JobMetricData.t)
    (rest : list Loaders.JobMetricData.t) :
  NewRuleEngine files unmarshal rulesFile = Ok e ->
  Loaders.LoadJobMetricReport dir filePath = (first :: rest, None) ->
  remaining e (Loaders.JobMetricData.Job first) (first :: rest) = [] ->
  exists msg,
    evaluateSingleJobFile showCosts costPrice dir filePath e
    = Some (Err msg) /\
    isExclusionError msg = true.
Proof.
  intros Hal%ExclusionFacts.built_aligned Hload Hnone.
  unfold evaluateSingleJobFile. rewrite Hload.
  rewrite (ExclusionFacts.IsJobExcluded_aligned _ _ Hal).
  cbn [mbind option_bind].
  destruct (existsb _ (exclusionList e)).
  - eexists. split; [reflexivity|apply excluded_message].
  - rewrite (filtered_views _ _ _ Hal), Hnone. cbn [mbind option_bind].
    eexists. split; [reflexivity|apply nothing_left_message].
Qed.

(** A job file that evaluates is reported under the job of its first
    record, with the number of all its records as the metric total,
    whereas the cardinality total, the rule results and the score
    cover only the records the exclusion list leaves; the list of
    failed metrics has no duplicates and holds exactly the metrics
    that some rule result lists as failed, in whatever order the
    failure tables are ranged over. *)
Theorem job_report_covers_the_remaining_records
    (files : gmap string string)
    (unmarshal : string -> result RulesConfig) (rulesFile : string)
    (e : RuleEngine) (dir : gmap string string) (filePath : string)
    (r : JobScoreResult.t) :
  NewRuleEngine files unmarshal rulesFile = Ok e ->
  evaluateSingleJobFile showCosts costPrice dir filePath e = Some (Ok r) ->
  exists first rest,
    Loaders.LoadJobMetricReport dir filePath = (first :: rest, None) /\
    let jobData := first :: rest in
    let left := remaining e (Loaders.JobMetricData.Job first) jobData in
    JobScoreResult.JobName r = Loaders.JobMetricData.Job first /\
    JobScoreResult.TotalMetrics r = len jobData /\
    left <> [] /\
    JobScoreResult.TotalCardinality r = wrap64 (sumCardinality left) /\
    EvaluateWithData (evaluator e)
      (ConvertJobMetricToCardinality left)
      (ConvertJobMetricToLabels left)
    = Ok (JobScoreResult.RuleResults r) /\
    JobScoreResult.Score r
    = CalculateInstrumentationScore (JobScoreResult.RuleResults r) /\
    NoDup (JobScoreResult.FailedMetrics r) /\
    forall m, m ∈ JobScoreResult.FailedMetrics r <->
              failedSomewhere (JobScoreResult.RuleResults r) m.
Proof.
  intros Hal%ExclusionFacts.built_aligned.
  unfold evaluateSingleJobFile.
  destruct (Loaders.LoadJobMetricReport dir filePath)
    as [jobData [err|]]; [discriminate|].
  destruct jobData as [|first rest]; [discriminate|].
  rewrite (ExclusionFacts.IsJobExcluded_aligned _ _ Hal).
  cbn [mbind option_bind].
  destruct (existsb _ (exclusionList e)); [discriminate|].
  rewrite (filtered_views _ _ _ Hal). cbn [mbind option_bind].
  set (left := remaining e (Loaders.JobMetricData.Job first)
                 (first :: rest)).
  destruct left as [|jm left'] eqn:Hleft; [discriminate|].
  rewrite <- Hleft.
  assert (Hsome : (len (ConvertJobMetricToCardinality left) =? 0)
                  && (len (ConvertJobMetricToLabels left) =? 0) = false).
  { rewrite Hleft, ExclusionFacts.ConvertJobMetricToCardinality_map.
    reflexivity. }
  rewrite Hsome.
  destruct (EvaluateWithData (evaluator e) _ _) as [results|err] eqn:Heval;
    [|discriminate].
  assert (Hempty : forall m : string, m ∈ (∅ : gset string) <-> m ∈ [])
    by set_solver.
  pose proof (collectFailedMetrics_loop results 1 [] ∅ NoDup_nil_2 Hempty)
    as Hfailed.
  cbv zeta in Hfailed.
  destruct (collectFailedMetrics 1 results ([], ∅)) as [failed seen].
  cbn [fst snd] in Hfailed.
  destruct Hfailed as [Hdup Hmem].
  intros [= <-]. exists first, rest. split; [reflexivity|].
  cbv zeta. fold left.
  cbn [JobScoreResult.JobName JobScoreResult.TotalMetrics
         JobScoreResult.TotalCardinality JobScoreResult.RuleResults
         JobScoreResult.Score JobScoreResult.FailedMetrics].
  split; [reflexivity|]. split; [reflexivity|].
  split; [rewrite Hleft; discriminate|].
  split.
  { change 0 with (wrap64 0) at 1.
    now rewrite totalCardinality_loop, sumCounts_converted. }
  split; [exact Heval|]. split; [reflexivity|]. split; [exact Hdup|].
  intros m. rewrite Hmem. split; [|now right].
  intros [Hnil|?]; [inversion Hnil|assumption].
Qed.

End WithLib.

(** *** Two job files *)

Lemma legacy_file_is_counted_as_excluded :
  exists msg,
    evaluateSingleJobFile (lib := Demo.lowerWordLib)
      (range := FileDemo.listOrder) false 0%float EvaluateDemo.dir
      "legacy-batch.txt" ExclusionDemo.engine = Some (Err msg) /\
    isExclusionError msg = true.
Proof.
  apply (excluded_job_files_are_counted_as_excluded
           (lib := Demo.lowerWordLib) (range := FileDemo.listOrder)
           false 0%float
           ExclusionDemo.files ExclusionDemo.unmarshal "rules_config.yaml"
           ExclusionDemo.engine EvaluateDemo.dir "legacy-batch.txt"
           (Loaders.JobMetricData.mk "legacy-batch" "up" ["instance"] 3 None)
           []);
    vm_compute; reflexivity.
Defined.

Example api_file_report :
  exists r,
    evaluateSingleJobFile (lib := Demo.lowerWordLib)
      (range := FileDemo.listOrder) false 0%float EvaluateDemo.dir
      "api.txt" ExclusionDemo.engine = Some (Ok r) /\
    JobScoreResult.TotalMetrics r = 3 /\
    JobScoreResult.TotalCardinality r = 16500 /\
    JobScoreResult.FailedMetrics r = ["high_cardinality_metric"].
Proof.
  eexists. split; [vm_compute; reflexivity|].
  split; [reflexivity|]. split; reflexivity.
Qed.

Lemma api_file_report_covers_the_remaining_records :
  exists r first rest,
    evaluateSingleJobFile (lib := Demo.lowerWordLib)
      (range := FileDemo.listOrder) false 0%float EvaluateDemo.dir
      "api.txt" ExclusionDemo.engine = Some (Ok r) /\
    Loaders.LoadJobMetricReport EvaluateDemo.dir "api.txt"
    = (first :: rest, None) /\
    JobScoreResult.TotalMetrics r = len (first :: rest) /\
    JobScoreResult.TotalCardinality r
    = wrap64 (sumCardinality
                (remaining ExclusionDemo.engine
                   (Loaders.JobMetricData.Job first) (first :: rest))) /\
    NoDup (JobScoreResult.FailedMetrics r).
Proof.
  assert (Hrun : exists r,
             evaluateSingleJobFile (lib := Demo.lowerWordLib)
               (range := FileDemo.listOrder) false 0%float EvaluateDemo.dir
               "api.txt" ExclusionDemo.engine = Some (Ok r))
    by (eexists; vm_compute; reflexivity).
  destruct Hrun as [r Hrun].
  destruct (job_report_covers_the_remaining_records
              (lib := Demo.lowerWordLib) (range := FileDemo.listOrder)
              false 0%float
              ExclusionDemo.files ExclusionDemo.unmarshal "rules_config.yaml"
              ExclusionDemo.engine EvaluateDemo.dir "api.txt" r
              eq_refl Hrun)
    as (first & rest & Hload & _ & Htotal & _ & Hcard & _ & _ & Hdup & _).
  exists r, first, rest. auto.
Defined.

End EvaluateFacts.

(** ** Properties of the writer and of the fifth column *)

Module WriterFacts.
Import GoStrings RecordFileSpec StringFacts WriterSpec.
Module CJ := Collectors.JobMetricData.
Module LJ := Loaders.JobMetricData.

(** *** Printing an integer and parsing it back *)

Lemma parseDigits_uint (d : Decimal.uint) (acc : Z) :
  parseDigits (NilEmpty.string_of_uint d) acc = Some (uintValue d acc).
Proof.
  revert acc.
  induction d as [|d IH|d IH|d IH|d IH|d IH|d IH|d IH|d IH|d IH|d IH];
    intros acc; [reflexivity|..];
    cbn [NilEmpty.string_of_uint parseDigits uintValue];
    match goal with
    | |- context [digitValue ?c] =>
        let v := eval vm_compute in (digitValue c) in
        change (digitValue c) with v
    end; cbv iota beta; rewrite ?Z.add_0_r; apply IH.
Qed.

Lemma uintValue_acc (d : Decimal.uint) (acc : positive) :
  uintValue d (Z.pos acc) = Z.pos (Pos.of_uint_acc d acc).
Proof.
  revert acc.
  induction d as [|d IH|d IH|d IH|d IH|d IH|d IH|d IH|d IH|d IH|d IH];
    intros acc; [reflexivity|..];
    cbn [uintValue Pos.of_uint_acc]; rewrite <- IH; f_equal; lia.
Qed.

Lemma uintValue_zero (d : Decimal.uint) :
  uintValue d 0 = Z.of_N (Pos.of_uint d).
Proof.
  induction d as [|d IH|d IH|d IH|d IH|d IH|d IH|d IH|d IH|d IH|d IH];
    [reflexivity|exact IH|..];
    cbn [uintValue Pos.of_uint Z.of_N]; rewrite <- uintValue_acc;
    reflexivity.
Qed.

Lemma parseDigits_to_uint (p : positive) :
  parseDigits (NilZero.string_of_uint (Pos.to_uint p)) 0 = Some (Z.pos p).
Proof.
  assert (Hnz : NilZero.string_of_uint (Pos.to_uint p)
                = NilEmpty.string_of_uint (Pos.to_uint p)).
  { pose proof (Unsigned.to_uint_nonnil p) as Hne.
    now destruct (Pos.to_uint p). }
  rewrite Hnz, parseDigits_uint, uintValue_zero, Unsigned.of_to.
  reflexivity.
Qed.

Lemma string_of_uint_decimal (d : Decimal.uint) :
  decimal (NilZero.string_of_uint d) = true.
Proof.
  unfold decimal.
  destruct d; try reflexivity;
    (apply andb_true_iff; split; [reflexivity|];
     apply (string_of_uint_digits (_ d))).
Qed.

(** [%d] and [strconv.ParseInt] are inverse on int64. *)
Lemma ParseInt_itoa (z : Z) :
  int64 z = true -> ParseInt (Go.itoa z) = Some z.
Proof.
  unfold int64, Go.minInt64, Go.maxInt64.
  rewrite andb_true_iff, !Z.leb_le. intros [Hlo Hhi].
  destruct z as [|p|p]; [reflexivity| |].
  - assert (Hv : decimalValue (NilZero.string_of_uint (Pos.to_uint p))
                 = Z.pos p).
    { unfold decimalValue. now rewrite parseDigits_to_uint. }
    change (Go.itoa (Z.pos p))
      with (NilZero.string_of_uint (Pos.to_uint p)).
    rewrite ParseInt_decimal; [now rewrite Hv| |].
    + apply string_of_uint_decimal.
    + rewrite Hv. unfold Go.maxInt64. lia.
  - unfold Go.itoa. cbn [Z.to_int NilZero.string_of_int ParseInt].
    change (Ascii.eqb "-" "+") with false.
    change (Ascii.eqb "-" "-") with true. cbv iota.
    pose proof (string_of_uint_decimal (Pos.to_uint p)) as Hdec.
    pose proof (parseDigits_to_uint p) as Hv.
    unfold ParseUint.
    destruct (NilZero.string_of_uint (Pos.to_uint p)) as [|c s] eqn:Hs;
      [discriminate|].
    rewrite Hv.
    destruct (Z.ltb_spec (Z.pos p) (2 ^ 64)); [|lia].
    cbn [negb andb].
    destruct (Z.ltb_spec (2 ^ 63) (Z.pos p)); [lia|reflexivity].
Qed.
Lemma itoa_plain (c : ascii) (z : Z) :
  isDigit c = false -> Ascii.eqb c "-" = false ->
  hasByte c (Go.itoa z) = false.
Proof.
  intros Hc Hm. destruct (itoa_shape z) as (sign & digits & -> & Hsign & Hdec).
  apply decimal_spec in Hdec as (x & rest & _ & _ & Hall).
  rewrite hasByte_app, (hasByte_digits c digits Hc Hall), orb_false_r.
  destruct Hsign as [->| ->]; [reflexivity|].
  unfold hasByte. cbn. now rewrite Hm.
Qed.

Lemma itoa_trimmed (z : Z) : trimmed (Go.itoa z) = true.
Proof.
  apply trimmed_spec. split; [|apply endsIn_plain_back, itoa_endsIn].
  destruct (itoa_shape z) as (sign & digits & -> & Hsign & Hdec).
  apply decimal_spec in Hdec as (x & rest & -> & Hx & _).
  destruct Hsign as [->| ->].
  - rewrite append_nil_l. apply stripAny_head.
    now apply plainEnd_not_space, isDigit_plainEnd.
  - now apply stripAny_head.
Qed.

(** *** The fifth column *)

Lemma countParts_loop (counts : gmap string Z) (labels parts : list string) :
  fold_left
    (fun parts label =>
       match counts !! label with
       | Some count =>
           (parts ++ [(label ++ ":" ++ Go.itoa count)%string])%list
       | None => parts
       end) labels parts
  = (parts ++ map countText (countedLabels counts labels))%list.
Proof.
  revert parts. induction labels as [|l labels IH]; intros parts.
  - cbn. now rewrite app_nil_r.
  - cbn [fold_left]. rewrite IH. unfold countedLabels.
    rewrite (AccountingFacts.omap_cons _ l labels).
    destruct (counts !! l) as [c|]; [|reflexivity].
    rewrite <- app_assoc. reflexivity.
Qed.

Lemma elem_of_countedLabels (counts : gmap string Z) (labels : list string)
    (l : string) (c : Z) :
  (l, c) ∈ countedLabels counts labels <->
  l ∈ labels /\ counts !! l = Some c.
Proof.
  unfold countedLabels. rewrite list_elem_of_omap. split.
  - intros (x & Hx & Hf). destruct (counts !! x) as [v|] eqn:Hv;
      [|discriminate].
    cbn in Hf. injection Hf as <- <-. auto.
  - intros [Hl Hc]. exists l. split; [exact Hl|]. now rewrite Hc.
Qed.

Lemma labelCardinalityStr_counted (d : CJ.t) (counts : gmap string Z) :
  CJ.LabelCardinality d = Some counts ->
  Collectors.labelCardinalityStr d
  = Join (map countText (countedLabels counts (CJ.Labels d))) ",".
Proof.
  intros Hc. unfold Collectors.labelCardinalityStr. rewrite Hc.
  destruct (Z.ltb_spec 0 (Z.of_nat (size counts))) as [_|Hsize].
  - now rewrite countParts_loop.
  - assert (Hempty : counts = ∅) by (apply map_size_empty_inv; lia).
    destruct (countedLabels counts (CJ.Labels d)) as [|[l c] rest] eqn:Hp;
      [reflexivity|].
    assert (Hin : (l, c) ∈ countedLabels counts (CJ.Labels d))
      by (rewrite Hp; left).
    apply elem_of_countedLabels in Hin as [_ Hl].
    now rewrite Hempty, lookup_empty in Hl.
Qed.

Lemma countText_Split (kv : string * Z) :
  plainCount kv -> Split (countText kv) ":" = [kv.1; Go.itoa kv.2].
Proof.
  intros (_ & _ & Hcolon & _). unfold countText. rewrite byte_app.
  rewrite (Split_app_sep _ _ _ Hcolon).
  now rewrite (Split_no_sep _ _ (itoa_plain ":" kv.2 eq_refl eq_refl)).
Qed.

Lemma parseCounts_loop (pairs : list (string * Z)) (m : gmap string Z) :
  Forall plainCount pairs ->
  fold_left
    (fun labelCardinality part' =>
       let kv := Split part' ":" in
       if len kv =? 2 then
         match ParseInt (TrimSpace (Loaders.part kv 1)) with
         | Some count => <[TrimSpace (Loaders.part kv 0) := count]>
                           labelCardinality
         | None => labelCardinality
         end
       else labelCardinality)
    (map countText pairs) m
  = fold_left (fun m (kv : string * Z) => <[kv.1 := kv.2]> m) pairs m.
Proof.
  intros Hall. revert m.
  induction Hall as [|kv pairs Hkv _ IH]; intros m; [reflexivity|].
  cbn [map fold_left]. rewrite <- IH. f_equal. cbn zeta.
  rewrite (countText_Split kv Hkv).
  destruct Hkv as (_ & _ & _ & Ht & _ & Hint).
  change (len [kv.1; Go.itoa kv.2] =? 2) with true. cbv iota.
  unfold Loaders.part. cbn [lookup list_lookup default]. unfold id.
  rewrite (TrimSpace_trimmed _ (itoa_trimmed kv.2)).
  rewrite (ParseInt_itoa _ Hint).
  now rewrite (TrimSpace_trimmed _ Ht).
Qed.

Lemma insert_loop (counts : gmap string Z) (pairs : list (string * Z))
    (m : gmap string Z) (x : string) :
  Forall (fun kv => counts !! kv.1 = Some kv.2) pairs ->
  fold_left (fun m (kv : string * Z) => <[kv.1 := kv.2]> m) pairs m !! x
  = if decide (x ∈ pairs.*1) then counts !! x else m !! x.
Proof.
  intros Hall. revert m.
  induction Hall as [|[l c] pairs Hkv _ IH]; intros m; [reflexivity|].
  cbn [fold_left fmap list_fmap fst snd] in *. rewrite IH.
  destruct (decide (x = l)) as [->|Hne].
  - rewrite lookup_insert_eq, Hkv.
    rewrite (decide_True (P := l ∈ l :: pairs.*1)) by left.
    now destruct (decide (l ∈ pairs.*1)).
  - rewrite lookup_insert_ne by congruence.
    destruct (decide (x ∈ pairs.*1)) as [Hin|Hout].
    + now rewrite decide_True by now right.
    + rewrite decide_False; [reflexivity|].
      intros [?|?]%elem_of_cons; contradiction.
Qed.

Lemma elem_of_counted_labels (counts : gmap string Z) (labels : list string)
    (x : string) :
  x ∈ (countedLabels counts labels).*1 <->
  x ∈ labels /\ is_Some (counts !! x).
Proof.
  rewrite list_elem_of_fmap. split.
  - intros ([l c] & -> & Hin). apply elem_of_countedLabels in Hin as [? Hc].
    split; [assumption|]. now exists c.
  - intros [Hx [c Hc]]. exists (x, c). split; [reflexivity|].
    now apply elem_of_countedLabels.
Qed.

(** The counts inserted while reading are those of the record's labels. *)
Lemma counts_read_back (counts : gmap string Z) (labels : list string) :
  fold_left (fun m (kv : string * Z) => <[kv.1 := kv.2]> m)
    (countedLabels counts labels) ∅
  = filter (fun kv : string * Z => kv.1 ∈ labels) counts.
Proof.
  apply map_eq. intros x.
  rewrite (insert_loop counts).
  - destruct (decide (x ∈ (countedLabels counts labels).*1)) as [Hin|Hout].
    + apply elem_of_counted_labels in Hin as [Hx [c Hc]]. rewrite Hc.
      symmetry. now apply map_lookup_filter_Some.
    + rewrite lookup_empty. symmetry. apply map_lookup_filter_None.
      destruct (counts !! x) as [c|] eqn:Hc; [right|now left].
      intros c' [= <-] Hx. apply Hout, elem_of_counted_labels.
      split; [exact Hx|now exists c].
  - apply Forall_forall. intros [l c] Hin.
    now apply elem_of_countedLabels in Hin as [_ Hc].
Qed.
Lemma portableCounts_spec (d : CJ.t) :
  portableRecord d = true -> portableCounts d = true ->
  forall counts,
    CJ.LabelCardinality d = Some counts ->
    Forall plainCount (countedLabels counts (CJ.Labels d)).
Proof.
  intros Hd Hp counts Hc. unfold portableCounts in Hp. rewrite Hc in Hp.
  apply andb_true_iff in Hp as [Hcolon Hint].
  rewrite forallb_forall in Hcolon, Hint.
  pose proof (RecordFacts.labels_plain d Hd) as Hl.
  rewrite Forall_forall in Hl.
  apply Forall_forall. intros [l c] [Hin Hlc]%elem_of_countedLabels.
  destruct (Hl l Hin) as (Hpipe & _ & Hcomma & Ht & Hne).
  apply list_elem_of_In in Hin.
  specialize (Hcolon l Hin). specialize (Hint l Hin).
  rewrite Hlc in Hint. apply negb_true_iff in Hcolon.
  repeat split; assumption.
Qed.

Lemma countText_plain (kv : string * Z) :
  plainCount kv ->
  hasByte "|" (countText kv) = false /\
  hasByte "," (countText kv) = false /\
  stripAny whiteSpace (bytes (countText kv)) = None /\
  endsIn plainEnd (countText kv) /\ countText kv <> "".
Proof.
  intros (Hpipe & Hcomma & _ & Ht & Hne & _). unfold countText.
  rewrite !hasByte_app, Hpipe, Hcomma.
  rewrite (itoa_plain "|" kv.2 eq_refl eq_refl).
  rewrite (itoa_plain "," kv.2 eq_refl eq_refl).
  repeat split.
  - rewrite byte_app, bytes_app.
    change (bytes (String ":" ?rest)) with (":"%char :: bytes rest).
    apply stripAny_app_sep; [reflexivity|].
    now apply trimmed_spec in Ht as [Ht _].
  - apply endsIn_app, endsIn_app, itoa_endsIn.
  - destruct kv.1; [done|discriminate].
Qed.

Lemma Join_nonempty (e : string) (rest : list string) (sep : string) :
  e <> "" -> Join (e :: rest) sep <> "".
Proof.
  intros He. destruct rest as [|e' rest]; [exact He|].
  rewrite Join_cons. destruct e; [done|discriminate].
Qed.

(** The fifth column of a portable record: one part of the line, with
    nothing to trim, that parses to the counts of the record's labels. *)
Lemma fifth_column (d : CJ.t) :
  portableRecord d = true -> portableCounts d = true ->
  Split (Collectors.labelCardinalityStr d) "|"
  = [Collectors.labelCardinalityStr d] /\
  TrimSpace (Collectors.labelCardinalityStr d)
  = Collectors.labelCardinalityStr d /\
  (if negb (Collectors.labelCardinalityStr d =s "")
   then Some (Loaders.parseLabelCardinality
                (Collectors.labelCardinalityStr d))
   else None) = countsRead d.
Proof.
  intros Hd Hp. unfold countsRead.
  destruct (CJ.LabelCardinality d) as [counts|] eqn:Hc;
    [|unfold Collectors.labelCardinalityStr; rewrite Hc; now vm_compute].
  rewrite (labelCardinalityStr_counted d counts Hc).
  pose proof (portableCounts_spec d Hd Hp counts Hc) as Hplain.
  pose proof (counts_read_back counts (CJ.Labels d)) as Hback.
  destruct (countedLabels counts (CJ.Labels d)) as [|kv pairs] eqn:Hpairs.
  - cbn [fold_left] in Hback. rewrite <- Hback.
    rewrite decide_True by reflexivity. now vm_compute.
  - assert (Hparts : Forall (fun p =>
              hasByte "|" p = false /\ hasByte "," p = false /\
              stripAny whiteSpace (bytes p) = None /\
              endsIn plainEnd p /\ p <> "")
              (map countText (kv :: pairs))).
    { apply Forall_map. eapply Forall_impl; [exact Hplain|].
      intros x Hx. now apply countText_plain. }
    set (parts := map countText (kv :: pairs)) in *.
    assert (Hne : parts <> []) by done.
    assert (Hstr : Join parts "," <> "").
    { unfold parts. cbn [map]. apply Join_nonempty.
      now apply (countText_plain kv), (Forall_inv Hplain). }
    split; [|split].
    + apply Split_no_sep, hasByte_Join; [reflexivity|].
      eapply Forall_impl; [exact Hparts|]. now intros p (? & _).
    + apply TrimSpace_trimmed, trimmed_spec. split.
      * apply RecordFacts.Join_front;
          [exact whiteSpace_avoids_comma| |exact Hne].
        eapply Forall_impl; [exact Hparts|]. now intros p (_ & _ & ? & _).
      * apply endsIn_plain_back, RecordFacts.Join_endsIn; [exact Hne|].
        eapply Forall_impl; [exact Hparts|].
        now intros p (_ & _ & _ & ? & _).
    + apply String.eqb_neq in Hstr. rewrite Hstr. cbn [negb].
      unfold Loaders.parseLabelCardinality.
      rewrite Split_Join;
        [|exact Hne
         |eapply Forall_impl; [exact Hparts|]; now intros p (_ & ? & _)].
      unfold parts. rewrite (parseCounts_loop _ _ Hplain), Hback.
      rewrite decide_False; [reflexivity|].
      intros Hempty.
      assert (Hin : kv ∈ countedLabels counts (CJ.Labels d))
        by (rewrite Hpairs; left).
      destruct kv as [l c].
      apply elem_of_countedLabels in Hin as [Hl Hlc].
      assert (Hsome : filter (fun kv : string * Z => kv.1 ∈ CJ.Labels d)
                        counts !! l = Some c)
        by now apply map_lookup_filter_Some.
      now rewrite Hempty, lookup_empty in Hsome.
Qed.

(** *** Reading a line back, whole *)

Lemma parseLine_lineText_record (d : CJ.t) (data : list LJ.t) :
  portableRecord d = true -> portableCounts d = true ->
  Loaders.parseLine data (lineText d) = (data ++ [writtenRecord d])%list.
Proof.
  intros Hd Hp. unfold Loaders.parseLine. cbn zeta.
  rewrite (TrimSpace_trimmed _ (RecordFacts.lineText_trimmed d Hd)).
  rewrite (RecordFacts.lineText_not_comment d Hd).
  rewrite (RecordFacts.lineText_Split d Hd).
  destruct (fifth_column d Hd Hp) as (Hsplit & Htrim & Hcounts).
  rewrite Hsplit.
  change (len [CJ.Job d; CJ.MetricName d; Join (CJ.Labels d) ",";
               CJ.Cardinality d; Collectors.labelCardinalityStr d] <? 4)
    with false.
  change (5 <=? len [CJ.Job d; CJ.MetricName d; Join (CJ.Labels d) ",";
                     CJ.Cardinality d; Collectors.labelCardinalityStr d])
    with true.
  cbv iota. unfold Loaders.part. cbn [lookup list_lookup default andb].
  unfold id.
  pose proof (RecordFacts.portableRecord_spec d Hd)
    as (Hj & _ & Hm & _ & Hdec & Hmax & _).
  apply RecordFacts.plainName_spec in Hj as (_ & _ & Hj).
  apply RecordFacts.plainName_spec in Hm as (_ & _ & Hm).
  pose proof (RecordFacts.labels_plain d Hd) as Hl.
  rewrite (TrimSpace_trimmed _ (decimal_trimmed _ Hdec)).
  rewrite (ParseInt_decimal _ Hdec Hmax).
  rewrite Htrim, Hcounts.
  rewrite (TrimSpace_trimmed _ Hj), (TrimSpace_trimmed _ Hm).
  rewrite (TrimSpace_trimmed (Join (CJ.Labels d) ",")).
  - rewrite RecordFacts.cleanLabels_Split_Join; [reflexivity|].
    eapply Forall_impl; [exact Hl|]. now intros x (_ & _ & ? & ? & ?).
  - apply RecordFacts.Join_trimmed.
    eapply Forall_impl; [exact Hl|]. now intros x (_ & _ & _ & ? & _).
Qed.

Lemma parseLine_records (records : list CJ.t) (data : list LJ.t) :
  Forall (fun d => portableRecord d = true /\ portableCounts d = true)
         records ->
  fold_left Loaders.parseLine (map lineText records) data
  = (data ++ map writtenRecord records)%list.
Proof.
  intros Hall. revert data.
  induction Hall as [|d records [Hd Hp] _ IH]; intros data.
  - cbn. now rewrite app_nil_r.
  - cbn [map fold_left]. rewrite (parseLine_lineText_record d data Hd Hp).
    rewrite IH, <- app_assoc. reflexivity.
Qed.

Lemma LoadJobMetricReport_records (dir : gmap string string)
    (filename : string) (records : list CJ.t) :
  dir !! filename = Some (fileText records) ->
  Forall (fun d => portableRecord d = true /\ portableCounts d = true)
         records ->
  Loaders.LoadJobMetricReport dir filename
  = (map writtenRecord records, None).
Proof.
  intros Hfile Hall. unfold Loaders.LoadJobMetricReport. rewrite Hfile.
  rewrite (RecordFacts.Scan_fileText records).
  - cbn [tail]. now rewrite parseLine_records.
  - eapply Forall_impl; [exact Hall|]. now intros d [? _].
Qed.
(** *** Writing when some files cannot be created *)

Lemma writeRecord_skipping (canCreate : string -> bool)
    (st : Collectors.writerState) (done : list CJ.t) (d : CJ.t) :
  skippingInvariant canCreate st done ->
  distinctFiles (done ++ [d]) ->
  exists st',
    Collectors.writeRecord canCreate (Some st) d = Some st' /\
    skippingInvariant canCreate st' (done ++ [d]).
Proof.
  destruct st as [jobFiles files skipped errors].
  intros (Hskip & Hjobs & Hfiles & Hdom) Hdistinct.
  cbn [Collectors.skippedJobs Collectors.jobFiles Collectors.files] in *.
  set (job := CJ.Job d). set (file := Collectors.fileName job).
  assert (Hother : forall j, seen j (done ++ [d]) = true -> j <> job ->
                             Collectors.fileName j <> file).
  { intros j Hj Hne Heq. apply Hne.
    apply RecordFacts.seen_spec in Hj as (dj & Hin & <-).
    apply (Hdistinct dj d); [exact Hin| |exact Heq].
    apply elem_of_app. right. left. }
  assert (Hseen' : forall j,
             seen j (done ++ [d]) = seen j done || (job =s j))
    by (intros j; apply RecordFacts.seen_app).
  assert (Hrec : forall j, j <> job ->
                           recordsOf j (done ++ [d]) = recordsOf j done).
  { intros j Hne. rewrite RecordFacts.recordsOf_app.
    change (CJ.Job d) with job.
    destruct (String.eqb_spec job j); [congruence|]. apply app_nil_r. }
  assert (Hdom' : forall f,
             is_Some (files !! f) ->
             canCreate f = true /\
             exists d0, d0 ∈ (done ++ [d])%list /\
                        Collectors.fileName (CJ.Job d0) = f).
  { intros f Hf. destruct (Hdom f Hf) as (Hc & d0 & Hin & Heq).
    split; [exact Hc|]. exists d0.
    split; [apply elem_of_app; now left|exact Heq]. }
  unfold Collectors.writeRecord. cbn [mbind option_bind].
  cbn [Collectors.skippedJobs Collectors.jobFiles Collectors.files
       Collectors.writeErrors].
  fold job. fold file.
  destruct (canCreate file) eqn:Hcc.
  - (* the file of the job can be created *)
    rewrite bool_decide_eq_false_2
      by (intros [_ Hf]%Hskip; fold file in Hf; congruence).
    rewrite Hjobs. fold file. rewrite Hcc, andb_true_r.
    assert (Hnew : forall jobFiles' files',
               (forall j, jobFiles' !! j
                          = if seen j (done ++ [d])
                               && canCreate (Collectors.fileName j)
                            then Some (Collectors.fileName j) else None) ->
               files' !! file
               = Some (fileText (recordsOf job (done ++ [d]))) ->
               (forall f, f <> file -> files' !! f = files !! f) ->
               skippingInvariant canCreate
                 (Collectors.mkWriterState jobFiles' files' skipped errors)
                 (done ++ [d])).
    { intros jobFiles' files' Hjobs' Hfile Hrest.
      split; [|split; [exact Hjobs'|split]];
        cbn [Collectors.skippedJobs Collectors.jobFiles Collectors.files].
      - intros j. rewrite Hskip, Hseen'.
        destruct (String.eqb_spec job j) as [<-|Hne].
        + fold file. rewrite Hcc.
          split; intros [_ ?]; discriminate.
        + now rewrite orb_false_r.
      - intros j Hj Hc. destruct (String.eqb_spec j job) as [->|Hne].
        + exact Hfile.
        + rewrite Hrest by now apply Hother.
          rewrite Hrec by exact Hne. apply Hfiles; [|exact Hc].
          rewrite Hseen' in Hj.
          destruct (String.eqb_spec job j); [congruence|].
          now rewrite orb_false_r in Hj.
      - intros f Hf. destruct (String.eqb_spec f file) as [->|Hne].
        + split; [exact Hcc|]. exists d.
          split; [apply elem_of_app; right; left|reflexivity].
        + rewrite Hrest in Hf by exact Hne. now apply Hdom'. }
    destruct (seen job done) eqn:Hseen; cbn [mbind option_bind].
    + eexists. split; [reflexivity|].
      cbn [Collectors.files Collectors.jobFiles Collectors.skippedJobs
           Collectors.writeErrors].
      apply Hnew.
      * intros j. rewrite Hjobs, Hseen'.
        destruct (String.eqb_spec job j) as [<-|Hne];
          [now rewrite Hseen|now rewrite orb_false_r].
      * rewrite lookup_insert_eq. unfold file.
        rewrite (Hfiles job Hseen Hcc). cbn [default]. unfold id.
        rewrite RecordFacts.recordsOf_app. change (CJ.Job d) with job.
        rewrite String.eqb_refl. now rewrite RecordFacts.fileText_app.
      * intros f Hne. now rewrite lookup_insert_ne.
    + cbn [negb].
      rewrite bool_decide_eq_false_2; cbn [mbind option_bind].
      * eexists. split; [reflexivity|].
        cbn [Collectors.files Collectors.jobFiles Collectors.skippedJobs
             Collectors.writeErrors].
        apply Hnew.
        -- intros j. rewrite Hseen'.
           destruct (String.eqb_spec job j) as [<-|Hne].
           ++ fold file. rewrite lookup_insert_eq, orb_true_r, Hcc.
              reflexivity.
           ++ rewrite lookup_insert_ne by exact Hne.
              rewrite orb_false_r. apply Hjobs.
        -- rewrite !lookup_insert_eq. cbn [default]. unfold id.
           rewrite RecordFacts.recordsOf_app. change (CJ.Job d) with job.
           rewrite String.eqb_refl.
           rewrite (RecordFacts.recordsOf_unseen job done Hseen).
           cbn [app]. unfold fileText, linesText. cbn [foldr].
           now rewrite append_nil_r.
        -- intros f Hne. now rewrite !lookup_insert_ne.
      * intros Hin. apply elem_of_dom in Hin.
        destruct (Hdom file Hin) as (_ & d0 & Hin0 & Heq).
        assert (Hsame : CJ.Job d0 = job).
        { apply (Hdistinct d0 d); [apply elem_of_app; now left| |exact Heq].
          apply elem_of_app. right. left. }
        assert (Hs : seen job done = true)
          by (apply RecordFacts.seen_spec; now exists d0).
        congruence.
  - (* it cannot: the job is skipped, now or earlier *)
    assert (Hkeep : forall skipped' errors',
               (forall j, j ∈ skipped' <->
                          seen j (done ++ [d]) = true /\
                          canCreate (Collectors.fileName j) = false) ->
               skippingInvariant canCreate
                 (Collectors.mkWriterState jobFiles files skipped' errors')
                 (done ++ [d])).
    { intros skipped' errors' Hskip'.
      split; [exact Hskip'|split; [|split; [|exact Hdom']]];
        cbn [Collectors.skippedJobs Collectors.jobFiles Collectors.files].
      - intros j. rewrite Hjobs, Hseen'.
        destruct (String.eqb_spec job j) as [<-|Hne].
        + fold file. now rewrite Hcc, !andb_false_r.
        + now rewrite orb_false_r.
      - intros j Hj Hc.
        assert (Hne : j <> job) by (intros ->; fold file in Hc; congruence).
        rewrite Hrec by exact Hne. apply Hfiles; [|exact Hc].
        rewrite Hseen' in Hj.
        destruct (String.eqb_spec job j); [congruence|].
        now rewrite orb_false_r in Hj. }
    destruct (seen job done) eqn:Hseen.
    + rewrite bool_decide_eq_true_2 by now apply Hskip.
      eexists. split; [reflexivity|]. apply Hkeep.
      intros j. rewrite Hskip, Hseen'.
      destruct (String.eqb_spec job j) as [<-|Hne];
        [now rewrite Hseen|now rewrite orb_false_r].
    + rewrite bool_decide_eq_false_2
        by (intros [Hs _]%Hskip; congruence).
      rewrite Hjobs, Hseen. cbn [andb negb mbind option_bind].
      eexists. split; [reflexivity|]. apply Hkeep.
      intros j. rewrite elem_of_union, elem_of_singleton, Hskip, Hseen'.
      destruct (String.eqb_spec job j) as [<-|Hne].
      * fold file. rewrite orb_true_r. split; [auto|]. now left.
      * rewrite orb_false_r. split; [intros [->|?]; [done|assumption]|].
        now right.
Qed.

Lemma write_loop_skipping (canCreate : string -> bool)
    (rest done : list CJ.t) (st : Collectors.writerState) :
  skippingInvariant canCreate st done ->
  distinctFiles (done ++ rest) ->
  exists st',
    fold_left (Collectors.writeRecord canCreate) rest (Some st) = Some st' /\
    skippingInvariant canCreate st' (done ++ rest).
Proof.
  revert done st. induction rest as [|d rest IH]; intros done st Hinv Hd.
  - exists st. now rewrite app_nil_r.
  - cbn [fold_left].
    replace (done ++ d :: rest)%list with ((done ++ [d]) ++ rest)%list in *
      by now rewrite <- app_assoc.
    destruct (writeRecord_skipping canCreate st done d Hinv)
      as (st1 & -> & Hinv1);
      [now apply RecordFacts.distinctFiles_prefix in Hd|].
    now apply IH.
Qed.

Lemma initial_skipping (canCreate : string -> bool) :
  skippingInvariant canCreate (Collectors.mkWriterState ∅ ∅ ∅ []) [].
Proof.
  split; [|split; [|split]]; cbn.
  - intros job. split; [intros Hin; now apply not_elem_of_empty in Hin|].
    now intros [? _].
  - intros job. apply lookup_empty.
  - discriminate.
  - intros file [x Hx]. now rewrite lookup_empty in Hx.
Qed.

(** The directory [WritePerJobFiles] leaves behind. *)
Lemma WritePerJobFiles_skipping (canCreate : string -> bool)
    (allData : list CJ.t) :
  distinctFilesb allData = true ->
  exists st,
    Collectors.WritePerJobFiles canCreate allData
    = Some (Collectors.files st) /\
    skippingInvariant canCreate st allData.
Proof.
  intros Hdistinct%RecordFacts.distinctFilesb_spec.
  destruct (write_loop_skipping canCreate allData [] _
              (initial_skipping canCreate) Hdistinct)
    as (st & Hfold & Hinv).
  exists st. unfold Collectors.WritePerJobFiles. now rewrite Hfold.
Qed.

Lemma seen_elem (d : CJ.t) (allData : list CJ.t) :
  d ∈ allData -> seen (CJ.Job d) allData = true.
Proof. intros Hin. apply RecordFacts.seen_spec. now exists d. Qed.

(** Every job whose file can be created gets one file, the header
    followed by the lines of its records in the order given; a job whose
    file cannot be created gets none, and there is no other file. *)
Theorem uncreatable_jobs_are_skipped (canCreate : string -> bool)
    (allData : list CJ.t) :
  distinctFilesb allData = true ->
  exists dir,
    Collectors.WritePerJobFiles canCreate allData = Some dir /\
    written canCreate allData dir.
Proof.
  intros Hdistinct.
  destruct (WritePerJobFiles_skipping canCreate allData Hdistinct)
    as (st & Hwrite & _ & _ & Hfiles & Hdom).
  exists (Collectors.files st). split; [exact Hwrite|]. split.
  - intros d Hin.
    destruct (canCreate (Collectors.fileName (CJ.Job d))) eqn:Hcc.
    + apply Hfiles; [now apply seen_elem|exact Hcc].
    + destruct (Collectors.files st !! Collectors.fileName (CJ.Job d))
        as [content|] eqn:Hfile; [|reflexivity].
      destruct (Hdom (Collectors.fileName (CJ.Job d))) as [Hc _];
        [rewrite Hfile; now eexists|congruence].
  - intros file Hfile. now destruct (Hdom file Hfile) as [_ Hd].
Qed.

Lemma batch_job_is_skipped :
  exists dir,
    Collectors.WritePerJobFiles WriterDemo.canCreate WriterDemo.allData
    = Some dir /\
    written WriterDemo.canCreate WriterDemo.allData dir.
Proof.
  apply (uncreatable_jobs_are_skipped WriterDemo.canCreate
           WriterDemo.allData).
  vm_compute. reflexivity.
Defined.

(** When the records are portable, with labels free of colons and
    per-label counts within int64, every file that could be created
    loads without error as exactly the records of its job, in the
    order given: job, metric, labels, cardinality, and the counts of
    the record's own labels. *)
Theorem per_job_files_read_back (canCreate : string -> bool)
    (allData : list CJ.t) :
  forallb portableRecord allData = true ->
  forallb portableCounts allData = true ->
  distinctFilesb allData = true ->
  exists dir,
    Collectors.WritePerJobFiles canCreate allData = Some dir /\
    readBack canCreate allData dir.
Proof.
  intros Hportable Hcounts Hdistinct.
  destruct (WritePerJobFiles_skipping canCreate allData Hdistinct)
    as (st & Hwrite & _ & _ & Hfiles & _).
  exists (Collectors.files st). split; [exact Hwrite|].
  intros d Hin Hcc.
  apply LoadJobMetricReport_records.
  - apply Hfiles; [now apply seen_elem|exact Hcc].
  - apply Forall_forall. intros r Hr.
    apply list_elem_of_In, List.filter_In in Hr as [Hr _].
    rewrite forallb_forall in Hportable, Hcounts. auto.
Qed.

Lemma demo_files_read_back :
  exists dir,
    Collectors.WritePerJobFiles WriterDemo.canCreate WriterDemo.allData
    = Some dir /\
    readBack WriterDemo.canCreate WriterDemo.allData dir.
Proof.
  apply (per_job_files_read_back WriterDemo.canCreate WriterDemo.allData).
  - vm_compute. reflexivity.
  - vm_compute. reflexivity.
  - vm_compute. reflexivity.
Defined.

End WriterFacts.

(** ** Properties of the loaders *)

Module LoaderFacts.
Import GoStrings RecordFileSpec StringFacts WriterSpec LoaderSpec.
Module LJ := Loaders.JobMetricData.

Lemma fold_left_Forall {A B} (P : A -> Prop)
    (f : list A -> B -> list A) (l : list B) (init : list A) :
  (forall acc x, Forall P acc -> Forall P (f acc x)) ->
  Forall P init -> Forall P (fold_left f l init).
Proof.
  intros Hstep. revert init.
  induction l as [|x l IH]; intros init Hinit; [exact Hinit|].
  cbn [fold_left]. apply IH, Hstep, Hinit.
Qed.

Lemma Forall_snoc {A} (P : A -> Prop) (l : list A) (x : A) :
  Forall P l -> P x -> Forall P (l ++ [x]).
Proof. intros Hl Hx. apply Forall_app. split; [exact Hl|now constructor]. Qed.

Lemma ParseInt_int64 (s : string) (z : Z) :
  ParseInt s = Some z -> int64 z = true.
Proof.
  intros [Hlo Hhi]%SettingsFacts.ParseInt_range. unfold int64.
  apply andb_true_iff. split; now apply Z.leb_le.
Qed.

Lemma cleanLabels_nonempty (labels : list string) :
  noEmptyLabel (Loaders.cleanLabels labels).
Proof.
  unfold noEmptyLabel, Loaders.cleanLabels.
  apply fold_left_Forall; [|constructor].
  intros clean label Hclean. cbn zeta.
  destruct (String.eqb_spec (TrimSpace label) "") as [|Hne]; [exact Hclean|].
  now apply Forall_snoc.
Qed.

Lemma parseLabelCardinality_int64 (labelCardStr : string) :
  map_Forall (fun _ c => int64 c = true)
    (Loaders.parseLabelCardinality labelCardStr).
Proof.
  unfold Loaders.parseLabelCardinality.
  generalize (Split labelCardStr ",").
  assert (Hinit : map_Forall (fun (_ : string) c => int64 c = true)
                    (∅ : gmap string Z)) by apply map_Forall_empty.
  revert Hinit. generalize (∅ : gmap string Z).
  intros m Hm parts. revert m Hm.
  induction parts as [|p parts IH]; intros m Hm; [exact Hm|].
  cbn [fold_left]. apply IH. cbn zeta.
  destruct (len (Split p ":") =? 2); [|exact Hm].
  destruct (ParseInt _) as [count|] eqn:Hcount; [|exact Hm].
  apply map_Forall_insert_2; [|exact Hm].
  now apply ParseInt_int64 in Hcount.
Qed.

Lemma parseLine_wellFormed (data : list LJ.t) (text : string) :
  Forall wellFormed data -> Forall wellFormed (Loaders.parseLine data text).
Proof.
  intros Hdata. unfold Loaders.parseLine. cbn zeta.
  destruct (_ || _); [exact Hdata|].
  destruct (_ <? 4); [exact Hdata|].
  destruct (ParseInt _) as [cardinality|] eqn:Hc; [|exact Hdata].
  apply Forall_snoc; [exact Hdata|].
  split; [|split]; cbn [LJ.Cardinality LJ.Labels LJ.LabelCardinality].
  - now apply ParseInt_int64 in Hc.
  - apply cleanLabels_nonempty.
  - intros counts. destruct (_ && _); [|discriminate].
    intros [= <-]. apply parseLabelCardinality_int64.
Qed.

Lemma parseCardinalityLine_int64 (data : list CardinalityData.t)
    (text : string) :
  Forall (fun r => int64 (CardinalityData.Count r) = true) data ->
  Forall (fun r => int64 (CardinalityData.Count r) = true)
    (Reports.parseCardinalityLine data text).
Proof.
  intros Hdata. unfold Reports.parseCardinalityLine. cbn zeta.
  destruct (_ || _); [exact Hdata|].
  destruct (negb _); [exact Hdata|].
  destruct (ParseInt _) as [count|] eqn:Hc; [|exact Hdata].
  apply Forall_snoc; [exact Hdata|]. now apply ParseInt_int64 in Hc.
Qed.

Lemma parseLabelsLine_nonempty (data : list LabelsData.t) (text : string) :
  Forall (fun r => noEmptyLabel (LabelsData.Labels r)) data ->
  Forall (fun r => noEmptyLabel (LabelsData.Labels r))
    (Reports.parseLabelsLine data text).
Proof.
  intros Hdata. unfold Reports.parseLabelsLine. cbn zeta.
  destruct (_ || _); [exact Hdata|].
  destruct (negb _); [exact Hdata|].
  apply Forall_snoc; [exact Hdata|]. apply cleanLabels_nonempty.
Qed.

Lemma Split_nonempty (s : string) (sep : ascii) :
  exists piece pieces, Split s sep = piece :: pieces.
Proof.
  destruct s as [|c s]; [now exists "", []|].
  cbn [Split]. destruct (Ascii.eqb c sep); [now eexists _, _|].
  destruct (Split s sep); now eexists _, _.
Qed.

Lemma scanLines_cons (line piece : string) (pieces : list string) :
  scanLines (line :: piece :: pieces)
  = if MaxScanTokenSize <=? strlen line then ([], Some ErrTooLong)
    else let '(tokens, err) := scanLines (piece :: pieces) in
         (dropCR line :: tokens, err).
Proof. reflexivity. Qed.

(** Whatever a file holds, the records loaded from it carry
    cardinalities and per-label counts within int64 and no empty label;
    the same holds for the rows of the two report loaders. *)
Theorem loaded_rows_are_well_formed (dir : gmap string string)
    (filename : string) :
  Forall wellFormed (Loaders.LoadJobMetricReport dir filename).1 /\
  Forall (fun r => int64 (CardinalityData.Count r) = true)
    (Reports.LoadCardinalityReport dir filename).1 /\
  Forall (fun r => noEmptyLabel (LabelsData.Labels r))
    (Reports.LoadLabelsReport dir filename).1.
Proof.
  unfold Loaders.LoadJobMetricReport, Reports.LoadCardinalityReport,
    Reports.LoadLabelsReport.
  destruct (dir !! filename) as [content|]; [|now repeat constructor].
  destruct (Scan content) as [tokens err]. cbn [fst].
  split; [|split].
  - apply fold_left_Forall; [|constructor].
    intros acc x. apply parseLine_wellFormed.
  - apply fold_left_Forall; [|constructor].
    intros acc x. apply parseCardinalityLine_int64.
  - apply fold_left_Forall; [|constructor].
    intros acc x. apply parseLabelsLine_nonempty.
Qed.

(** The first line of a per-job file is never read as a record:
    two files that differ only in their first line load alike. *)
Theorem first_line_is_never_read (dir : gmap string string)
    (filename first first' rest : string) :
  hasByte "010" first = false -> hasByte "010" first' = false ->
  strlen first < MaxScanTokenSize -> strlen first' < MaxScanTokenSize ->
  Loaders.LoadJobMetricReport
    (<[filename := first ++ newline ++ rest]> dir) filename
  = Loaders.LoadJobMetricReport
      (<[filename := first' ++ newline ++ rest]> dir) filename.
Proof.
  intros Hnl Hnl' Hfit Hfit'. unfold Loaders.LoadJobMetricReport.
  rewrite !lookup_insert_eq. unfold Scan, newline.
  rewrite !byte_app, !Split_app_sep by assumption.
  destruct (Split_nonempty rest "010") as (piece & pieces & ->).
  rewrite !scanLines_cons.
  destruct (Z.leb_spec MaxScanTokenSize (strlen first)); [lia|].
  destruct (Z.leb_spec MaxScanTokenSize (strlen first')); [lia|].
  destruct (scanLines (piece :: pieces)) as [tokens err]. reflexivity.
Qed.

(** A file without the header line loses its first record. *)
Lemma headerless_file_loses_a_record :
  Loaders.LoadJobMetricReport
    (<["api.txt" := "api|up|instance|3|" ++ newline
                    ++ "api|http_requests_total|method,status|1500|"
                    ++ newline]> ∅) "api.txt"
  = Loaders.LoadJobMetricReport
      (<["api.txt" := headerText ++ newline
                      ++ "api|http_requests_total|method,status|1500|"
                      ++ newline]> ∅) "api.txt".
Proof.
  apply (first_line_is_never_read ∅ "api.txt" "api|up|instance|3|"
           headerText).
  - reflexivity.
  - reflexivity.
  - reflexivity.
  - reflexivity.
Defined.

End LoaderFacts.
